(** * prox2vmx: translation of a Proxmox VM descriptor into a VMX descriptor

    A shallow embedding of [prox2vmx.py] and the properties of its
    configuration parser, attribute mapper and disk converter.

    Modelling conventions.
    - A Python [str] is a [string]; each [ascii] stands for the code point
      of the same number (U+0000 .. U+00FF).  The character classes below
      are Python's own, restricted to that range.
    - A Python [dict] with string keys is an association list kept in
      insertion order: assigning to an existing key replaces its value in
      place, assigning to a new key appends.
    - A Python exception is [None] in the option monad.
    - Python integers are unbounded ([N], [nat]); [int] refuses a numeral
      of more digits than the interpreter's default limit, 4300.
    - The external programs [pvesm], [qm] and [qemu-img] are installed: a
      call starts its child, whatever the child then does. *)

From Stdlib Require Import String Ascii List Bool Arith NArith ZArith Lia.
From Stdlib Require Import Decimal DecimalString DecimalNat DecimalN.
Import ListNotations.
Local Open Scope string_scope.

(** ** The error monad: [None] is a raised exception *)

Definition bind {A B : Type} (m : option A) (k : A -> option B) : option B :=
  match m with
  | Some a => k a
  | None => None
  end.

Notation "x <- m ;; k" := (bind m (fun x => k))
  (at level 61, m at next level, right associativity).

(** ** Python string primitives *)

Module PyStr.

(** [str.isspace] on one character. *)
Definition isspace (c : ascii) : bool :=
  let n := N_of_ascii c in
  (((9 <=? n) && (n <=? 13)) || ((28 <=? n) && (n <=? 32))
   || (n =? 133) || (n =? 160))%N.

(** The class [\d] of [re] on [str] patterns: the decimal digits. *)
Definition isdecimal (c : ascii) : bool :=
  let n := N_of_ascii c in ((48 <=? n) && (n <=? 57))%N.

(** [str.isdigit] on one character: the decimal digits and the superscript
    digits U+00B2, U+00B3 and U+00B9. *)
Definition isdigit (c : ascii) : bool :=
  let n := N_of_ascii c in
  (isdecimal c || (n =? 178) || (n =? 179) || (n =? 185))%N.

Fixpoint lstrip (s : string) : string :=
  match s with
  | String c s' => if isspace c then lstrip s' else s
  | EmptyString => EmptyString
  end.

Fixpoint rstrip (s : string) : string :=
  match s with
  | EmptyString => EmptyString
  | String c s' =>
      match rstrip s' with
      | EmptyString => if isspace c then EmptyString else String c EmptyString
      | r => String c r
      end
  end.

(** [s.strip()] *)
Definition strip (s : string) : string := rstrip (lstrip s).

(** [s.startswith(p)] *)
Definition startswith (s p : string) : bool := String.prefix p s.

(** [sub in s] *)
Fixpoint contains (sub s : string) : bool :=
  String.prefix sub s ||
  match s with
  | EmptyString => false
  | String _ s' => contains sub s'
  end.

Fixpoint drop (n : nat) (s : string) : string :=
  match n, s with
  | S n', String _ s' => drop n' s'
  | _, _ => s
  end.

(** The text before and after the first occurrence of a non-empty [sep]. *)
Fixpoint partition (sep s : string) : option (string * string) :=
  if String.prefix sep s then Some (EmptyString, drop (String.length sep) s)
  else
    match s with
    | EmptyString => None
    | String c s' =>
        match partition sep s' with
        | Some (a, b) => Some (String c a, b)
        | None => None
        end
    end.

Fixpoint split_fuel (fuel : nat) (sep s : string) : list string :=
  match fuel with
  | O => [s]
  | S fuel' =>
      match partition sep s with
      | None => [s]
      | Some (a, b) => a :: split_fuel fuel' sep b
      end
  end.

(** [s.split(sep)] for a non-empty [sep]: every cut consumes at least one
    character, so [length s] cuts are enough. *)
Definition split (sep s : string) : list string :=
  split_fuel (String.length s) sep s.

(** [s.split(sep, 1)] *)
Definition split1 (sep s : string) : list string :=
  match partition sep s with
  | None => [s]
  | Some (a, b) => [a; b]
  end.

(** ["".join(ch for ch in s if ch.isdigit())] *)
Fixpoint digits_of (s : string) : string :=
  match s with
  | EmptyString => EmptyString
  | String c s' => if isdigit c then String c (digits_of s') else digits_of s'
  end.

(** [sys.get_int_max_str_digits()] as the interpreter starts: the greatest
    number of digits [int] converts. *)
Definition int_max_str_digits : nat := 4300.

(** [int(s)] for a string of [isdigit] characters: the value of a non-empty
    decimal numeral; [ValueError] on the empty string, on a superscript
    digit, and on more digits than the limit, leading zeros included. *)
Definition int (s : string) : option N :=
  match s with
  | EmptyString => None
  | _ => match NilEmpty.uint_of_string s with
         | Some d =>
             if Nat.ltb int_max_str_digits (String.length s) then None
             else Some (N.of_uint d)
         | None => None
         end
  end.

(** [str(n)], as an f-string formats an integer. *)
Definition str_of_nat (n : nat) : string := NilEmpty.string_of_uint (Nat.to_uint n).
Definition str_of_N (n : N) : string := NilEmpty.string_of_uint (N.to_uint n).

(** [os.path.basename]: the text after the last slash. *)
Fixpoint basename (p : string) : string :=
  match p with
  | EmptyString => EmptyString
  | String c p' =>
      if contains "/" p' then basename p'
      else if Ascii.eqb c "/" then p' else p
  end.

End PyStr.

(** ** Python dictionaries with string keys *)

Module Dict.

Definition t (V : Type) : Type := list (string * V).

Fixpoint get {V} (d : t V) (k : string) : option V :=
  match d with
  | [] => None
  | (k', v) :: d' => if String.eqb k' k then Some v else get d' k
  end.

(** [d.get(k, default)] *)
Definition get_default {V} (d : t V) (k : string) (default : V) : V :=
  match get d k with
  | Some v => v
  | None => default
  end.

(** [k in d] *)
Definition mem {V} (d : t V) (k : string) : bool :=
  match get d k with
  | Some _ => true
  | None => false
  end.

(** [d[k] = v] *)
Fixpoint set {V} (d : t V) (k : string) (v : V) : t V :=
  match d with
  | [] => [(k, v)]
  | (k', v') :: d' =>
      if String.eqb k' k then (k', v) :: d' else (k', v') :: set d' k v
  end.

End Dict.

(** ** The three regular expressions of the program *)

Module Re.
Import PyStr.

(** A literal prefix followed by one [\d]. *)
Definition prefix_digit (p key : string) : bool :=
  String.prefix p key &&
  match drop (String.length p) key with
  | String c _ => isdecimal c
  | EmptyString => false
  end.

(** [re.match(r"^(sata|scsi|efidisk)\d", key)] *)
Definition match_disk_key (key : string) : bool :=
  prefix_digit "sata" key || prefix_digit "scsi" key || prefix_digit "efidisk" key.

(** [re.match(r"^scsi\d", key)] *)
Definition match_scsi_key (key : string) : bool := prefix_digit "scsi" key.

(** [re.match(r"^net\d", key)] *)
Definition match_net_key (key : string) : bool := prefix_digit "net" key.

(** The longest run of characters other than a comma: what [[^,]+] takes
    when nothing follows it in the pattern. *)
Fixpoint take_field (s : string) : string :=
  match s with
  | EmptyString => EmptyString
  | String c s' => if Ascii.eqb c "," then EmptyString else String c (take_field s')
  end.

(** [name=([^,]+)] anchored at the start of [s]. *)
Definition match_here (name s : string) : option string :=
  if String.prefix (name ++ "=") s then
    match take_field (drop (String.length name + 1) s) with
    | EmptyString => None
    | v => Some v
    end
  else None.

(** The alternatives are tried in the order of the pattern. *)
Fixpoint first_alt (names : list string) (s : string) : option string :=
  match names with
  | [] => None
  | n :: names' =>
      match match_here n s with
      | Some v => Some v
      | None => first_alt names' s
      end
  end.

(** [re.search(r"(?:n1|n2|...)=([^,]+)", s)]: group 1 of the leftmost
    match, [None] when there is none. *)
Fixpoint search_kv (names : list string) (s : string) : option string :=
  match first_alt names s with
  | Some v => Some v
  | None =>
      match s with
      | EmptyString => None
      | String _ s' => search_kv names s'
      end
  end.

Definition nic_models : list string :=
  ["virtio"; "e1000"; "e1000e"; "vmxnet3"; "rtl8139"].

End Re.

(** ** The program *)

Module Prox2vmx.
Import PyStr Re.

Definition GUESTOS_MAP : Dict.t string :=
  [ ("win11", "windows2019srvNext-64");
    ("win10", "windows2019srv-64");
    ("win8", "windows8srv-64");
    ("win7", "windows7srv-64");
    ("w2k8", "longhorn-64");
    ("wxp", "winNetEnterprise-64");
    ("l26", "otherlinux-64");
    ("l24", "other24xlinux-64") ].

(** *** [parse_conf] *)

Definition LF : ascii := ascii_of_nat 10.
Definition CR : ascii := ascii_of_nat 13.

(** Text mode with universal newlines: [\r\n] and [\r] are read as [\n]. *)
Fixpoint translate_newlines (s : string) : string :=
  match s with
  | EmptyString => EmptyString
  | String c s' =>
      if Ascii.eqb c CR then
        String LF
          match s' with
          | String c2 s'' =>
              if Ascii.eqb c2 LF then translate_newlines s''
              else translate_newlines s'
          | EmptyString => EmptyString
          end
      else String c (translate_newlines s')
  end.

(** [for line in f]: each line keeps its terminator. *)
Fixpoint readlines (s : string) : list string :=
  match s with
  | EmptyString => []
  | String c s' =>
      if Ascii.eqb c LF then String c EmptyString :: readlines s'
      else
        match readlines s' with
        | [] => [String c EmptyString]
        | l :: ls => String c l :: ls
        end
  end.

(** The body of the loop of [parse_conf]; [None] is the [ValueError] of an
    unpacking that does not find two parts. *)
Definition parse_line (cfg : Dict.t string) (line : string) : option (Dict.t string) :=
  let line := strip line in
  if String.eqb line "" || negb (contains ":" line) then Some cfg
  else
    match split1 ":" line with
    | [key; value] => Some (Dict.set cfg (strip key) (strip value))
    | _ => None
    end.

Fixpoint parse_lines (cfg : Dict.t string) (lines : list string) : option (Dict.t string) :=
  match lines with
  | [] => Some cfg
  | line :: rest => cfg' <- parse_line cfg line ;; parse_lines cfg' rest
  end.

(** A file system gives the text of the files that can be opened. *)
Definition filesystem : Type := string -> option string.

Definition parse_conf (fs : filesystem) (filepath : string) : option (Dict.t string) :=
  text <- fs filepath ;;
  parse_lines [] (readlines (translate_newlines text)).

(** *** [process_conf] *)

Inductive dev : Type := sata0 | scsi0.

Definition dev_name (d : dev) : string :=
  match d with
  | sata0 => "sata0"
  | scsi0 => "scsi0"
  end.

Definition dev_eqb (a b : dev) : bool :=
  match a, b with
  | sata0, sata0 | scsi0, scsi0 => true
  | _, _ => false
  end.

(** [disk_id = {"sata0": 0, "scsi0": 0}] *)
Record counters : Type := { sata0_id : nat; scsi0_id : nat }.

Definition disk_id_get (c : counters) (d : dev) : nat :=
  match d with
  | sata0 => sata0_id c
  | scsi0 => scsi0_id c
  end.

(** [disk_id[dev] += 1] *)
Definition disk_id_incr (c : counters) (d : dev) : counters :=
  match d with
  | sata0 => {| sata0_id := S (sata0_id c); scsi0_id := scsi0_id c |}
  | scsi0 => {| sata0_id := sata0_id c; scsi0_id := S (scsi0_id c) |}
  end.

(** [{"disk_file": ..., "vmdk_name": ...}] *)
Record task : Type := { disk_file : string; vmdk_name : string }.

Record state : Type :=
  { vmx_cfg : Dict.t string; convert_tasks : list task; disk_id : counters }.

Definition cdrom_marker : string := "none,media=cdrom".

(** [".qcow2" in entry or ".vmdk" in entry or ".raw" in entry] *)
Definition convertible (entry : string) : bool :=
  contains ".qcow2" entry || contains ".vmdk" entry || contains ".raw" entry.

Definition family (key : string) : dev :=
  if match_scsi_key key then scsi0 else sata0.

(** [f"{vm_name}-{dev}-disk-{disk_id[dev]}.vmdk"] *)
Definition vmdk_file (vm_name : string) (d : dev) (n : nat) : string :=
  vm_name ++ "-" ++ dev_name d ++ "-disk-" ++ str_of_nat n ++ ".vmdk".

(** [f"{dev}:{disk_id[dev]}.present"] and [f"{dev}:{disk_id[dev]}.fileName"] *)
Definition slot_key (d : dev) (n : nat) (attr : string) : string :=
  dev_name d ++ ":" ++ str_of_nat n ++ "." ++ attr.

(** [f"ethernet{nic_id}.addressType"] and its siblings *)
Definition eth_key (nic_id : N) (attr : string) : string :=
  "ethernet" ++ str_of_N nic_id ++ "." ++ attr.

(** The disk branch of the loop, after the empty CD-ROM test. *)
Definition disk_block (vm_name key entry : string) (st : state) : option state :=
  let d := family key in
  let vmx := vmx_cfg st in
  let vmx := if match_scsi_key key then Dict.set vmx "scsi0.virtualDev" "lsilogic" else vmx in
  let vmx := Dict.set vmx (dev_name d ++ ".present") "TRUE" in
  file <- nth_error (split "," entry) 0 ;;
  let n := disk_id_get (disk_id st) d in
  let name := vmdk_file vm_name d n in
  let tasks :=
    if convertible entry
    then (convert_tasks st ++ [{| disk_file := file; vmdk_name := name |}])%list
    else convert_tasks st in
  let vmx := Dict.set vmx (slot_key d n "present") "TRUE" in
  let vmx := Dict.set vmx (slot_key d n "fileName") name in
  Some {| vmx_cfg := vmx; convert_tasks := tasks;
          disk_id := disk_id_incr (disk_id st) d |}.

(** [m.group(1) if m else ""] and [n.group(1) if n else "unknown"] *)
Definition mac_of (entry : string) : string :=
  match search_kv nic_models entry with
  | Some v => v
  | None => ""
  end.

Definition bridge_of (entry : string) : string :=
  match search_kv ["bridge"] entry with
  | Some v => v
  | None => "unknown"
  end.

(** [int("".join(ch for ch in key if ch.isdigit()))] *)
Definition nic_id_of (key : string) : option N := int (digits_of key).

(** The network branch of the loop. *)
Definition net_block (preserve_mac : bool) (key entry : string) (st : state) : option state :=
  nic_id <- nic_id_of key ;;
  let vmx := vmx_cfg st in
  let vmx := Dict.set vmx (eth_key nic_id "addressType") "vpx" in
  let vmx := Dict.set vmx (eth_key nic_id "present") "TRUE" in
  let vmx := Dict.set vmx (eth_key nic_id "networkName") (bridge_of entry) in
  let vmx :=
    if preserve_mac then
      Dict.set (Dict.set vmx (eth_key nic_id "address") (mac_of entry))
        (eth_key nic_id "addressType") "static"
    else vmx in
  Some {| vmx_cfg := vmx; convert_tasks := convert_tasks st; disk_id := disk_id st |}.

(** One iteration of [for key, entry in cfg.items()]. *)
Definition loop_body (preserve_mac : bool) (vm_name : string)
    (item : string * string) (st : state) : option state :=
  let '(key, entry) := item in
  if match_disk_key key && startswith entry cdrom_marker then Some st
  else
    st <- (if match_disk_key key then disk_block vm_name key entry st else Some st) ;;
    if match_net_key key then net_block preserve_mac key entry st else Some st.

Fixpoint run_loop (preserve_mac : bool) (vm_name : string)
    (items : list (string * string)) (st : state) : option state :=
  match items with
  | [] => Some st
  | item :: rest =>
      st' <- loop_body preserve_mac vm_name item st ;;
      run_loop preserve_mac vm_name rest st'
  end.

(** [cfg.get("bios") == "ovmf" or "efidisk0" in cfg] *)
Definition wants_efi (cfg : Dict.t string) : bool :=
  match Dict.get cfg "bios" with
  | Some b => String.eqb b "ovmf"
  | None => false
  end || Dict.mem cfg "efidisk0".

(** The assignments before the loop. *)
Definition scalars (cfg : Dict.t string) : option (Dict.t string) :=
  let vm_name := Dict.get_default cfg "name" "" in
  let vmx := Dict.set [] ".encoding" "UTF-8" in
  let vmx := Dict.set vmx "displayName" vm_name in
  let vmx := Dict.set vmx "numvcpus" (Dict.get_default cfg "cores" "1") in
  let vmx := Dict.set vmx "memsize" (Dict.get_default cfg "memory" "4096") in
  let vmx := Dict.set vmx "guestOS"
               (Dict.get_default GUESTOS_MAP (Dict.get_default cfg "ostype" "") "other-64") in
  let vmx := Dict.set vmx "tools.syncTime" "TRUE" in
  let vmx := Dict.set vmx "virtualHW.version" "19" in
  let vmx := Dict.set vmx "config.version" "8" in
  let vmx :=
    if wants_efi cfg
    then Dict.set (Dict.set vmx "firmware" "efi") "efi.present" "TRUE"
    else vmx in
  match Dict.get cfg "smbios1" with
  | Some smbios1 =>
      if contains "uuid=" smbios1 then
        uuid <- nth_error (split "uuid=" smbios1) 1 ;;
        Some (Dict.set vmx "uuid.bios" uuid)
      else Some vmx
  | None => Some vmx
  end.

Definition process_conf (cfg : Dict.t string) (preserve_mac : bool)
    : option (Dict.t string * list task) :=
  vmx <- scalars cfg ;;
  st <- run_loop preserve_mac (Dict.get_default cfg "name" "") cfg
          {| vmx_cfg := vmx; convert_tasks := [];
             disk_id := {| sata0_id := 0; scsi0_id := 0 |} |} ;;
  Some (vmx_cfg st, convert_tasks st).

(** *** [convert_disk_file] *)

Inductive exn : Type := CalledProcessError | UnicodeDecodeError.

(** What [subprocess.run] captures. *)
Record completed : Type := { returncode : Z; stdout : string }.

(** The child started by [Popen], which does start: the bytes it writes to
    the merged pipe, its exit status, and how many times [process.poll()]
    answers [None] before the child is seen to have exited. *)
Record child : Type := { child_output : string; child_status : Z; polls : nat }.

Record world : Type :=
  { pvesm_path : string -> completed;
    path_exists : string -> bool;
    qemu_img : string -> string -> child }.

(** The [while process.poll() is None] loop; the result is what was
    printed.  [read(1)] gives the next byte, or nothing at the end of the
    stream; a byte above 0x7F cannot be decoded on its own. *)
Fixpoint progress_loop (n : nat) (out current_progress : string)
    (printed : list string) : exn + list string :=
  match n with
  | O => inr printed
  | S n' =>
      match out with
      | EmptyString => progress_loop n' out current_progress printed
      | String v out' =>
          if Ascii.eqb v CR then
            progress_loop n' out' ""
              (List.app printed ["Progress: " ++ strip current_progress])
          else if (N_of_ascii v <? 128)%N then
            progress_loop n' out' (current_progress ++ String v "") printed
          else inl UnicodeDecodeError
      end
  end.

(** The result is the returned value ([None] when the conversion is
    skipped) and the lines printed; the arrow of the first message, a
    character above U+00FF, is written [->]. *)
Definition convert_disk_file (w : world) (pve_path vmdk_path : string)
    : exn + (option string * list string) :=
  let r := pvesm_path w pve_path in
  if negb (returncode r =? 0)%Z then inl CalledProcessError
  else
    let disk_path := strip (stdout r) in
    if negb (path_exists w disk_path) then
      inr (None, ["Warning: " ++ disk_path ++ " not found, skipping conversion"])
    else
      let process := qemu_img w disk_path vmdk_path in
      match progress_loop (polls process) (child_output process) "" [] with
      | inl e => inl e
      | inr printed =>
          inr (Some (basename vmdk_path),
               ("Converting " ++ pve_path ++ " -> " ++ basename vmdk_path) :: printed)
      end.

(** *** [random_name] *)

(** [string.ascii_letters + string.digits] *)
Definition alphanumeric : string :=
  "abcdefghijklmnopqrstuvwxyzABCDEFGHIJKLMNOPQRSTUVWXYZ0123456789".

(** [s[i]] for an index within the string, [IndexError] beyond it. *)
Fixpoint char_at (i : nat) (s : string) : option ascii :=
  match s, i with
  | EmptyString, _ => None
  | String c _, O => Some c
  | String _ s', S i' => char_at i' s'
  end.

(** [m] cut to [e] bits fewer, the nearest multiple of [2^e], a tie going
    to the even one. *)
Definition round_bits (e m : N) : N :=
  let q := (m / 2 ^ e)%N in
  let r := (m mod 2 ^ e)%N in
  let half := (2 ^ e / 2)%N in
  ((if (half <? r) || ((r =? half) && N.odd q) then q + 1 else q) * 2 ^ e)%N.

(** The float nearest to [m / 2^53], as a numerator over [2^53]: a float
    keeps 53 significant bits. *)
Definition round53 (m : N) : N :=
  let e := (N.log2 m + 1 - 53)%N in
  if (e =? 0)%N then m else round_bits e m.

(** [floor(random() * n)] for [n = len + 0.0]: the draw of the generator is
    a float [r / 2^53] with [r] below [2^53], the product is rounded to a
    float, and the floor is taken of that float. *)
Definition float_index (r : N) (len : nat) : nat :=
  N.to_nat (round53 ((r mod 2 ^ 53) * N.of_nat len) / 2 ^ 53).

(** [random.choices(chars, k)]: the character of each of the [k] draws is
    [chars[floor(random() * n)]]. *)
Fixpoint choices (chars : string) (draws : nat -> N) (k : nat) : option string :=
  match k with
  | O => Some EmptyString
  | S k' =>
      rest <- choices chars (fun i => draws (S i)) k' ;;
      c <- char_at (float_index (draws O) (String.length chars)) chars ;;
      Some (String c rest)
  end.

Definition random_name (draws : nat -> N) : option string :=
  choices alphanumeric draws 8.

(** *** [check_vm_is_running] *)

(** What the host answers: the conversions of [world], the files that can
    be opened for reading, the status command, the draws of the random
    generator, and whether a directory can be made and a file be written. *)
Record host : Type :=
  { conv : world;
    files : filesystem;
    qm_status : Z -> completed;
    draws : nat -> N;
    makedirs_ok : string -> bool;
    writable : string -> bool }.

Definition check_vm_is_running (h : host) (vm_id : Z) : exn + bool :=
  let r := qm_status h vm_id in
  if negb (returncode r =? 0)%Z then inl CalledProcessError
  else inr (negb (contains "stopped" (strip (stdout r)))).

(** *** [generate_vmx] *)

Definition DQUOTE : ascii := ascii_of_nat 34.

(** [f'{k} = "{v}"\n'] *)
Definition vmx_line (k v : string) : string :=
  k ++ " = " ++ String DQUOTE (v ++ String DQUOTE (String LF "")).

(** What [generate_vmx] writes to the file. *)
Fixpoint vmx_text (vmx_cfg : Dict.t string) : string :=
  match vmx_cfg with
  | [] => ""
  | (k, v) :: rest => vmx_line k v ++ vmx_text rest
  end.

(** *** [main] *)

Definition CONF_DIR : string := "/etc/pve/qemu-server".

(** [str(n)] for an integer of either sign. *)
Definition str_of_Z (n : Z) : string := NilEmpty.string_of_int (Z.to_int n).

(** [s.endswith("/")] *)
Fixpoint ends_with_slash (s : string) : bool :=
  match s with
  | EmptyString => false
  | String c EmptyString => Ascii.eqb c "/"
  | String _ s' => ends_with_slash s'
  end.

(** [os.path.join(a, b)] *)
Definition path_join (a b : string) : string :=
  if startswith b "/" then b
  else if String.eqb a "" || ends_with_slash a then a ++ b
  else a ++ "/" ++ b.

(** What a run does to the outside, in order. *)
Inductive event : Type :=
  | Print (line : string)
  | Makedirs (path : string)
  | Convert (pve_path vmdk_path : string)
  | Write (path text : string).

(** How a run that does not return ends. *)
Inductive abort : Type :=
  | Exit (code : Z)
  | Raise (e : exn)
  | RaiseOSError
  | RaiseValueError
  | RaiseKeyError
  | RaiseIndexError.

(** [for task in convert_tasks: convert_disk_file(...)]; each call is
    recorded, and after it the lines it printed when it returned. *)
Fixpoint convert_all (w : world) (out_dir : string) (tasks : list task)
    : list event * option abort :=
  match tasks with
  | [] => ([], None)
  | t :: rest =>
      let vmdk_path := path_join out_dir (vmdk_name t) in
      match convert_disk_file w (disk_file t) vmdk_path with
      | inl e => ([Convert (disk_file t) vmdk_path], Some (Raise e))
      | inr (_, printed) =>
          let '(events, r) := convert_all w out_dir rest in
          ((Convert (disk_file t) vmdk_path :: map Print printed) ++ events, r)%list
      end
  end.

(** [main], after the arguments are parsed: [now] is the formatted date
    and [vm_id] the integer that [argparse] read, whose numeral is within
    the limit of [int].  The result is what the run did and, when it did
    not return, how it ended. *)
Definition main (h : host) (now : string) (vm_id : Z) (preserve_mac : bool)
    : list event * option abort :=
  let conf_path := path_join CONF_DIR (str_of_Z vm_id ++ ".conf") in
  if negb (path_exists (conv h) conf_path) then
    ([Print ("Error: " ++ conf_path ++ " does not exist.")], Some (Exit 1))
  else
    match parse_conf (files h) conf_path with
    | None => ([], Some RaiseOSError)
    | Some cfg =>
        match random_name (draws h) with
        | None => ([], Some RaiseIndexError)
        | Some rnd =>
            let cfg := Dict.set cfg "name"
                         (Dict.get_default cfg "name" ("vm-" ++ str_of_Z vm_id ++ "-" ++ rnd)) in
            match Dict.get cfg "name" with
            | None => ([], Some RaiseKeyError)
            | Some vm_name =>
                let out_dir := vm_name ++ "_" ++ now in
                match check_vm_is_running h vm_id with
                | inl e => ([], Some (Raise e))
                | inr true =>
                    ([Print (vm_name ++ " is currently running. You must stop it to be converted")],
                     Some (Exit 1))
                | inr false =>
                    if negb (makedirs_ok h out_dir) then ([], Some RaiseOSError)
                    else
                      let start := [Makedirs out_dir; Print ("Starting conversion " ++ vm_name)] in
                      match process_conf cfg preserve_mac with
                      | None => (start, Some RaiseValueError)
                      | Some (vmx_cfg, convert_tasks) =>
                          let '(events, r) := convert_all (conv h) out_dir convert_tasks in
                          match r with
                          | Some a => ((start ++ events)%list, Some a)
                          | None =>
                              let vmx_path := path_join out_dir (vm_name ++ ".vmx") in
                              if negb (writable h vmx_path)
                              then ((start ++ events)%list, Some RaiseOSError)
                              else
                                ((start ++ events ++
                                  [Write vmx_path (vmx_text vmx_cfg);
                                   Print (String (ascii_of_nat 27) "[92mConversion successful: "
                                          ++ vm_name ++ String (ascii_of_nat 27) "[0m")])%list,
                                 None)
                          end
                      end
                end
            end
        end
    end.

End Prox2vmx.

(** ** Vocabulary of the specification *)

Module Spec.
Import PyStr Re Prox2vmx.

(** Whitespace only; whitespace at the start; whitespace at the end. *)
Fixpoint all_space (s : string) : bool :=
  match s with
  | EmptyString => true
  | String c s' => isspace c && all_space s'
  end.

Definition starts_with_space (s : string) : bool :=
  match s with
  | EmptyString => false
  | String c _ => isspace c
  end.

Fixpoint ends_with_space (s : string) : bool :=
  match s with
  | EmptyString => false
  | String c EmptyString => isspace c
  | String _ s' => ends_with_space s'
  end.

(** The text before, and after, the first occurrence of a character. *)
Fixpoint before (c : ascii) (s : string) : string :=
  match s with
  | EmptyString => EmptyString
  | String x s' => if Ascii.eqb x c then EmptyString else String x (before c s')
  end.

Fixpoint after (c : ascii) (s : string) : string :=
  match s with
  | EmptyString => EmptyString
  | String x s' => if Ascii.eqb x c then s' else after c s'
  end.

(** The backing reference of a disk entry: the text before its first comma. *)
Definition reference (entry : string) : string := before "," entry.

(** The second piece of [s.split(sep)]: the text after the first [sep], up
    to the next [sep] when there is one. *)
Definition second_piece (sep s : string) : option string :=
  match partition sep s with
  | None => None
  | Some (_, b) =>
      match partition sep b with
      | Some (u, _) => Some u
      | None => Some b
      end
  end.

(** The parsing rule in the words of the specification: a line contributes
    a pair when, once trimmed, it is not empty and holds a colon; the pair
    is the trimmed text before the first colon and the trimmed text after
    it. *)
Definition line_pair (line : string) : list (string * string) :=
  let l := strip line in
  if negb (String.eqb l "") && contains ":" l
  then [(strip (before ":" l), strip (after ":" l))]
  else [].

Definition line_pairs (lines : list string) : list (string * string) :=
  flat_map line_pair lines.

(** Storing pairs in order, a later pair overwriting an earlier one. *)
Definition store (cfg : Dict.t string) (pairs : list (string * string)) : Dict.t string :=
  fold_left (fun d p => Dict.set d (fst p) (snd p)) pairs cfg.

(** A small descriptor: a duplicated key, spaces around a key, a line
    without separator, an empty line and a value holding a colon. *)
Definition sample_conf : string :=
  "name: a" ++ String LF
  ("  cores : 2" ++ String CR (String LF
  ("# no separator here" ++ String LF
  (String LF
  ("name: web:01" ++ String LF ""))))).

(** The value of the last pair that carries the key. *)
Definition last_value (pairs : list (string * string)) (k : string) : option string :=
  Dict.get (List.rev pairs) k.

(** A disk entry that is enumerated: matched by the storage-bus pattern and
    not an empty CD-ROM drive. *)
Definition is_disk (item : string * string) : bool :=
  match_disk_key (fst item) && negb (startswith (snd item) cdrom_marker).

(** An enumerated disk routed to the controller family [d]. *)
Definition counted (d : dev) (item : string * string) : bool :=
  is_disk item && dev_eqb (family (fst item)) d.

(** The number of enumerated disks of family [d] among the entries [pre]
    discovered so far. *)
Definition slot (d : dev) (pre : list (string * string)) : nat :=
  List.length (filter (counted d) pre).

(** The conversion tasks of the entries [post], discovered after [pre]:
    one for each enumerated disk whose value holds a convertible
    extension. *)
Fixpoint tasks_from (vm_name : string) (pre post : list (string * string)) : list task :=
  match post with
  | [] => []
  | (key, entry) :: post' =>
      ((if is_disk (key, entry) && convertible entry
        then [{| disk_file := reference entry;
                 vmdk_name := vmdk_file vm_name (family key) (slot (family key) pre) |}]
        else [])
       ++ tasks_from vm_name (pre ++ [(key, entry)]) post')%list
  end.

(** A superscript digit, U+00B2, U+00B3 or U+00B9: a digit character that
    is not one of the ten decimal digits. *)
Definition superscript (c : ascii) : bool :=
  let n := N_of_ascii c in ((n =? 178) || (n =? 179) || (n =? 185))%N.

Fixpoint has_superscript (s : string) : bool :=
  match s with
  | EmptyString => false
  | String c s' => superscript c || has_superscript s'
  end.

(** Decimal digits only. *)
Fixpoint all_decimal (s : string) : bool :=
  match s with
  | EmptyString => true
  | String c s' => isdecimal c && all_decimal s'
  end.

(** The number of characters of [s] that are a decimal or a superscript
    digit. *)
Fixpoint count_digits (s : string) : nat :=
  match s with
  | EmptyString => 0
  | String c s' => (if isdecimal c || superscript c then 1 else 0) + count_digits s'
  end.

(** A key whose digits make a number that can be read: none of them is a
    superscript digit and there are at most 4300 of them. *)
Definition readable_id (key : string) : bool :=
  negb (has_superscript key) && Nat.leb (count_digits key) 4300.

(** Every key of the mapping that matches the network pattern has a
    readable number. *)
Definition net_ids_ok (cfg : list (string * string)) : bool :=
  forallb (fun item => if match_net_key (fst item) then readable_id (fst item) else true) cfg.

(** The string of [n] characters [c]. *)
Fixpoint replicate (n : nat) (c : ascii) : string :=
  match n with
  | O => EmptyString
  | S n' => String c (replicate n' c)
  end.

(** In [s], right after [front], stands a field [name=value] with [name]
    one of [names]: the value is not empty, holds no comma, and runs to the
    next comma or to the end of [s]. *)
Definition field_at (names : list string) (s front value : string) : Prop :=
  value <> "" /\ contains "," value = false /\
  exists name tail,
    In name names /\ s = front ++ name ++ "=" ++ value ++ tail /\
    (tail = "" \/ String.prefix "," tail = true).

(** The value of the leftmost such field of [s]. *)
Definition first_field (names : list string) (s value : string) : Prop :=
  exists front,
    field_at names s front value /\
    forall front' value',
      field_at names s front' value' -> String.length front <= String.length front'.

(** No such field anywhere in [s]. *)
Definition no_field (names : list string) (s : string) : Prop :=
  forall front value, ~ field_at names s front value.

(** The names of the interface models that carry the address. *)
Definition model_names : list string :=
  ["virtio"; "e1000"; "e1000e"; "vmxnet3"; "rtl8139"].

(** Every key but the two of the firmware rule. *)
Definition not_firmware (x : string) : Prop := x <> "firmware" /\ x <> "efi.present".

(** The entries of [post] that are network entries of interface [n]. *)
Definition same_nic (n : N) (item : string * string) : bool :=
  match_net_key (fst item) &&
  match nic_id_of (fst item) with
  | Some m => N.eqb m n
  | None => false
  end.

(** The state after one enumerated disk. *)
Definition disk_state (vm_name key entry : string) (st : state) : state :=
  let d := family key in
  let n := disk_id_get (disk_id st) d in
  let vmx := vmx_cfg st in
  let vmx := if match_scsi_key key then Dict.set vmx "scsi0.virtualDev" "lsilogic" else vmx in
  let vmx := Dict.set vmx (dev_name d ++ ".present") "TRUE" in
  let vmx := Dict.set vmx (slot_key d n "present") "TRUE" in
  let vmx := Dict.set vmx (slot_key d n "fileName") (vmdk_file vm_name d n) in
  {| vmx_cfg := vmx;
     convert_tasks :=
       (convert_tasks st ++
        if convertible entry
        then [{| disk_file := reference entry; vmdk_name := vmdk_file vm_name d n |}]
        else [])%list;
     disk_id := disk_id_incr (disk_id st) d |}.

(** The state after one network entry of interface [n]. *)
Definition net_state (preserve_mac : bool) (n : N) (entry : string) (st : state) : state :=
  let vmx := vmx_cfg st in
  let vmx := Dict.set vmx (eth_key n "addressType") "vpx" in
  let vmx := Dict.set vmx (eth_key n "present") "TRUE" in
  let vmx := Dict.set vmx (eth_key n "networkName") (bridge_of entry) in
  let vmx :=
    if preserve_mac then
      Dict.set (Dict.set vmx (eth_key n "address") (mac_of entry))
        (eth_key n "addressType") "static"
    else vmx in
  {| vmx_cfg := vmx; convert_tasks := convert_tasks st; disk_id := disk_id st |}.

(** The value of the last entry of [items] that names the interface [n]. *)
Fixpoint last_entry (n : N) (items : list (string * string)) : option string :=
  match items with
  | [] => None
  | item :: rest =>
      match last_entry n rest with
      | Some e => Some e
      | None => if same_nic n item then Some (snd item) else None
      end
  end.

(** Two descriptors with the same value at every key in [P]. *)
Definition agree (P : string -> Prop) (d1 d2 : Dict.t string) : Prop :=
  forall x, P x -> Dict.get d1 x = Dict.get d2 x.

(** Two loop states that differ at most outside [P]. *)
Definition related (P : string -> Prop) (s1 s2 : state) : Prop :=
  agree P (vmx_cfg s1) (vmx_cfg s2) /\
  convert_tasks s1 = convert_tasks s2 /\ disk_id s1 = disk_id s2.

Definition related_opt (P : string -> Prop) (o1 o2 : option state) : Prop :=
  match o1, o2 with
  | Some s1, Some s2 => related P s1 s2
  | None, None => True
  | _, _ => False
  end.

(** Every slot file name in the descriptor is the one computed for the
    slot. *)
Definition names_ok (vm_name : string) (vmx : Dict.t string) : Prop :=
  forall d n file,
    Dict.get vmx (slot_key d n "fileName") = Some file -> file = vmdk_file vm_name d n.

(** No occurrence of the character [c] in [s]. *)
Definition free_of (c : ascii) (s : string) : Prop := contains (String c "") s = false.

(** The keys the loop assigns: those of the two controllers and those of
    the network interfaces. *)
Definition loop_key (x : string) : bool :=
  String.prefix "sata0" x || String.prefix "scsi0" x || String.prefix "ethernet" x.

(** The same world, where the converter child exits with [status]. *)
Definition with_status (w : world) (status : Z) : world :=
  {| pvesm_path := pvesm_path w;
     path_exists := path_exists w;
     qemu_img := fun src dst =>
       {| child_output := child_output (qemu_img w src dst);
          child_status := status;
          polls := polls (qemu_img w src dst) |} |}.

(** A world where the source image resolves and exists, and the converter
    reports some progress and then exits with status 1. *)
Definition failing_world : world :=
  {| pvesm_path := fun _ =>
       {| returncode := 0; stdout := "/var/lib/vz/images/100/vm-100-disk-0.qcow2" |};
     path_exists := fun _ => true;
     qemu_img := fun _ _ =>
       {| child_output := String "(" (String "1" (String "2" (String CR "qemu-img: error")));
          child_status := 1;
          polls := 40 |} |}.

(** The eight assignments every descriptor begins with. *)
Definition fixed_entries (cfg : Dict.t string) : list (string * string) :=
  [ (".encoding", "UTF-8");
    ("displayName", Dict.get_default cfg "name" "");
    ("numvcpus", Dict.get_default cfg "cores" "1");
    ("memsize", Dict.get_default cfg "memory" "4096");
    ("guestOS", Dict.get_default GUESTOS_MAP (Dict.get_default cfg "ostype" "") "other-64");
    ("tools.syncTime", "TRUE");
    ("virtualHW.version", "19");
    ("config.version", "8") ].

(** The source keys the mapper reads by name. *)
Definition read_keys : list string :=
  ["name"; "cores"; "memory"; "ostype"; "bios"; "efidisk0"; "smbios1"].

(** An entry the writer can take: no line break in the key or the value,
    no double quote in the key. *)
Definition writable_entry (p : string * string) : Prop :=
  free_of LF (fst p) /\ free_of DQUOTE (fst p) /\ free_of LF (snd p).

(** Bytes below 0x80 only. *)
Fixpoint all_ascii (s : string) : bool :=
  match s with
  | EmptyString => true
  | String c s' => (N_of_ascii c <? 128)%N && all_ascii s'
  end.

(** A letter or a digit of ASCII. *)
Definition alnum (c : ascii) : bool :=
  let n := N_of_ascii c in
  (((48 <=? n) && (n <=? 57)) || ((65 <=? n) && (n <=? 90))
   || ((97 <=? n) && (n <=? 122)))%N.

Fixpoint all_alnum (s : string) : bool :=
  match s with
  | EmptyString => true
  | String c s' => alnum c && all_alnum s'
  end.

(** An event other than a printed line: something done to the host. *)
Definition is_effect (e : event) : bool :=
  match e with
  | Print _ => false
  | _ => true
  end.

Definition is_write (e : event) : bool :=
  match e with
  | Write _ _ => true
  | _ => false
  end.

Definition is_convert (e : event) : bool :=
  match e with
  | Convert _ _ => true
  | _ => false
  end.

(** The first [n] characters. *)
Fixpoint take (n : nat) (s : string) : string :=
  match n, s with
  | S n', String c s' => String c (take n' s')
  | _, _ => EmptyString
  end.

(** A progress line. *)
Definition progress_line (update : string) : string := "Progress: " ++ strip update.

(** A host where the descriptor of the sample is found, the machine is
    stopped, and the converter child fails as in [failing_world]. *)
Definition stopped_host : host :=
  {| conv := failing_world;
     files := fun _ => Some sample_conf;
     qm_status := fun _ => {| returncode := 0; stdout := "status: stopped" |};
     draws := fun i => N.of_nat i;
     makedirs_ok := fun _ => true;
     writable := fun _ => true |}.

(** The same host with a descriptor that has a disk and no name. *)
Definition nameless_host : host :=
  {| conv := failing_world;
     files := fun _ =>
       Some ("cores: 2" ++ String LF
             ("sata0: local:100/vm-100-disk-0.qcow2,size=32G" ++ String LF ""));
     qm_status := fun _ => {| returncode := 0; stdout := "status: stopped" |};
     draws := fun i => N.of_nat i;
     makedirs_ok := fun _ => true;
     writable := fun _ => true |}.

End Spec.

(** * Properties *)

(** ** Strings *)

Section StringFacts.
Import PyStr Spec.

Lemma prefix_nil_l (s : string) : String.prefix "" s = true.
Proof. destruct s; reflexivity. Qed.

Lemma prefix_cons (a b : ascii) (p s : string) :
  String.prefix (String a p) (String b s) = Ascii.eqb a b && String.prefix p s.
Proof.
  simpl. destruct (ascii_dec a b) as [->|ne].
  - now rewrite Ascii.eqb_refl.
  - apply Ascii.eqb_neq in ne. now rewrite ne.
Qed.

Lemma prefix_app (p r : string) : String.prefix p (p ++ r) = true.
Proof.
  induction p as [|a p IH]; simpl String.append.
  - apply prefix_nil_l.
  - rewrite prefix_cons, Ascii.eqb_refl. exact IH.
Qed.

Lemma drop_app (p r : string) : drop (String.length p) (p ++ r) = r.
Proof. induction p as [|a p IH]; simpl; [now destruct r | exact IH]. Qed.

Lemma prefix_inv (p s : string) :
  String.prefix p s = true -> s = p ++ drop (String.length p) s.
Proof.
  revert s. induction p as [|a p IH]; intros s H.
  - now destruct s.
  - destruct s as [|b s]; [discriminate|].
    rewrite prefix_cons in H. apply andb_prop in H as [Hab Hp].
    apply Ascii.eqb_eq in Hab. subst b. simpl. f_equal. now apply IH.
Qed.

Lemma append_assoc (a b c : string) : (a ++ b) ++ c = a ++ b ++ c.
Proof. induction a as [|x a IH]; simpl; [reflexivity | now rewrite IH]. Qed.

Lemma append_inv_head (a b c : string) : a ++ b = a ++ c -> b = c.
Proof.
  induction a as [|x a IH]; simpl; intros H; [exact H|].
  injection H as H. now apply IH.
Qed.

Lemma string_length_app (a b : string) :
  String.length (a ++ b) = String.length a + String.length b.
Proof. induction a as [|x a IH]; simpl; [reflexivity | now rewrite IH]. Qed.

Lemma contains_eq (sub s : string) :
  contains sub s =
  String.prefix sub s || match s with "" => false | String _ s' => contains sub s' end.
Proof. destruct s; reflexivity. Qed.

Lemma partition_eq (sep s : string) :
  partition sep s =
  if String.prefix sep s then Some ("", drop (String.length sep) s)
  else match s with
       | "" => None
       | String c s' =>
           match partition sep s' with
           | Some (a, b) => Some (String c a, b)
           | None => None
           end
       end.
Proof. destruct s; reflexivity. Qed.

(** A cut made by [partition] takes the text apart around the separator. *)
Lemma partition_some (sep s a b : string) :
  partition sep s = Some (a, b) -> s = a ++ sep ++ b.
Proof.
  revert a b. induction s as [|c s IH]; intros a b; rewrite partition_eq.
  - destruct (String.prefix sep "") eqn:P; [|discriminate].
    intros [= <- <-]. now apply prefix_inv in P.
  - destruct (String.prefix sep (String c s)) eqn:P.
    + intros [= <- <-]. now apply prefix_inv in P.
    + destruct (partition sep s) as [[a' b']|]; [|discriminate].
      intros [= <- <-]. simpl. f_equal. now apply IH.
Qed.

Lemma partition_none (sep s : string) :
  partition sep s = None <-> contains sep s = false.
Proof.
  induction s as [|c s IH]; rewrite partition_eq, contains_eq.
  - destruct (String.prefix sep ""); simpl; split; congruence.
  - destruct (String.prefix sep (String c s)); simpl.
    + split; congruence.
    + rewrite <- IH. destruct (partition sep s) as [[a b]|]; split; congruence.
Qed.

(** With a one-character separator the cut is [before] and [after]. *)
Lemma partition_char (c : ascii) (s : string) :
  partition (String c "") s =
  if contains (String c "") s then Some (before c s, after c s) else None.
Proof.
  induction s as [|x s IH]; [reflexivity|].
  rewrite partition_eq, contains_eq, prefix_cons, prefix_nil_l, andb_true_r.
  simpl before. simpl after. rewrite (Ascii.eqb_sym x c).
  destruct (Ascii.eqb c x); [reflexivity|]. simpl orb.
  rewrite IH. now destruct (contains (String c "") s).
Qed.

Lemma before_free (c : ascii) (s : string) :
  contains (String c "") (before c s) = false.
Proof.
  induction s as [|x s IH]; [reflexivity|]. simpl before.
  destruct (Ascii.eqb x c) eqn:E; [reflexivity|].
  now rewrite contains_eq, prefix_cons, Ascii.eqb_sym, E.
Qed.

Lemma before_after (c : ascii) (s : string) :
  contains (String c "") s = true -> s = before c s ++ String c (after c s).
Proof.
  induction s as [|x s IH]; [discriminate|].
  rewrite contains_eq, prefix_cons, prefix_nil_l, andb_true_r. simpl before. simpl after.
  rewrite (Ascii.eqb_sym x c). destruct (Ascii.eqb c x) eqn:E.
  - apply Ascii.eqb_eq in E. now subst.
  - simpl. intros H. now rewrite <- IH.
Qed.

Lemma split_second (sep s : string) :
  sep <> "" -> nth_error (split sep s) 1 = second_piece sep s.
Proof.
  intros Hsep. unfold split, second_piece.
  destruct s as [|c s].
  { simpl. now destruct sep. }
  simpl String.length. cbn [split_fuel].
  destruct (partition sep (String c s)) as [[a b]|] eqn:P; [|reflexivity].
  cbn [nth_error]. destruct (String.length s) as [|n] eqn:L.
  - apply partition_some in P. apply (f_equal String.length) in P.
    rewrite !string_length_app in P. simpl in P. rewrite L in P.
    destruct sep as [|x sep]; [congruence|]. simpl in P.
    destruct b; [|simpl in P; lia].
    reflexivity.
  - simpl. now destruct (partition sep b) as [[u v]|].
Qed.

(** [entry.split(",")[0]] never fails and is the text before the first comma. *)
Lemma split_comma_first (entry : string) :
  nth_error (split "," entry) 0 = Some (reference entry).
Proof.
  unfold split, reference. destruct entry as [|c s]; [reflexivity|].
  simpl String.length. cbn [split_fuel]. rewrite partition_char.
  destruct (contains "," (String c s)) eqn:C; [reflexivity|].
  simpl nth_error. f_equal.
  clear -C. revert C. generalize (String c s). intros e.
  induction e as [|x e IH]; [reflexivity|].
  rewrite contains_eq, prefix_cons, prefix_nil_l, andb_true_r. simpl before.
  rewrite (Ascii.eqb_sym x). destruct (Ascii.eqb "," x); [discriminate|].
  simpl. intros H. now rewrite <- IH.
Qed.

(** [strip] takes whitespace, and nothing else, off both ends. *)
Lemma lstrip_spec (s : string) :
  exists ws, s = ws ++ lstrip s /\ all_space ws = true /\
             starts_with_space (lstrip s) = false.
Proof.
  induction s as [|c s (ws & E & Hw & Hs)].
  - exists "". repeat split.
  - simpl lstrip. destruct (isspace c) eqn:C.
    + exists (String c ws). simpl. rewrite C, Hw, <- E. repeat split. exact Hs.
    + exists "". simpl. rewrite C. repeat split.
Qed.

Lemma rstrip_spec (s : string) :
  exists ws, s = rstrip s ++ ws /\ all_space ws = true /\
             ends_with_space (rstrip s) = false /\
             (starts_with_space s = false -> starts_with_space (rstrip s) = false).
Proof.
  induction s as [|c s (ws & E & Hw & He & _)].
  - exists "". repeat split.
  - simpl rstrip. destruct (rstrip s) as [|x r] eqn:R.
    + simpl in E. subst ws. destruct (isspace c) eqn:C.
      * exists (String c s). split; [reflexivity|]. split; [simpl; now rewrite C, Hw|].
        split; [reflexivity|]. simpl. congruence.
      * exists s. split; [reflexivity|]. split; [exact Hw|].
        split; [simpl; exact C | simpl; auto].
    + exists ws. split; [simpl; f_equal; exact E|]. split; [exact Hw|].
      split; [exact He | simpl; auto].
Qed.

Lemma strip_spec (s : string) :
  exists l r, s = l ++ strip s ++ r /\ all_space l = true /\ all_space r = true /\
              starts_with_space (strip s) = false /\ ends_with_space (strip s) = false.
Proof.
  destruct (lstrip_spec s) as (l & El & Hl & Hs).
  destruct (rstrip_spec (lstrip s)) as (r & Er & Hr & He & Hk).
  exists l, r. unfold strip. split; [rewrite <- Er; exact El|].
  split; [exact Hl|]. split; [exact Hr|]. split; [exact (Hk Hs) | exact He].
Qed.

End StringFacts.

(** ** Dictionaries *)

Section DictFacts.
Context {V : Type}.

Lemma get_set (d : Dict.t V) (k x : string) (v : V) :
  Dict.get (Dict.set d k v) x = if String.eqb k x then Some v else Dict.get d x.
Proof.
  induction d as [|[k' v'] d IH]; simpl.
  - reflexivity.
  - destruct (String.eqb k' k) eqn:E; simpl.
    + apply String.eqb_eq in E. subst k'. now destruct (String.eqb k x).
    + rewrite IH. destruct (String.eqb k' x) eqn:E'; [|reflexivity].
      apply String.eqb_eq in E'. subst k'. now rewrite String.eqb_sym, E.
Qed.

Lemma get_set_same (d : Dict.t V) (k : string) (v : V) :
  Dict.get (Dict.set d k v) k = Some v.
Proof. now rewrite get_set, String.eqb_refl. Qed.

Lemma get_set_other (d : Dict.t V) (k x : string) (v : V) :
  k <> x -> Dict.get (Dict.set d k v) x = Dict.get d x.
Proof. intros H. apply String.eqb_neq in H. now rewrite get_set, H. Qed.

Lemma get_app (a b : Dict.t V) (k : string) :
  Dict.get (a ++ b)%list k =
  match Dict.get a k with
  | Some v => Some v
  | None => Dict.get b k
  end.
Proof.
  induction a as [|[k' v'] a IH]; simpl; [reflexivity|].
  now destruct (String.eqb k' k).
Qed.

Lemma get_remove (pre post : Dict.t V) (k x : string) (v : V) :
  k <> x -> Dict.get (pre ++ (k, v) :: post)%list x = Dict.get (pre ++ post)%list x.
Proof.
  intros H. apply String.eqb_neq in H. rewrite !get_app. simpl. now rewrite H.
Qed.

Lemma set_keys (d : Dict.t V) (k : string) (v : V) :
  map fst (Dict.set d k v) =
  if Dict.mem d k then map fst d else (map fst d ++ [k])%list.
Proof.
  unfold Dict.mem. induction d as [|[k' v'] d IH]; simpl; [reflexivity|].
  destruct (String.eqb k' k); simpl; [reflexivity|].
  rewrite IH. now destruct (Dict.get d k).
Qed.

Lemma get_none_not_in (d : Dict.t V) (k : string) :
  Dict.get d k = None -> ~ In k (map fst d).
Proof.
  induction d as [|[k' v'] d IH]; simpl; [tauto|].
  destruct (String.eqb k' k) eqn:E; [discriminate|].
  apply String.eqb_neq in E. intros H [F|F]; [congruence | now apply IH].
Qed.

(** Assignments keep the keys of a dictionary distinct. *)
Lemma set_nodup (d : Dict.t V) (k : string) (v : V) :
  NoDup (map fst d) -> NoDup (map fst (Dict.set d k v)).
Proof.
  intros H. rewrite set_keys. unfold Dict.mem.
  destruct (Dict.get d k) eqn:G; [exact H|].
  apply get_none_not_in in G.
  apply NoDup_app; [exact H | repeat constructor; simpl; tauto |].
  intros x Hx [<-|[]]. contradiction.
Qed.

End DictFacts.

(** ** Destination keys *)

Section KeyFacts.
Import PyStr Prox2vmx Spec.

Lemma free_cons (c x : ascii) (s : string) :
  free_of c (String x s) <-> Ascii.eqb c x = false /\ free_of c s.
Proof.
  unfold free_of. rewrite contains_eq, prefix_cons, prefix_nil_l, andb_true_r.
  rewrite orb_false_iff. tauto.
Qed.

(** Two texts cut at the first occurrence of a character agree part by part. *)
Lemma cut_unique (c : ascii) (x y a b : string) :
  free_of c x -> free_of c y ->
  x ++ String c a = y ++ String c b -> x = y /\ a = b.
Proof.
  revert y. induction x as [|u x IH]; intros [|w y] Hx Hy; simpl; intros E.
  - injection E as ->. auto.
  - injection E as -> _. apply free_cons in Hy as [Hy _].
    now rewrite Ascii.eqb_refl in Hy.
  - injection E as -> _. apply free_cons in Hx as [Hx _].
    now rewrite Ascii.eqb_refl in Hx.
  - injection E as -> E. apply free_cons in Hx as [_ Hx]. apply free_cons in Hy as [_ Hy].
    destruct (IH y Hx Hy E) as [-> ->]. auto.
Qed.

Lemma uint_free_dot (d : uint) : free_of "." (NilEmpty.string_of_uint d).
Proof.
  induction d; simpl; try reflexivity; apply free_cons; split; auto.
Qed.

Lemma str_of_nat_inj (n m : nat) : str_of_nat n = str_of_nat m -> n = m.
Proof.
  unfold str_of_nat. intros H. apply DecimalNat.Unsigned.to_uint_inj.
  apply (f_equal NilEmpty.uint_of_string) in H. rewrite !NilEmpty.usu in H.
  congruence.
Qed.

Lemma str_of_N_inj (n m : N) : str_of_N n = str_of_N m -> n = m.
Proof.
  unfold str_of_N. intros H. apply DecimalN.Unsigned.to_uint_inj.
  apply (f_equal NilEmpty.uint_of_string) in H. rewrite !NilEmpty.usu in H.
  congruence.
Qed.

Lemma slot_key_inj (d d' : dev) (n m : nat) (a b : string) :
  slot_key d n a = slot_key d' m b -> d = d' /\ n = m /\ a = b.
Proof.
  unfold slot_key, str_of_nat. intros H.
  assert (d = d') as <- by (destruct d, d'; simpl in H; congruence).
  apply append_inv_head in H. simpl in H. injection H as H.
  apply cut_unique in H as [H ->]; try apply uint_free_dot.
  repeat split. now apply str_of_nat_inj.
Qed.

Lemma eth_key_inj (n m : N) (a b : string) :
  eth_key n a = eth_key m b -> n = m /\ a = b.
Proof.
  unfold eth_key. intros H. simpl in H. injection H as H.
  apply cut_unique in H as [H ->]; try apply uint_free_dot.
  split; [now apply str_of_N_inj | reflexivity].
Qed.

Lemma loop_key_dev (d : dev) (r : string) : loop_key (dev_name d ++ r) = true.
Proof. unfold loop_key. destruct d; simpl; now rewrite ?prefix_nil_l. Qed.

Lemma loop_key_slot (d : dev) (n : nat) (a : string) : loop_key (slot_key d n a) = true.
Proof. apply loop_key_dev. Qed.

Lemma loop_key_eth (n : N) (a : string) : loop_key (eth_key n a) = true.
Proof. unfold loop_key, eth_key. simpl. apply prefix_nil_l. Qed.

Lemma slot_key_not_dev (d d' : dev) (n : nat) (a r : string) :
  String.prefix "." r = true -> slot_key d n a <> dev_name d' ++ r.
Proof.
  intros Hr. apply prefix_inv in Hr. rewrite Hr. unfold slot_key.
  destruct d, d'; simpl; congruence.
Qed.

Lemma slot_key_not_eth (d : dev) (n : nat) (a : string) (m : N) (b : string) :
  slot_key d n a <> eth_key m b.
Proof. unfold slot_key, eth_key. destruct d; simpl; congruence. Qed.

Lemma eth_key_not_dev (m : N) (b : string) (d : dev) (r : string) :
  eth_key m b <> dev_name d ++ r.
Proof. unfold eth_key. destruct d; simpl; congruence. Qed.

End KeyFacts.

(** ** The number of a network key *)

Section NumberFacts.
Import PyStr Re Prox2vmx Spec.

Lemma char_classes (c : ascii) :
  isdigit c = isdecimal c || superscript c /\
  (isdecimal c = true -> superscript c = false) /\
  (forall d, uint_of_char c (Some d) = None <-> isdecimal c = false).
Proof.
  destruct c as [[|] [|] [|] [|] [|] [|] [|] [|]];
    (split; [vm_compute; reflexivity|]);
    (split; [vm_compute; congruence|]);
    intros d; vm_compute; split; congruence.
Qed.

Lemma uint_of_string_none (s : string) :
  NilEmpty.uint_of_string s = None <-> all_decimal s = false.
Proof.
  induction s as [|c s IH]; simpl.
  - split; discriminate.
  - destruct (NilEmpty.uint_of_string s) as [d|].
    + rewrite (proj2 (proj2 (char_classes c)) d).
      destruct (all_decimal s); [|destruct IH as [_ IH]; now discriminate IH].
      now rewrite andb_true_r.
    + simpl. rewrite (proj1 IH eq_refl), andb_false_r. tauto.
Qed.

Lemma all_decimal_digits (s : string) :
  all_decimal (digits_of s) = negb (has_superscript s).
Proof.
  induction s as [|c s IH]; [reflexivity|]. simpl.
  destruct (char_classes c) as (Hd & Hs & _). rewrite Hd.
  destruct (isdecimal c) eqn:D.
  - simpl. rewrite D, IH, (Hs eq_refl). reflexivity.
  - simpl. destruct (superscript c); simpl; [now rewrite D | exact IH].
Qed.

Lemma digits_length (s : string) : String.length (digits_of s) = count_digits s.
Proof.
  induction s as [|c s IH]; [reflexivity|]. cbn [digits_of count_digits].
  rewrite (proj1 (char_classes c)).
  destruct (isdecimal c || superscript c); simpl; now rewrite IH.
Qed.

Lemma net_key_has_digit (key : string) :
  match_net_key key = true -> digits_of key <> "".
Proof.
  unfold match_net_key, prefix_digit. intros H. apply andb_prop in H as [Hp Hd].
  apply prefix_inv in Hp. rewrite Hp. simpl String.length in *.
  destruct (drop 3 key) as [|c r]; [discriminate|].
  change (digits_of ("net" ++ String c r)) with (digits_of (String c r)).
  simpl. rewrite (proj1 (char_classes c)), Hd. discriminate.
Qed.

(** [int] rejects the digits of a network key exactly when one of them is a
    superscript digit or they are more than the limit. *)
Lemma nic_id_none (key : string) :
  match_net_key key = true ->
  (nic_id_of key = None <-> readable_id key = false).
Proof.
  intros Hk. pose proof (net_key_has_digit key Hk) as Hne.
  unfold nic_id_of, int, readable_id, int_max_str_digits.
  rewrite <- all_decimal_digits, <- digits_length.
  remember (String.length (digits_of key)) as len eqn:Hlen. clear Hlen.
  destruct (digits_of key) as [|c r] eqn:D; [congruence|].
  destruct (NilEmpty.uint_of_string (String c r)) as [d|] eqn:U.
  - destruct (all_decimal (String c r)) eqn:A.
    2:{ apply uint_of_string_none in A. congruence. }
    cbn [negb andb].
    destruct (Nat.ltb_spec 4300 len), (Nat.leb_spec len 4300);
      split; intros; try reflexivity; try discriminate; lia.
  - apply uint_of_string_none in U. rewrite U. cbn [andb]. tauto.
Qed.

Lemma net_ids_ok_cons (key entry : string) (items : list (string * string)) :
  net_ids_ok ((key, entry) :: items) = true <->
  (match_net_key key = true -> nic_id_of key <> None) /\ net_ids_ok items = true.
Proof.
  unfold net_ids_ok. cbn [forallb fst]. rewrite andb_true_iff.
  destruct (match_net_key key) eqn:Hk.
  - pose proof (nic_id_none key Hk) as Hn.
    destruct (readable_id key), (nic_id_of key) as [n|].
    + split; intros [_ H2]; split; try exact H2; [intros _; discriminate | reflexivity].
    + discriminate (proj1 Hn eq_refl).
    + discriminate (proj2 Hn eq_refl).
    + split; intros [H1 H2]; [discriminate H1 | now elim (H1 eq_refl)].
  - split; intros [H1 H2]; split; try exact H2; [discriminate | reflexivity].
Qed.

End NumberFacts.

(** ** The fields taken from a network entry *)

Section SearchFacts.
Import PyStr Re Prox2vmx Spec.

Lemma take_field_spec (s : string) :
  exists tail, s = take_field s ++ tail /\ free_of "," (take_field s) /\
               (tail = "" \/ String.prefix "," tail = true).
Proof.
  induction s as [|c s (tail & E & Hf & Ht)].
  - exists "". repeat split. now left.
  - simpl take_field. destruct (Ascii.eqb c ",") eqn:C.
    + apply Ascii.eqb_eq in C. subst c. exists (String "," s).
      split; [reflexivity|]. split; [reflexivity|]. right.
      now rewrite prefix_cons, prefix_nil_l.
    + exists tail. split; [simpl; now rewrite <- E|]. split; [|exact Ht].
      apply free_cons. split; [now rewrite Ascii.eqb_sym | exact Hf].
Qed.

Lemma match_here_some (name s v : string) :
  match_here name s = Some v ->
  v <> "" /\ free_of "," v /\
  exists tail, s = name ++ "=" ++ v ++ tail /\ (tail = "" \/ String.prefix "," tail = true).
Proof.
  unfold match_here. destruct (String.prefix (name ++ "=") s) eqn:P; [|discriminate].
  apply prefix_inv in P. rewrite string_length_app, append_assoc in P.
  simpl String.length in P.
  destruct (take_field_spec (drop (String.length name + 1) s)) as (tail & E & Hf & Ht).
  destruct (take_field (drop (String.length name + 1) s)) as [|c r] eqn:T; [discriminate|].
  intros [= <-]. split; [discriminate|]. split; [exact Hf|].
  exists tail. split; [|exact Ht]. rewrite P at 1. now rewrite E at 1.
Qed.

Lemma match_here_none (name c rest : string) (x : ascii) :
  match_here name (name ++ "=" ++ String x rest) = None -> x = ","%char.
Proof.
  unfold match_here. rewrite <- append_assoc, prefix_app.
  replace (String.length name + 1) with (String.length (name ++ "="))
    by (rewrite string_length_app; reflexivity).
  rewrite drop_app. simpl take_field.
  destruct (Ascii.eqb x ",") eqn:C; [|discriminate].
  intros _. now apply Ascii.eqb_eq.
Qed.

Lemma first_alt_some (names : list string) (s v : string) :
  first_alt names s = Some v -> exists name, In name names /\ match_here name s = Some v.
Proof.
  induction names as [|n names IH]; simpl; [discriminate|].
  destruct (match_here n s) as [w|] eqn:M.
  - intros [= ->]. eauto.
  - intros H. destruct (IH H) as (name & Hin & Hm). eauto.
Qed.

Lemma first_alt_none (names : list string) (s name : string) :
  first_alt names s = None -> In name names -> match_here name s = None.
Proof.
  induction names as [|n names IH]; simpl; [tauto|].
  destruct (match_here n s) as [w|] eqn:M; [discriminate|].
  intros H [<-|Hin]; auto.
Qed.

Lemma search_kv_eq (names : list string) (s : string) :
  search_kv names s =
  match first_alt names s with
  | Some v => Some v
  | None => match s with
            | "" => None
            | String _ s' => search_kv names s'
            end
  end.
Proof. destruct s; reflexivity. Qed.

Lemma take_field_app (v tail : string) :
  contains "," v = false -> (tail = "" \/ String.prefix "," tail = true) ->
  take_field (v ++ tail) = v.
Proof.
  intros Hv Ht. induction v as [|c v IH].
  - destruct Ht as [->|Ht]; [reflexivity|].
    destruct tail as [|x tail]; [reflexivity|].
    rewrite prefix_cons in Ht. apply andb_prop in Ht as [Ht _].
    simpl. now rewrite Ascii.eqb_sym, Ht.
  - apply (free_cons "," c v) in Hv as [Hc Hv].
    simpl. rewrite Ascii.eqb_sym, Hc. now rewrite IH.
Qed.

Lemma match_here_complete (name v tail : string) :
  v <> "" -> contains "," v = false -> (tail = "" \/ String.prefix "," tail = true) ->
  match_here name (name ++ "=" ++ v ++ tail) = Some v.
Proof.
  intros Hne Hv Ht. unfold match_here. rewrite <- append_assoc, prefix_app.
  replace (String.length name + 1) with (String.length (name ++ "="))
    by (rewrite string_length_app; reflexivity).
  rewrite drop_app, take_field_app by assumption.
  destruct v; [contradiction | reflexivity].
Qed.

Lemma first_alt_complete (names : list string) (s name v : string) :
  In name names -> match_here name s = Some v -> first_alt names s <> None.
Proof.
  induction names as [|n names IH]; simpl; [tauto|].
  intros [->|Hin] Hm.
  - now rewrite Hm.
  - destruct (match_here n s); [discriminate | now apply IH].
Qed.

(** A field right at the start is what the alternatives find there. *)
Lemma first_alt_field (names : list string) (s v : string) :
  first_alt names s = Some v -> field_at names s "" v.
Proof.
  intros F. apply first_alt_some in F as (name & Hin & Hm).
  apply match_here_some in Hm as (Hv & Hf & tail & E & Ht).
  split; [exact Hv|]. split; [exact Hf|]. exists name, tail. auto.
Qed.

Lemma field_at_start (names : list string) (s v : string) :
  field_at names s "" v -> first_alt names s <> None.
Proof.
  intros (Hv & Hf & name & tail & Hin & E & Ht). simpl in E. subst s.
  apply (first_alt_complete names _ name v Hin). now apply match_here_complete.
Qed.

Lemma field_at_cons (names : list string) (c y : ascii) (s front v : string) :
  field_at names (String c s) (String y front) v <-> y = c /\ field_at names s front v.
Proof.
  unfold field_at. split.
  - intros (Hv & Hf & name & tail & Hin & E & Ht). simpl in E. injection E as -> ->.
    split; [reflexivity|]. split; [exact Hv|]. split; [exact Hf|]. exists name, tail. auto.
  - intros (-> & Hv & Hf & name & tail & Hin & E & Ht).
    split; [exact Hv|]. split; [exact Hf|]. exists name, tail.
    split; [exact Hin|]. split; [simpl; now rewrite E | exact Ht].
Qed.

(** The search returns the value of the leftmost field, and nothing when
    there is no field. *)
Lemma search_kv_first (names : list string) (s : string) :
  match search_kv names s with
  | Some v => first_field names s v
  | None => no_field names s
  end.
Proof.
  induction s as [|c s IH]; rewrite search_kv_eq.
  - destruct (first_alt names "") as [v|] eqn:F.
    + exists "". split; [now apply first_alt_field|]. intros; simpl; lia.
    + intros [|y front] value Hf.
      * apply field_at_start in Hf. congruence.
      * destruct Hf as (_ & _ & name & tail & _ & E & _). discriminate E.
  - destruct (first_alt names (String c s)) as [v|] eqn:F.
    + exists "". split; [now apply first_alt_field|]. intros; simpl; lia.
    + destruct (search_kv names s) as [v|].
      * destruct IH as (front & Hf & Hmin). exists (String c front). split.
        -- apply field_at_cons. auto.
        -- intros [|y front'] value' Hf'.
           ++ apply field_at_start in Hf'. congruence.
           ++ apply field_at_cons in Hf' as [_ Hf']. apply Hmin in Hf'. simpl. lia.
      * intros [|y front] value Hf.
        -- apply field_at_start in Hf. congruence.
        -- apply field_at_cons in Hf as [_ Hf]. exact (IH front value Hf).
Qed.

Lemma field_value_unique (v1 v2 t1 t2 : string) :
  contains "," v1 = false -> contains "," v2 = false ->
  (t1 = "" \/ String.prefix "," t1 = true) -> (t2 = "" \/ String.prefix "," t2 = true) ->
  v1 ++ t1 = v2 ++ t2 -> v1 = v2.
Proof.
  intros F1 F2 T1 T2 E.
  rewrite <- (take_field_app v1 t1), <- (take_field_app v2 t2) by assumption.
  now rewrite E.
Qed.

(** At one place stands at most one field of an interface model. *)
Lemma model_field_unique (s front v1 v2 : string) :
  field_at model_names s front v1 -> field_at model_names s front v2 -> v1 = v2.
Proof.
  intros (N1 & F1 & n1 & t1 & I1 & E1 & T1) (N2 & F2 & n2 & t2 & I2 & E2 & T2).
  rewrite E1 in E2. apply append_inv_head in E2.
  apply (field_value_unique v1 v2 t1 t2 F1 F2 T1 T2).
  unfold model_names in I1, I2. simpl in I1, I2.
  destruct I1 as [<-|[<-|[<-|[<-|[<-|[]]]]]];
    destruct I2 as [<-|[<-|[<-|[<-|[<-|[]]]]]];
    simpl in E2; first [discriminate E2 | now injection E2].
Qed.

Lemma same_length_prefix (a b x y : string) :
  String.length a = String.length b -> a ++ x = b ++ y -> a = b.
Proof.
  revert b. induction a as [|c a IH]; intros [|d b] L E; try discriminate L.
  - reflexivity.
  - simpl in *. injection E as -> E. f_equal. apply IH; [lia | exact E].
Qed.

Lemma first_field_unique (s v1 v2 : string) :
  first_field model_names s v1 -> first_field model_names s v2 -> v1 = v2.
Proof.
  intros (f1 & H1 & M1) (f2 & H2 & M2).
  pose proof (M1 _ _ H2) as L1. pose proof (M2 _ _ H1) as L2.
  assert (f1 = f2) as <-.
  { destruct H1 as (_ & _ & n1 & t1 & _ & E1 & _), H2 as (_ & _ & n2 & t2 & _ & E2 & _).
    rewrite E1 in E2. eapply same_length_prefix; [|exact E2]. lia. }
  exact (model_field_unique _ _ _ _ H1 H2).
Qed.

(** The address taken from an entry: the value of its leftmost model field,
    the empty string when it has none. *)
Lemma mac_of_rule (e : string) :
  (forall mac, first_field model_names e mac -> mac_of e = mac) /\
  (no_field model_names e -> mac_of e = "") /\
  ((exists mac, first_field model_names e mac) \/ no_field model_names e).
Proof.
  unfold mac_of. pose proof (search_kv_first nic_models e) as H.
  change nic_models with model_names in *.
  destruct (search_kv model_names e) as [v|].
  - split; [|split].
    + intros mac Hm. exact (first_field_unique _ _ _ H Hm).
    + intros Hn. destruct H as (front & Hf & _). now elim (Hn front v).
    + left. now exists v.
  - split; [|split].
    + intros mac (front & Hf & _). now elim (H front mac).
    + reflexivity.
    + now right.
Qed.

End SearchFacts.

(** ** One iteration of the loop *)

Section LoopBody.
Import PyStr Re Prox2vmx Spec.

Lemma net_not_disk (key : string) :
  match_net_key key = true -> match_disk_key key = false.
Proof.
  unfold match_net_key, match_disk_key, prefix_digit.
  intros H. apply andb_prop in H as [H _]. apply prefix_inv in H.
  rewrite H. reflexivity.
Qed.

Lemma disk_not_net (key : string) :
  match_disk_key key = true -> match_net_key key = false.
Proof.
  intros H. destruct (match_net_key key) eqn:E; [|reflexivity].
  apply net_not_disk in E. congruence.
Qed.

Lemma bind_some {A : Type} (m : option A) : bind m (fun a => Some a) = m.
Proof. now destruct m. Qed.

Lemma disk_block_eq (vm_name key entry : string) (st : state) :
  disk_block vm_name key entry st = Some (disk_state vm_name key entry st).
Proof.
  unfold disk_block, disk_state. rewrite split_comma_first. simpl bind.
  now destruct (convertible entry); rewrite ?app_nil_r.
Qed.

Lemma net_block_eq (pm : bool) (key entry : string) (st : state) :
  net_block pm key entry st =
  match nic_id_of key with
  | Some n => Some (net_state pm n entry st)
  | None => None
  end.
Proof. unfold net_block. now destruct (nic_id_of key). Qed.

(** An empty CD-ROM drive leaves the state as it is. *)
Lemma loop_body_cdrom (pm : bool) (vm_name key entry : string) (st : state) :
  match_disk_key key = true -> startswith entry cdrom_marker = true ->
  loop_body pm vm_name (key, entry) st = Some st.
Proof. intros Hk He. unfold loop_body. now rewrite Hk, He. Qed.

Lemma loop_body_disk (pm : bool) (vm_name key entry : string) (st : state) :
  is_disk (key, entry) = true ->
  loop_body pm vm_name (key, entry) st = Some (disk_state vm_name key entry st).
Proof.
  unfold is_disk. simpl. intros H. apply andb_prop in H as [Hk He].
  apply negb_true_iff in He. unfold loop_body.
  rewrite Hk, He, (disk_not_net _ Hk), disk_block_eq. reflexivity.
Qed.

Lemma loop_body_net (pm : bool) (vm_name key entry : string) (st : state) :
  match_net_key key = true ->
  loop_body pm vm_name (key, entry) st =
  match nic_id_of key with
  | Some n => Some (net_state pm n entry st)
  | None => None
  end.
Proof.
  intros Hk. unfold loop_body. rewrite (net_not_disk _ Hk), Hk. simpl.
  apply net_block_eq.
Qed.

Lemma loop_body_other (pm : bool) (vm_name key entry : string) (st : state) :
  match_disk_key key = false -> match_net_key key = false ->
  loop_body pm vm_name (key, entry) st = Some st.
Proof. intros Hd Hn. unfold loop_body. now rewrite Hd, Hn. Qed.

(** The three ways an iteration can end. *)
Lemma loop_body_inv (pm : bool) (vm_name key entry : string) (st st' : state) :
  loop_body pm vm_name (key, entry) st = Some st' ->
  (is_disk (key, entry) = false /\ match_net_key key = false /\ st' = st) \/
  (is_disk (key, entry) = true /\ match_net_key key = false /\
   st' = disk_state vm_name key entry st) \/
  (is_disk (key, entry) = false /\ match_net_key key = true /\
   exists n, nic_id_of key = Some n /\ st' = net_state pm n entry st).
Proof.
  intros H. destruct (match_disk_key key) eqn:Hd.
  - pose proof (disk_not_net _ Hd) as Hn.
    destruct (startswith entry cdrom_marker) eqn:He.
    + rewrite loop_body_cdrom in H by assumption. injection H as <-.
      left. unfold is_disk. simpl. now rewrite Hd, He.
    + assert (is_disk (key, entry) = true) as Hi
        by (unfold is_disk; simpl; now rewrite Hd, He).
      rewrite loop_body_disk in H by assumption. injection H as <-.
      right. left. auto.
  - assert (is_disk (key, entry) = false) as Hi
      by (unfold is_disk; simpl; now rewrite Hd).
    destruct (match_net_key key) eqn:Hn.
    + rewrite loop_body_net in H by assumption.
      destruct (nic_id_of key) as [n|] eqn:Hid; [|discriminate].
      injection H as <-. right. right. eauto.
    + rewrite loop_body_other in H by assumption. injection H as <-. auto.
Qed.

Lemma run_loop_app (pm : bool) (vm_name : string) (a b : list (string * string)) (st : state) :
  run_loop pm vm_name (a ++ b) st =
  bind (run_loop pm vm_name a st) (run_loop pm vm_name b).
Proof.
  revert st. induction a as [|item a IH]; intros st; simpl; [reflexivity|].
  destruct (loop_body pm vm_name item st); simpl; auto.
Qed.

Lemma run_loop_cons_inv (pm : bool) (vm_name : string) (item : string * string)
    (rest : list (string * string)) (st st' : state) :
  run_loop pm vm_name (item :: rest) st = Some st' ->
  exists st1, loop_body pm vm_name item st = Some st1 /\
              run_loop pm vm_name rest st1 = Some st'.
Proof.
  simpl. destruct (loop_body pm vm_name item st) as [st1|]; [|discriminate].
  simpl. eauto.
Qed.

End LoopBody.

(** ** The whole loop *)

Section Loop.
Import PyStr Re Prox2vmx Spec.

Variable pm : bool.
Variable vm_name : string.

Lemma disk_id_get_incr (c : counters) (d' d : dev) :
  disk_id_get (disk_id_incr c d') d =
  disk_id_get c d + (if dev_eqb d' d then 1 else 0).
Proof. destruct d', d; simpl; lia. Qed.

Lemma dev_eqb_eq (a b : dev) : dev_eqb a b = true <-> a = b.
Proof. destruct a, b; simpl; split; congruence. Qed.

(** *** The counters *)

Lemma loop_body_counter (item : string * string) (st st' : state) (d : dev) :
  loop_body pm vm_name item st = Some st' ->
  disk_id_get (disk_id st') d =
  disk_id_get (disk_id st) d + (if counted d item then 1 else 0).
Proof.
  destruct item as [key entry]. intros H. unfold counted.
  apply loop_body_inv in H as [(Hi & _ & ->)|[(Hi & _ & ->)|(Hi & _ & n & _ & ->)]];
    rewrite Hi; simpl; try lia.
  apply disk_id_get_incr.
Qed.

Lemma slot_cons (d : dev) (item : string * string) (items : list (string * string)) :
  slot d (item :: items) = (if counted d item then 1 else 0) + slot d items.
Proof. unfold slot. simpl. now destruct (counted d item). Qed.

Lemma slot_app (d : dev) (a b : list (string * string)) :
  slot d (a ++ b) = slot d a + slot d b.
Proof. unfold slot. now rewrite filter_app, List.length_app. Qed.

Lemma run_loop_counter (items : list (string * string)) (st st' : state) (d : dev) :
  run_loop pm vm_name items st = Some st' ->
  disk_id_get (disk_id st') d = disk_id_get (disk_id st) d + slot d items.
Proof.
  revert st. induction items as [|item items IH]; intros st H.
  - injection H as <-. unfold slot. simpl. lia.
  - apply run_loop_cons_inv in H as (st1 & H1 & H2).
    rewrite (IH _ H2), (loop_body_counter _ _ _ d H1), slot_cons. lia.
Qed.

(** *** Keys the loop leaves alone *)

Lemma loop_key_neq (k x : string) : loop_key k = true -> loop_key x = false -> k <> x.
Proof. intros Hk Hx ->. congruence. Qed.

Lemma loop_body_frame (item : string * string) (st st' : state) (x : string) :
  loop_key x = false ->
  loop_body pm vm_name item st = Some st' ->
  Dict.get (vmx_cfg st') x = Dict.get (vmx_cfg st) x.
Proof.
  destruct item as [key entry]. intros Hx H.
  apply loop_body_inv in H as [(_ & _ & ->)|[(_ & _ & ->)|(_ & _ & n & _ & ->)]].
  - reflexivity.
  - unfold disk_state. cbn [vmx_cfg].
    rewrite !get_set_other
      by (apply loop_key_neq; [apply loop_key_slot || apply loop_key_dev | exact Hx]).
    destruct (match_scsi_key key); [|reflexivity].
    apply get_set_other, loop_key_neq; [reflexivity | exact Hx].
  - unfold net_state. cbn [vmx_cfg].
    destruct pm;
      now rewrite !get_set_other by (apply loop_key_neq; [apply loop_key_eth | exact Hx]).
Qed.

Lemma run_loop_frame (items : list (string * string)) (st st' : state) (x : string) :
  loop_key x = false ->
  run_loop pm vm_name items st = Some st' ->
  Dict.get (vmx_cfg st') x = Dict.get (vmx_cfg st) x.
Proof.
  intros Hx. revert st. induction items as [|item items IH]; intros st H.
  - now injection H as <-.
  - apply run_loop_cons_inv in H as (st1 & H1 & H2).
    rewrite (IH _ H2). now apply loop_body_frame with item.
Qed.

(** *** Slots already handed out are not written again *)

Lemma loop_body_slot_frame (item : string * string) (st st' : state)
    (d : dev) (n : nat) (a : string) :
  n < disk_id_get (disk_id st) d ->
  loop_body pm vm_name item st = Some st' ->
  Dict.get (vmx_cfg st') (slot_key d n a) = Dict.get (vmx_cfg st) (slot_key d n a).
Proof.
  destruct item as [key entry]. intros Hn H.
  apply loop_body_inv in H as [(_ & _ & ->)|[(_ & _ & ->)|(_ & _ & m & _ & ->)]].
  - reflexivity.
  - unfold disk_state. cbn [vmx_cfg].
    assert (forall b, slot_key (family key) (disk_id_get (disk_id st) (family key)) b
                      <> slot_key d n a) as Hs.
    { intros b E. apply slot_key_inj in E as (<- & E & _). lia. }
    rewrite !get_set_other by apply Hs.
    rewrite get_set_other by (apply not_eq_sym, slot_key_not_dev; reflexivity).
    destruct (match_scsi_key key); [|reflexivity].
    apply get_set_other, not_eq_sym, (slot_key_not_dev d scsi0 n a ".virtualDev").
    reflexivity.
  - unfold net_state. cbn [vmx_cfg].
    destruct pm; now rewrite !get_set_other by apply not_eq_sym, slot_key_not_eth.
Qed.

Lemma run_loop_slot_frame (items : list (string * string)) (st st' : state)
    (d : dev) (n : nat) (a : string) :
  n < disk_id_get (disk_id st) d ->
  run_loop pm vm_name items st = Some st' ->
  Dict.get (vmx_cfg st') (slot_key d n a) = Dict.get (vmx_cfg st) (slot_key d n a).
Proof.
  revert st. induction items as [|item items IH]; intros st Hn H.
  - now injection H as <-.
  - apply run_loop_cons_inv in H as (st1 & H1 & H2).
    rewrite (IH st1); [now apply loop_body_slot_frame with item | | exact H2].
    rewrite (loop_body_counter _ _ _ d H1). lia.
Qed.

(** *** Interfaces not named again keep their keys *)

Lemma loop_body_eth_frame (item : string * string) (st st' : state) (n : N) (a : string) :
  same_nic n item = false ->
  loop_body pm vm_name item st = Some st' ->
  Dict.get (vmx_cfg st') (eth_key n a) = Dict.get (vmx_cfg st) (eth_key n a).
Proof.
  destruct item as [key entry]. intros Hs H.
  apply loop_body_inv in H as [(_ & _ & ->)|[(_ & _ & ->)|(_ & Hk & m & Hm & ->)]].
  - reflexivity.
  - unfold disk_state. cbn [vmx_cfg].
    rewrite !get_set_other by apply slot_key_not_eth.
    rewrite get_set_other by apply not_eq_sym, eth_key_not_dev.
    destruct (match_scsi_key key); [|reflexivity].
    apply get_set_other, not_eq_sym, (eth_key_not_dev n a scsi0 ".virtualDev").
  - unfold same_nic in Hs. simpl in Hs. rewrite Hk, Hm in Hs. simpl in Hs.
    apply N.eqb_neq in Hs.
    assert (forall b, eth_key m b <> eth_key n a) as Hne.
    { intros b E. now apply eth_key_inj in E as [E _]. }
    unfold net_state. cbn [vmx_cfg].
    destruct pm; now rewrite !get_set_other by apply Hne.
Qed.


End Loop.

(** ** Tasks, and when the mapper returns *)

Section Run.
Import PyStr Re Prox2vmx Spec.

Variable pm : bool.
Variable vm_name : string.

Lemma loop_body_tasks (key entry : string) (st st' : state) :
  loop_body pm vm_name (key, entry) st = Some st' ->
  convert_tasks st' =
  (convert_tasks st ++
   if is_disk (key, entry) && convertible entry
   then [{| disk_file := reference entry;
            vmdk_name := vmdk_file vm_name (family key)
                           (disk_id_get (disk_id st) (family key)) |}]
   else [])%list.
Proof.
  intros H.
  apply loop_body_inv in H as [(Hi & _ & ->)|[(Hi & _ & ->)|(Hi & _ & n & _ & ->)]];
    rewrite Hi; simpl; now rewrite ?app_nil_r.
Qed.

Lemma run_loop_tasks (pre post : list (string * string)) (st st' : state) :
  (forall d, disk_id_get (disk_id st) d = slot d pre) ->
  run_loop pm vm_name post st = Some st' ->
  convert_tasks st' = (convert_tasks st ++ tasks_from vm_name pre post)%list.
Proof.
  revert pre st. induction post as [|[key entry] post IH]; intros pre st Hc H.
  - injection H as <-. simpl. now rewrite app_nil_r.
  - apply run_loop_cons_inv in H as (st1 & H1 & H2).
    rewrite (IH (pre ++ [(key, entry)])%list st1); [| |exact H2].
    + rewrite (loop_body_tasks _ _ _ _ H1), <- app_assoc, Hc. reflexivity.
    + intros d. rewrite (loop_body_counter _ _ _ _ _ d H1), Hc, slot_app, slot_cons.
      unfold slot at 3. simpl. lia.
Qed.

Lemma loop_body_total (key entry : string) (st : state) :
  (match_net_key key = true -> nic_id_of key <> None) ->
  exists st', loop_body pm vm_name (key, entry) st = Some st'.
Proof.
  intros Hok. destruct (match_net_key key) eqn:Hn.
  - rewrite loop_body_net by assumption.
    destruct (nic_id_of key); [eauto | now elim Hok].
  - destruct (match_disk_key key) eqn:Hd.
    + destruct (startswith entry cdrom_marker) eqn:He.
      * rewrite loop_body_cdrom by assumption. eauto.
      * rewrite loop_body_disk; [eauto|]. unfold is_disk. simpl. now rewrite Hd, He.
    + rewrite loop_body_other by assumption. eauto.
Qed.

(** The loop returns exactly when every network key has a readable
    number. *)
Lemma run_loop_defined (items : list (string * string)) (st : state) :
  (exists st', run_loop pm vm_name items st = Some st') <-> net_ids_ok items = true.
Proof.
  revert st. induction items as [|[key entry] items IH]; intros st.
  - simpl. split; eauto.
  - rewrite net_ids_ok_cons. split.
    + intros (st' & H). apply run_loop_cons_inv in H as (st1 & H1 & H2). split.
      * intros Hn. rewrite loop_body_net in H1 by assumption.
        now destruct (nic_id_of key).
      * apply (IH st1). eauto.
    + intros [Hk Hi].
      destruct (loop_body_total key entry st Hk) as (st1 & H1).
      destruct (proj2 (IH st1) Hi) as (st' & H2). exists st'. cbn [run_loop]. rewrite H1. exact H2.
Qed.

End Run.

(** ** The assignments before the loop *)

Section Scalars.
Import PyStr Re Prox2vmx Spec.

(** The descriptor before the identity rule is applied. *)
Lemma scalars_eq (cfg : Dict.t string) :
  exists vmx uuid,
    scalars cfg = Some (match uuid with Some u => Dict.set vmx "uuid.bios" u | None => vmx end) /\
    uuid = match Dict.get cfg "smbios1" with
           | Some s => second_piece "uuid=" s
           | None => None
           end /\
    Dict.get vmx "uuid.bios" = None /\
    Dict.get vmx "displayName" = Some (Dict.get_default cfg "name" "") /\
    Dict.get vmx "firmware" = (if wants_efi cfg then Some "efi" else None) /\
    Dict.get vmx "efi.present" = (if wants_efi cfg then Some "TRUE" else None) /\
    (forall x, loop_key x = true -> Dict.get vmx x = None).
Proof.
  unfold scalars.
  match goal with
  | |- context [match Dict.get cfg "smbios1" with Some _ => _ | None => Some ?v end] =>
      set (vmx := v)
  end.
  exists vmx.
  assert (Dict.get vmx "uuid.bios" = None /\
          Dict.get vmx "displayName" = Some (Dict.get_default cfg "name" "") /\
          Dict.get vmx "firmware" = (if wants_efi cfg then Some "efi" else None) /\
          Dict.get vmx "efi.present" = (if wants_efi cfg then Some "TRUE" else None) /\
          (forall x, loop_key x = true -> Dict.get vmx x = None)) as Hv.
  { subst vmx. destruct (wants_efi cfg); repeat split; try reflexivity.
    all: intros x Hx; unfold loop_key in Hx;
      apply orb_prop in Hx as [Hx|Hx]; [apply orb_prop in Hx as [Hx|Hx]|];
      apply prefix_inv in Hx; rewrite Hx; reflexivity. }
  destruct (Dict.get cfg "smbios1") as [s|] eqn:G.
  - destruct (contains "uuid=" s) eqn:C.
    + rewrite split_second by discriminate.
      unfold second_piece.
      destruct (partition "uuid=" s) as [[a b]|] eqn:P.
      2:{ apply partition_none in P. congruence. }
      exists (match partition "uuid=" b with Some (u, _) => Some u | None => Some b end).
      split; [|now split].
      now destruct (partition "uuid=" b) as [[u v]|].
    + exists None. split; [reflexivity|]. split; [|exact Hv].
      unfold second_piece. apply partition_none in C. now rewrite C.
  - exists None. auto.
Qed.

Lemma process_conf_inv (cfg : Dict.t string) (preserve_mac : bool)
    (vmx : Dict.t string) (tasks : list task) :
  process_conf cfg preserve_mac = Some (vmx, tasks) ->
  exists vmx0 st,
    scalars cfg = Some vmx0 /\
    run_loop preserve_mac (Dict.get_default cfg "name" "") cfg
      {| vmx_cfg := vmx0; convert_tasks := [];
         disk_id := {| sata0_id := 0; scsi0_id := 0 |} |} = Some st /\
    vmx = vmx_cfg st /\ tasks = convert_tasks st.
Proof.
  unfold process_conf. destruct (scalars cfg) as [vmx0|]; [|discriminate].
  cbn [bind]. intros H. exists vmx0.
  destruct (run_loop preserve_mac (Dict.get_default cfg "name" "") cfg
              {| vmx_cfg := vmx0; convert_tasks := [];
                 disk_id := {| sata0_id := 0; scsi0_id := 0 |} |}) as [st|];
    [|discriminate].
  cbn [bind] in H. injection H as <- <-. eauto.
Qed.

(** The mapper returns exactly when every network key of the mapping has a
    readable number. *)
Lemma process_conf_defined (cfg : Dict.t string) (preserve_mac : bool) :
  (exists vmx tasks, process_conf cfg preserve_mac = Some (vmx, tasks)) <->
  net_ids_ok cfg = true.
Proof.
  destruct (scalars_eq cfg) as (v & u & Hs & _).
  unfold process_conf. rewrite Hs. simpl.
  rewrite <- (run_loop_defined preserve_mac (Dict.get_default cfg "name" "") cfg
                {| vmx_cfg := match u with Some u0 => Dict.set v "uuid.bios" u0 | None => v end;
                   convert_tasks := [];
                   disk_id := {| sata0_id := 0; scsi0_id := 0 |} |}).
  split.
  - intros (vmx & tasks & H).
    match type of H with context [run_loop ?a ?b ?c ?d] => destruct (run_loop a b c d) as [st|] end;
      [eauto | discriminate].
  - intros (st & H). rewrite H. simpl. eauto.
Qed.

End Scalars.

(** ** The mapper as a whole *)

Section Mapper.
Import PyStr Re Prox2vmx Spec.

Lemma wants_efi_spec (cfg : Dict.t string) :
  wants_efi cfg = true <->
  Dict.get cfg "bios" = Some "ovmf" \/ Dict.mem cfg "efidisk0" = true.
Proof.
  unfold wants_efi. rewrite orb_true_iff.
  destruct (Dict.get cfg "bios") as [b|].
  - rewrite String.eqb_eq. split; intros [H|H]; auto; left; congruence.
  - split; intros [H|H]; auto; discriminate.
Qed.

(** What a returned descriptor is made of: the assignments before the loop,
    the identity rule, and the loop run from there. *)
Lemma process_conf_view (cfg : Dict.t string) (pm : bool)
    (vmx : Dict.t string) (tasks : list task) :
  process_conf cfg pm = Some (vmx, tasks) ->
  exists v st,
    run_loop pm (Dict.get_default cfg "name" "") cfg
      {| vmx_cfg := v; convert_tasks := [];
         disk_id := {| sata0_id := 0; scsi0_id := 0 |} |} = Some st /\
    vmx = vmx_cfg st /\ tasks = convert_tasks st /\
    Dict.get v "uuid.bios" =
      match Dict.get cfg "smbios1" with
      | Some s => second_piece "uuid=" s
      | None => None
      end /\
    Dict.get v "displayName" = Some (Dict.get_default cfg "name" "") /\
    Dict.get v "firmware" = (if wants_efi cfg then Some "efi" else None) /\
    Dict.get v "efi.present" = (if wants_efi cfg then Some "TRUE" else None) /\
    (forall x, loop_key x = true -> Dict.get v x = None).
Proof.
  intros H. apply process_conf_inv in H as (v & st & Hs & Hr & -> & ->).
  destruct (scalars_eq cfg) as (v0 & u & Hs' & Hu & Hnone & Hname & Hfw & Hefi & Hloop).
  rewrite Hs in Hs'. injection Hs' as ->.
  exists (match u with Some u0 => Dict.set v0 "uuid.bios" u0 | None => v0 end), st.
  split; [exact Hr|]. split; [reflexivity|]. split; [reflexivity|].
  rewrite <- Hu. destruct u as [u0|].
  - rewrite get_set_same, !get_set_other by discriminate.
    repeat split; auto.
    intros x Hx. rewrite get_set_other; [now apply Hloop|].
    intros <-. discriminate.
  - repeat split; auto.
Qed.

Lemma run_loop_split (pm : bool) (vm_name : string) (pre post : list (string * string))
    (item : string * string) (st st' : state) :
  run_loop pm vm_name (pre ++ item :: post) st = Some st' ->
  exists st1 st2,
    run_loop pm vm_name pre st = Some st1 /\
    loop_body pm vm_name item st1 = Some st2 /\
    run_loop pm vm_name post st2 = Some st'.
Proof.
  rewrite run_loop_app. destruct (run_loop pm vm_name pre st) as [st1|]; [|discriminate].
  cbn [bind]. intros H. apply run_loop_cons_inv in H as (st2 & H1 & H2). eauto.
Qed.

End Mapper.

(** * The claims *)

Section Claims.
Import PyStr Re Prox2vmx Spec.

(** C5. The EFI firmware key and the EFI-present flag are in the
    destination descriptor exactly when the source has [bios = ovmf] or
    holds the key [efidisk0]; otherwise both keys are absent. *)
Theorem efi_flags_iff (cfg : Dict.t string) (pm : bool)
    (vmx : Dict.t string) (tasks : list task) :
  process_conf cfg pm = Some (vmx, tasks) ->
  (Dict.get cfg "bios" = Some "ovmf" \/ Dict.mem cfg "efidisk0" = true ->
   Dict.get vmx "firmware" = Some "efi" /\ Dict.get vmx "efi.present" = Some "TRUE") /\
  (~ (Dict.get cfg "bios" = Some "ovmf" \/ Dict.mem cfg "efidisk0" = true) ->
   Dict.get vmx "firmware" = None /\ Dict.get vmx "efi.present" = None).
Proof.
  intros H. apply process_conf_view in H
    as (v & st & Hr & -> & _ & _ & _ & Hfw & Hefi & _).
  rewrite (run_loop_frame _ _ _ _ _ "firmware" eq_refl Hr).
  rewrite (run_loop_frame _ _ _ _ _ "efi.present" eq_refl Hr).
  cbn [vmx_cfg]. rewrite Hfw, Hefi. rewrite <- wants_efi_spec.
  destruct (wants_efi cfg); split; intros Hc; auto; congruence.
Qed.

Lemma efi_flags_iff_witness :
  exists vmx tasks,
    process_conf [("efidisk0", "local:100/vm-100-disk-1.qcow2,size=4M")] true
      = Some (vmx, tasks) /\
    Dict.get vmx "firmware" = Some "efi" /\ Dict.get vmx "efi.present" = Some "TRUE".
Proof.
  destruct (process_conf [("efidisk0", "local:100/vm-100-disk-1.qcow2,size=4M")] true)
    as [[vmx tasks]|] eqn:H; [|vm_compute in H; discriminate H].
  exists vmx, tasks. split; [reflexivity|].
  apply (proj1 (efi_flags_iff _ true vmx tasks H)). right. reflexivity.
Defined.


(** The destination BIOS UUID is the second piece of the identity
    descriptor cut at every [uuid=]. *)
Lemma uuid_bios_value (cfg : Dict.t string) (pm : bool)
    (vmx : Dict.t string) (tasks : list task) :
  process_conf cfg pm = Some (vmx, tasks) ->
  Dict.get vmx "uuid.bios" =
  match Dict.get cfg "smbios1" with
  | Some s => second_piece "uuid=" s
  | None => None
  end.
Proof.
  intros H. apply process_conf_view in H as (v & st & Hr & -> & _ & Hu & _).
  now rewrite (run_loop_frame _ _ _ _ _ "uuid.bios" eq_refl Hr).
Qed.

(** C2. At an identity descriptor that holds a further component after the
    UUID, the emitted BIOS UUID keeps that component: the value is not cut
    at the comma. *)
Theorem uuid_bios_keeps_trailing_components :
  exists vmx tasks,
    process_conf
      [("smbios1", "uuid=7d1c2f0a-5b3e-4c8d-9e21-0a1b2c3d4e5f,manufacturer=QEMU")] true
      = Some (vmx, tasks) /\
    Dict.get vmx "uuid.bios"
      = Some "7d1c2f0a-5b3e-4c8d-9e21-0a1b2c3d4e5f,manufacturer=QEMU".
Proof. eexists _, _. split; vm_compute; reflexivity. Qed.

(** The exit status of the converter child has no part in the result. *)
Lemma convert_ignores_status (w : world) (status : Z) (pve_path vmdk_path : string) :
  convert_disk_file (with_status w status) pve_path vmdk_path =
  convert_disk_file w pve_path vmdk_path.
Proof. reflexivity. Qed.

(** C3. When the converter child exits with status 1, the disk converter
    still returns the destination file name; no error is raised. *)
Theorem convert_returns_name_on_failure :
  child_status (qemu_img failing_world "/var/lib/vz/images/100/vm-100-disk-0.qcow2"
                  "vm_2026-11-04_0207/vm-sata0-disk-0.vmdk") = 1%Z /\
  convert_disk_file failing_world "local:100/vm-100-disk-0.qcow2"
    "vm_2026-11-04_0207/vm-sata0-disk-0.vmdk"
  = inr (Some "vm-sata0-disk-0.vmdk",
         ["Converting local:100/vm-100-disk-0.qcow2 -> vm-sata0-disk-0.vmdk";
          "Progress: (12"]).
Proof. split; vm_compute; reflexivity. Qed.

(** What one enumerated disk leaves in the descriptor. *)
Lemma disk_state_keys (vm_name key entry : string) (st : state) :
  let d := family key in
  let n := disk_id_get (disk_id st) d in
  let vmx := vmx_cfg (disk_state vm_name key entry st) in
  Dict.get vmx (dev_name d ++ ".present") = Some "TRUE" /\
  Dict.get vmx (slot_key d n "present") = Some "TRUE" /\
  Dict.get vmx (slot_key d n "fileName") = Some (vmdk_file vm_name d n).
Proof.
  intros d n vmx. subst vmx. unfold disk_state. cbn [vmx_cfg]. fold d. fold n.
  repeat split.
  - rewrite !get_set_other by (apply slot_key_not_dev; reflexivity).
    apply get_set_same.
  - rewrite get_set_other; [apply get_set_same|].
    intros E. apply slot_key_inj in E as (_ & _ & E). discriminate.
  - apply get_set_same.
Qed.

(** In a returned descriptor, the disk discovered after [pre] sits in the
    slot numbered by the disks of its family in [pre]. *)
Lemma process_conf_slot (cfg : Dict.t string) (pm : bool)
    (vmx : Dict.t string) (tasks : list task)
    (pre post : list (string * string)) (key entry : string) :
  process_conf cfg pm = Some (vmx, tasks) ->
  cfg = (pre ++ (key, entry) :: post)%list ->
  is_disk (key, entry) = true ->
  Dict.get vmx (slot_key (family key) (slot (family key) pre) "present") = Some "TRUE" /\
  Dict.get vmx (slot_key (family key) (slot (family key) pre) "fileName")
    = Some (vmdk_file (Dict.get_default cfg "name" "") (family key)
              (slot (family key) pre)).
Proof.
  intros H Hcfg Hd. apply process_conf_view in H as (v & st & Hr & -> & _).
  set (vm_name := Dict.get_default cfg "name" "") in *.
  rewrite Hcfg in Hr. apply run_loop_split in Hr as (st1 & st2 & H1 & H2 & H3).
  pose proof (run_loop_counter _ _ _ _ _ (family key) H1) as Hc.
  cbn [disk_id] in Hc.
  assert (disk_id_get (disk_id st1) (family key) = slot (family key) pre) as Hn
    by (rewrite Hc; destruct (family key); reflexivity).
  rewrite loop_body_disk in H2 by assumption. injection H2 as <-.
  destruct (disk_state_keys vm_name key entry st1) as (_ & Hp & Hf).
  rewrite Hn in Hp, Hf.
  assert (slot (family key) pre
          < disk_id_get (disk_id (disk_state vm_name key entry st1)) (family key)) as Hlt.
  { unfold disk_state. cbn [disk_id]. rewrite disk_id_get_incr, Hn.
    destruct (family key); simpl; lia. }
  rewrite !(run_loop_slot_frame _ _ _ _ _ _ _ _ Hlt H3). auto.
Qed.

(** C4. Slot indices are dense and zero-based within each destination
    controller family, in the order the source keys are discovered: the
    disk found after the entries [pre] gets the slot whose index is the
    number of enumerated disks of its family in [pre], whatever the numeric
    suffix of its key; and an iteration never lowers a counter. *)
Theorem disk_slots_dense (cfg : Dict.t string) (pm : bool)
    (vmx : Dict.t string) (tasks : list task) :
  process_conf cfg pm = Some (vmx, tasks) ->
  (forall pre key entry post,
     cfg = (pre ++ (key, entry) :: post)%list ->
     is_disk (key, entry) = true ->
     let d := family key in
     let n := List.length (filter (counted d) pre) in
     Dict.get vmx (slot_key d n "present") = Some "TRUE" /\
     Dict.get vmx (slot_key d n "fileName")
       = Some (vmdk_file (Dict.get_default cfg "name" "") d n)) /\
  (forall vm_name item st st' d,
     loop_body pm vm_name item st = Some st' ->
     disk_id_get (disk_id st) d <= disk_id_get (disk_id st') d).
Proof.
  intros H. split.
  - intros pre key entry post Hcfg Hd. simpl.
    exact (process_conf_slot cfg pm vmx tasks pre post key entry H Hcfg Hd).
  - intros vm_name item st st' d Hb.
    rewrite (loop_body_counter _ _ _ _ _ d Hb). lia.
Qed.

Lemma disk_slots_dense_witness :
  exists vmx tasks,
    process_conf [("name", "vm"); ("scsi0", "local:100/a.qcow2,size=8G");
                  ("net0", "virtio=AA:BB:CC:DD:EE:FF,bridge=vmbr0");
                  ("scsi3", "local:100/b.raw,size=8G")] false = Some (vmx, tasks) /\
    Dict.get vmx "scsi0:0.fileName" = Some "vm-scsi0-disk-0.vmdk" /\
    Dict.get vmx "scsi0:1.fileName" = Some "vm-scsi0-disk-1.vmdk".
Proof.
  destruct (process_conf [("name", "vm"); ("scsi0", "local:100/a.qcow2,size=8G");
                          ("net0", "virtio=AA:BB:CC:DD:EE:FF,bridge=vmbr0");
                          ("scsi3", "local:100/b.raw,size=8G")] false)
    as [[vmx tasks]|] eqn:H; [|vm_compute in H; discriminate H].
  exists vmx, tasks. split; [reflexivity|].
  destruct (disk_slots_dense _ _ _ _ H) as [Hs _]. split.
  - exact (proj2 (Hs [("name", "vm")] "scsi0" "local:100/a.qcow2,size=8G"
                     [("net0", "virtio=AA:BB:CC:DD:EE:FF,bridge=vmbr0");
                      ("scsi3", "local:100/b.raw,size=8G")] eq_refl eq_refl)).
  - exact (proj2 (Hs [("name", "vm"); ("scsi0", "local:100/a.qcow2,size=8G");
                      ("net0", "virtio=AA:BB:CC:DD:EE:FF,bridge=vmbr0")]
                     "scsi3" "local:100/b.raw,size=8G" [] eq_refl eq_refl)).
Defined.

(** The example of the specification: keys of the second family at source
    indices 0 and 3 fill the slots 0 and 1. *)
Example slots_of_scsi0_and_scsi3 :
  option_map (fun r => (Dict.get (fst r) "scsi0:0.fileName",
                        Dict.get (fst r) "scsi0:1.fileName",
                        Dict.get (fst r) "scsi0:3.fileName"))
    (process_conf [("name", "vm"); ("scsi0", "local:100/a.qcow2");
                   ("scsi3", "local:100/b.qcow2")] false)
  = Some (Some "vm-scsi0-disk-0.vmdk", Some "vm-scsi0-disk-1.vmdk", None).
Proof. vm_compute. reflexivity. Qed.

(** *** The conversion tasks *)

Lemma tasks_from_in (vm_name : string) (pre0 items : list (string * string)) (t : task) :
  In t (tasks_from vm_name pre0 items) <->
  exists pre key entry post,
    items = (pre ++ (key, entry) :: post)%list /\
    is_disk (key, entry) = true /\ convertible entry = true /\
    t = {| disk_file := reference entry;
           vmdk_name := vmdk_file vm_name (family key)
                          (slot (family key) (pre0 ++ pre)) |}.
Proof.
  revert pre0. induction items as [|[k e] items IH]; intros pre0.
  - simpl. split; [tauto|]. intros (pre & key & entry & post & E & _).
    now destruct pre.
  - cbn [tasks_from]. rewrite in_app_iff, IH. split.
    + intros [H|(pre & key & entry & post & -> & Hd & Hc & ->)].
      * destruct (is_disk (k, e) && convertible e) eqn:B; [|destruct H].
        destruct H as [<-|[]]. apply andb_prop in B as [Hd Hc].
        exists [], k, e, items. now rewrite app_nil_r.
      * exists ((k, e) :: pre), key, entry, post. rewrite <- app_assoc. auto.
    + intros (pre & key & entry & post & E & Hd & Hc & ->).
      destruct pre as [|p pre]; simpl in E; injection E as -> ->.
      * left. rewrite app_nil_r, Hd, Hc. simpl. auto.
      * right. exists pre, key, entry, post. rewrite <- app_assoc. auto.
Qed.

Lemma vmdk_file_inj (vm_name : string) (d d' : dev) (n m : nat) :
  vmdk_file vm_name d n = vmdk_file vm_name d' m -> d = d' /\ n = m.
Proof.
  unfold vmdk_file, str_of_nat. intros H. apply append_inv_head in H.
  assert (d = d') as <- by (destruct d, d'; simpl in H; congruence).
  split; [reflexivity|]. simpl in H. injection H as H.
  apply append_inv_head in H. simpl in H.
  apply append_inv_head with (a := "-disk-") in H.
  apply cut_unique in H as [H _]; try apply uint_free_dot.
  now apply str_of_nat_inj.
Qed.

(** Two ways of pointing at an entry of one list: the same place, or one
    place before the other. *)
Lemma two_places {A : Type} (a a' b b' : list A) (x x' : A) :
  (a ++ x :: b = a' ++ x' :: b')%list ->
  (a = a' /\ x = x' /\ b = b') \/
  (exists mid, a' = a ++ x :: mid)%list \/
  (exists mid, a = a' ++ x' :: mid)%list.
Proof.
  revert a'. induction a as [|y a IH]; intros [|y' a'] E; simpl in E.
  - injection E as -> ->. left. repeat split.
  - injection E as -> ->. right. left. now exists a'.
  - injection E as -> <-. right. right. now exists a.
  - injection E as -> E. destruct (IH a' E) as [(-> & -> & ->)|[(mid & ->)|(mid & ->)]].
    + left. repeat split.
    + right. left. now exists mid.
    + right. right. now exists mid.
Qed.

Lemma slot_after (d : dev) (pre mid : list (string * string)) (item : string * string) :
  counted d item = true -> slot d pre < slot d (pre ++ item :: mid).
Proof. intros H. rewrite slot_app, slot_cons, H. lia. Qed.

(** The file of a slot is named by the task of the disk in that slot and
    by no other task. *)
Lemma task_of_slot (vm_name : string) (pre post : list (string * string))
    (key entry : string) (t : task) :
  is_disk (key, entry) = true ->
  In t (tasks_from vm_name [] (pre ++ (key, entry) :: post)) ->
  vmdk_name t = vmdk_file vm_name (family key) (slot (family key) pre) ->
  convertible entry = true /\ disk_file t = reference entry.
Proof.
  intros Hd Hin Hname.
  apply tasks_from_in in Hin as (pre' & k' & e' & post' & E & Hd' & Hc' & ->).
  cbn [vmdk_name app] in Hname. apply vmdk_file_inj in Hname as [Hfam Hslot].
  rewrite Hfam, app_nil_l in Hslot.
  assert (counted (family key) (key, entry) = true) as C
    by (unfold counted; cbn [fst]; rewrite Hd; now destruct (family key)).
  assert (counted (family key) (k', e') = true) as C'
    by (unfold counted; cbn [fst]; rewrite Hd', Hfam; now destruct (family key)).
  apply two_places in E as [(_ & E & _)|[(mid & ->)|(mid & ->)]].
  - injection E as <- <-. auto.
  - pose proof (slot_after (family key) pre mid _ C). lia.
  - pose proof (slot_after (family key) pre' mid _ C'). lia.
Qed.

Lemma process_conf_tasks (cfg : Dict.t string) (pm : bool)
    (vmx : Dict.t string) (tasks : list task) :
  process_conf cfg pm = Some (vmx, tasks) ->
  tasks = tasks_from (Dict.get_default cfg "name" "") [] cfg.
Proof.
  intros H. apply process_conf_view in H as (v & st & Hr & _ & -> & _).
  rewrite (run_loop_tasks _ _ [] cfg _ _) with (2 := Hr); [reflexivity|].
  now intros [].
Qed.

(** [before c s] is a prefix of [s]. *)
Lemma before_prefix (c : ascii) (s : string) :
  s = before c s ++ drop (String.length (before c s)) s.
Proof.
  induction s as [|x s IH]; [reflexivity|]. simpl before.
  destruct (Ascii.eqb x c); [reflexivity|]. simpl. now rewrite <- IH.
Qed.

(** C1, as stated, fails: the reference of this disk has none of the three
    extensions, and yet a conversion task is appended, because the test is
    made on the whole entry value. *)
Lemma conversion_task_without_reference_extension :
  convertible (reference "local-lvm:vm-100-disk-0,serial=disk.raw") = false /\
  process_conf [("name", "vm"); ("scsi0", "local-lvm:vm-100-disk-0,serial=disk.raw")] true
  = Some ([(".encoding", "UTF-8"); ("displayName", "vm"); ("numvcpus", "1");
           ("memsize", "4096"); ("guestOS", "other-64"); ("tools.syncTime", "TRUE");
           ("virtualHW.version", "19"); ("config.version", "8");
           ("scsi0.virtualDev", "lsilogic"); ("scsi0.present", "TRUE");
           ("scsi0:0.present", "TRUE"); ("scsi0:0.fileName", "vm-scsi0-disk-0.vmdk")],
          [{| disk_file := "local-lvm:vm-100-disk-0";
              vmdk_name := "vm-scsi0-disk-0.vmdk" |}]).
Proof. split; vm_compute; reflexivity. Qed.

(** C1, amended. For every enumerated disk entry a conversion task is
    appended if and only if the entry value as a whole holds one of
    [.qcow2], [.vmdk], [.raw]; the source of the task is the text of the
    entry before its first comma and its destination is the file name
    written for the slot of the disk. *)
Theorem conversion_tasks_by_entry (cfg : Dict.t string) (pm : bool)
    (vmx : Dict.t string) (tasks : list task) :
  process_conf cfg pm = Some (vmx, tasks) ->
  tasks = tasks_from (Dict.get_default cfg "name" "") [] cfg /\
  forall pre key entry post,
    cfg = (pre ++ (key, entry) :: post)%list ->
    is_disk (key, entry) = true ->
    exists file,
      Dict.get vmx (slot_key (family key) (slot (family key) pre) "fileName") = Some file /\
      ((exists t, In t tasks /\ vmdk_name t = file) <->
       (contains ".qcow2" entry || contains ".vmdk" entry || contains ".raw" entry) = true) /\
      (forall t, In t tasks -> vmdk_name t = file ->
         disk_file t = before "," entry /\
         entry = before "," entry ++ drop (String.length (before "," entry)) entry /\
         free_of "," (before "," entry)).
Proof.
  intros H. pose proof (process_conf_tasks _ _ _ _ H) as Ht. split; [exact Ht|].
  intros pre key entry post Hcfg Hd.
  destruct (process_conf_slot _ _ _ _ _ _ _ _ H Hcfg Hd) as [_ Hf].
  eexists. split; [exact Hf|]. fold (convertible entry). split; [split|].
  - intros (t & Hin & Hn). rewrite Ht, Hcfg in Hin. rewrite Hcfg in Hn.
    now destruct (task_of_slot _ _ _ _ _ _ Hd Hin Hn).
  - intros Hc.
    exists {| disk_file := reference entry;
              vmdk_name := vmdk_file (Dict.get_default cfg "name" "") (family key)
                             (slot (family key) pre) |}.
    split; [|reflexivity]. rewrite Ht. apply tasks_from_in.
    exists pre, key, entry, post. repeat split; assumption.
  - intros t Hin Hn. rewrite Ht, Hcfg in Hin. rewrite Hcfg in Hn.
    destruct (task_of_slot _ _ _ _ _ _ Hd Hin Hn) as [_ Hfile].
    split; [exact Hfile|]. split; [apply before_prefix | apply before_free].
Qed.

Lemma conversion_tasks_by_entry_witness :
  exists vmx tasks,
    process_conf [("name", "vm"); ("sata0", "local:100/vm-100-disk-0.qcow2,size=32G")] true
      = Some (vmx, tasks) /\
    tasks = [{| disk_file := "local:100/vm-100-disk-0.qcow2";
                vmdk_name := "vm-sata0-disk-0.vmdk" |}].
Proof.
  destruct (process_conf [("name", "vm"); ("sata0", "local:100/vm-100-disk-0.qcow2,size=32G")] true)
    as [[vmx tasks]|] eqn:H; [|vm_compute in H; discriminate H].
  exists vmx, tasks. split; [reflexivity|].
  exact (proj1 (conversion_tasks_by_entry _ _ _ _ H)).
Defined.

(** *** Network interfaces *)

Lemma net_state_keys (pm : bool) (n : N) (entry : string) (st : state) :
  let vmx := vmx_cfg (net_state pm n entry st) in
  Dict.get vmx (eth_key n "addressType") = Some (if pm then "static" else "vpx") /\
  Dict.get vmx (eth_key n "address")
    = (if pm then Some (mac_of entry) else Dict.get (vmx_cfg st) (eth_key n "address")).
Proof.
  assert (forall a b, a <> b -> eth_key n a <> eth_key n b) as Hne.
  { intros a b Hab E. now apply eth_key_inj in E as [_ E]. }
  unfold net_state. cbn [vmx_cfg]. destruct pm; split.
  - apply get_set_same.
  - rewrite get_set_other by (apply Hne; discriminate). apply get_set_same.
  - rewrite !get_set_other by (apply Hne; discriminate). apply get_set_same.
  - now rewrite !get_set_other by (apply Hne; discriminate).
Qed.

Lemma same_nic_iff (n : N) (key entry : string) :
  same_nic n (key, entry) = true <-> match_net_key key = true /\ nic_id_of key = Some n.
Proof.
  unfold same_nic. cbn [fst]. rewrite andb_true_iff.
  destruct (nic_id_of key) as [m|].
  - rewrite N.eqb_eq. split; intros [H1 H2]; split; congruence.
  - split; intros [H1 H2]; discriminate.
Qed.

(** After the loop, the address type and the address of an interface are
    those of the last entry that names it. *)
Lemma run_loop_eth (pm : bool) (vm_name : string) (items : list (string * string))
    (st st' : state) (n : N) :
  run_loop pm vm_name items st = Some st' ->
  Dict.get (vmx_cfg st') (eth_key n "addressType")
    = match last_entry n items with
      | Some _ => Some (if pm then "static" else "vpx")
      | None => Dict.get (vmx_cfg st) (eth_key n "addressType")
      end /\
  Dict.get (vmx_cfg st') (eth_key n "address")
    = match last_entry n items with
      | Some e => if pm then Some (mac_of e)
                  else Dict.get (vmx_cfg st) (eth_key n "address")
      | None => Dict.get (vmx_cfg st) (eth_key n "address")
      end.
Proof.
  revert st. induction items as [|[key entry] items IH]; intros st H.
  - injection H as <-. auto.
  - apply run_loop_cons_inv in H as (st1 & H1 & H2).
    destruct (IH st1 H2) as [IHt IHa]. rewrite IHt, IHa. cbn [last_entry snd].
    assert (Dict.get (vmx_cfg st1) (eth_key n "addressType")
            = (if same_nic n (key, entry) then Some (if pm then "static" else "vpx")
               else Dict.get (vmx_cfg st) (eth_key n "addressType")) /\
            Dict.get (vmx_cfg st1) (eth_key n "address")
            = (if same_nic n (key, entry) && pm then Some (mac_of entry)
               else Dict.get (vmx_cfg st) (eth_key n "address"))) as [Ht Ha].
    { destruct (same_nic n (key, entry)) eqn:S.
      - apply same_nic_iff in S as [Hk Hn].
        rewrite loop_body_net, Hn in H1 by assumption. injection H1 as <-.
        destruct (net_state_keys pm n entry st) as [Kt Ka]. rewrite Kt, Ka.
        now destruct pm.
      - split; now apply loop_body_eth_frame with (item := (key, entry)) (pm := pm)
                                                (vm_name := vm_name). }
    rewrite Ht, Ha.
    destruct (last_entry n items) as [e|]; destruct (same_nic n (key, entry)), pm; auto.
Qed.

Lemma last_entry_app (n : N) (a b : list (string * string)) :
  last_entry n (a ++ b) =
  match last_entry n b with
  | Some e => Some e
  | None => last_entry n a
  end.
Proof.
  induction a as [|item a IH]; simpl.
  - now destruct (last_entry n b).
  - rewrite IH. now destruct (last_entry n b).
Qed.

Lemma last_entry_none (n : N) (items : list (string * string)) :
  forallb (fun item => negb (same_nic n item)) items = true -> last_entry n items = None.
Proof.
  induction items as [|item items IH]; simpl; [reflexivity|].
  intros H. apply andb_prop in H as [H1 H2]. rewrite (IH H2).
  apply negb_true_iff in H1. now rewrite H1.
Qed.

(** C6, as stated, fails: the entry of [net0] is a matched network entry
    whose model field yields a MAC, and the address key of its interface
    holds the empty string: the key [net00] yields the same interface
    index, and its entry, which comes later and has no model field,
    overwrites the address. *)
Lemma later_entry_overwrites_address :
  match_net_key "net0" = true /\
  first_field model_names "virtio=AA:BB:CC:DD:EE:FF,bridge=vmbr0" "AA:BB:CC:DD:EE:FF" /\
  process_conf [("name", "vm"); ("net0", "virtio=AA:BB:CC:DD:EE:FF,bridge=vmbr0");
                ("net00", "bridge=vmbr1")] true
  = Some ([(".encoding", "UTF-8"); ("displayName", "vm"); ("numvcpus", "1");
           ("memsize", "4096"); ("guestOS", "other-64"); ("tools.syncTime", "TRUE");
           ("virtualHW.version", "19"); ("config.version", "8");
           ("ethernet0.addressType", "static"); ("ethernet0.present", "TRUE");
           ("ethernet0.networkName", "vmbr1"); ("ethernet0.address", "")], []).
Proof.
  split; [reflexivity|]. split; [|vm_compute; reflexivity].
  exists "". split; [|intros; simpl; lia].
  split; [discriminate|]. split; [reflexivity|].
  exists "virtio", ",bridge=vmbr0". split; [now left|]. split; [reflexivity | now right].
Qed.

(** C6, amended. Every matched network entry yields an interface index,
    and the keys of an interface are those of the last entry of the mapping
    that yields its index.  Without MAC preservation the address type is
    ["vpx"] and no address key is emitted; with it the address type is
    ["static"] and the address key is always emitted: its value is the
    value of the leftmost model field of that entry, a non-empty text
    without comma that follows [virtio=], [e1000=], [e1000e=], [vmxnet3=] or
    [rtl8139=] and runs to the next comma or to the end, and it is the empty
    string when the entry has no such field.  The same holds of the
    assignments made at the iteration of each matched entry. *)
Theorem net_address_rules (cfg : Dict.t string) (pm : bool)
    (vmx : Dict.t string) (tasks : list task)
    (pre post : list (string * string)) (key entry : string) :
  process_conf cfg pm = Some (vmx, tasks) ->
  cfg = (pre ++ (key, entry) :: post)%list ->
  match_net_key key = true ->
  exists n e,
    nic_id_of key = Some n /\
    last_entry n cfg = Some e /\
    (forallb (fun item => negb (same_nic n item)) post = true -> e = entry) /\
    Dict.get vmx (eth_key n "addressType") = Some (if pm then "static" else "vpx") /\
    (pm = false -> Dict.get vmx (eth_key n "address") = None) /\
    (pm = true ->
     (forall mac, first_field model_names e mac ->
                  Dict.get vmx (eth_key n "address") = Some mac) /\
     (no_field model_names e -> Dict.get vmx (eth_key n "address") = Some "") /\
     ((exists mac, first_field model_names e mac) \/ no_field model_names e)) /\
    (forall vm_name st, exists st',
       loop_body pm vm_name (key, entry) st = Some st' /\
       Dict.get (vmx_cfg st') (eth_key n "addressType")
         = Some (if pm then "static" else "vpx") /\
       (pm = false ->
        Dict.get (vmx_cfg st') (eth_key n "address")
        = Dict.get (vmx_cfg st) (eth_key n "address")) /\
       (pm = true ->
        (forall mac, first_field model_names entry mac ->
                     Dict.get (vmx_cfg st') (eth_key n "address") = Some mac) /\
        (no_field model_names entry ->
         Dict.get (vmx_cfg st') (eth_key n "address") = Some ""))).
Proof.
  intros H Hcfg Hk.
  apply process_conf_view in H as (v & st & Hr & -> & _ & _ & _ & _ & _ & Hloop).
  pose proof Hr as Hr'. rewrite Hcfg in Hr'.
  apply run_loop_split in Hr' as (st1 & st2 & _ & H2 & _).
  rewrite loop_body_net in H2 by assumption.
  destruct (nic_id_of key) as [n|] eqn:Hn; [|discriminate]. clear H2 st1 st2.
  assert (same_nic n (key, entry) = true) as S by (apply same_nic_iff; auto).
  assert (exists e, last_entry n cfg = Some e /\
            (forallb (fun item => negb (same_nic n item)) post = true -> e = entry))
    as (e & He & Hlast).
  { rewrite Hcfg, last_entry_app. cbn [last_entry snd]. rewrite S.
    destruct (last_entry n post) as [e|] eqn:L.
    - exists e. split; [reflexivity|]. intros F. apply last_entry_none in F. congruence.
    - exists entry. auto. }
  exists n, e. split; [reflexivity|]. split; [exact He|]. split; [exact Hlast|].
  destruct (run_loop_eth _ _ _ _ _ n Hr) as [Ht Ha]. rewrite He in Ht, Ha.
  cbn [vmx_cfg] in Ht, Ha. split; [exact Ht|]. split; [|split].
  - intros ->. rewrite Ha. apply Hloop, loop_key_eth.
  - intros ->. rewrite Ha. destruct (mac_of_rule e) as (Hm & Hno & Htot).
    split; [|split; [|exact Htot]].
    + intros mac Hf. now rewrite (Hm mac Hf).
    + intros Hf. now rewrite (Hno Hf).
  - intros vm_name st0. exists (net_state pm n entry st0).
    rewrite loop_body_net, Hn by assumption. split; [reflexivity|].
    destruct (net_state_keys pm n entry st0) as [Kt Ka]. split; [exact Kt|]. split.
    + intros ->. exact Ka.
    + intros ->. rewrite Ka. destruct (mac_of_rule entry) as (Hm & Hno & _). split.
      * intros mac Hf. now rewrite (Hm mac Hf).
      * intros Hf. now rewrite (Hno Hf).
Qed.

Lemma net_address_rules_witness :
  exists vmx tasks,
    process_conf [("net0", "bridge=vmbr0,firewall=1");
                  ("net1", "e1000e=AA:BB:CC:DD:EE:FF,bridge=vmbr1")] true = Some (vmx, tasks) /\
    Dict.get vmx "ethernet1.addressType" = Some "static" /\
    Dict.get vmx "ethernet1.address" = Some "AA:BB:CC:DD:EE:FF".
Proof.
  destruct (process_conf [("net0", "bridge=vmbr0,firewall=1");
                          ("net1", "e1000e=AA:BB:CC:DD:EE:FF,bridge=vmbr1")] true)
    as [[vmx tasks]|] eqn:H; [|vm_compute in H; discriminate H].
  destruct (net_address_rules _ true vmx tasks
              [("net0", "bridge=vmbr0,firewall=1")] []
              "net1" "e1000e=AA:BB:CC:DD:EE:FF,bridge=vmbr1" H eq_refl eq_refl)
    as (n & e & Hn & _ & He & Ht & _ & Ha & _).
  vm_compute in Hn. injection Hn as <-. rewrite (He eq_refl) in Ha.
  exists vmx, tasks. split; [reflexivity|]. split; [exact Ht|].
  apply (proj1 (Ha eq_refl)).
  exists "". split; [|intros; simpl; lia].
  split; [discriminate|]. split; [reflexivity|].
  exists "e1000e", ",bridge=vmbr1".
  split; [right; right; now left|]. split; [reflexivity | now right].
Defined.

(** The scenario of the specification, and an entry without a model. *)
Example net_scenario :
  option_map (fun r => (Dict.get (fst r) "ethernet0.address",
                        Dict.get (fst r) "ethernet0.addressType",
                        Dict.get (fst r) "ethernet1.address",
                        Dict.get (fst r) "ethernet1.networkName"))
    (process_conf [("net0", "virtio=AA:BB:CC:DD:EE:FF,bridge=vmbr0");
                   ("net1", "firewall=1")] true)
  = Some (Some "AA:BB:CC:DD:EE:FF", Some "static", Some "", Some "unknown").
Proof. vm_compute. reflexivity. Qed.

(** *** Entries that leave no trace *)

Lemma agree_set (P : string -> Prop) (d1 d2 : Dict.t string) (k v : string) :
  agree P d1 d2 -> agree P (Dict.set d1 k v) (Dict.set d2 k v).
Proof. intros H x Hx. rewrite !get_set. now rewrite (H x Hx). Qed.

(** The loop does the same work from two states that differ only in keys
    it does not read: it reads none. *)
Lemma loop_body_related (P : string -> Prop) (pm : bool) (vm_name : string)
    (item : string * string) (s1 s2 : state) :
  related P s1 s2 ->
  related_opt P (loop_body pm vm_name item s1) (loop_body pm vm_name item s2).
Proof.
  destruct item as [key entry]. intros (Hv & Ht & Hd).
  destruct (match_disk_key key) eqn:Dk.
  - destruct (startswith entry cdrom_marker) eqn:Cd.
    + rewrite !loop_body_cdrom by assumption. exact (conj Hv (conj Ht Hd)).
    + assert (is_disk (key, entry) = true) as Hi
        by (unfold is_disk; cbn [fst snd]; now rewrite Dk, Cd).
      rewrite !loop_body_disk by assumption. simpl.
      unfold related, disk_state. cbn [vmx_cfg convert_tasks disk_id].
      rewrite Ht, Hd. repeat split.
      repeat apply agree_set. now destruct (match_scsi_key key); [apply agree_set|].
  - destruct (match_net_key key) eqn:Nk.
    + rewrite !loop_body_net by assumption.
      destruct (nic_id_of key) as [n|]; simpl; [|exact I].
      unfold related, net_state. cbn [vmx_cfg convert_tasks disk_id].
      repeat split; auto. destruct pm; now repeat apply agree_set.
    + rewrite !loop_body_other by assumption. exact (conj Hv (conj Ht Hd)).
Qed.

Lemma run_loop_related (P : string -> Prop) (pm : bool) (vm_name : string)
    (items : list (string * string)) (s1 s2 : state) :
  related P s1 s2 ->
  related_opt P (run_loop pm vm_name items s1) (run_loop pm vm_name items s2).
Proof.
  revert s1 s2. induction items as [|item items IH]; intros s1 s2 R; [exact R|].
  cbn [run_loop]. pose proof (loop_body_related P pm vm_name item s1 s2 R) as B.
  destruct (loop_body pm vm_name item s1) as [a|], (loop_body pm vm_name item s2) as [b|];
    simpl in B; try contradiction; simpl; auto.
Qed.

Lemma scalars_loop_keys (cfg : Dict.t string) :
  exists v, scalars cfg = Some v /\ forall x, loop_key x = true -> Dict.get v x = None.
Proof.
  destruct (scalars_eq cfg) as (v & u & Hs & _ & _ & _ & _ & _ & Hl).
  eexists. split; [exact Hs|]. intros x Hx. destruct u as [u|]; [|now apply Hl].
  rewrite get_set_other; [now apply Hl|]. intros <-. discriminate.
Qed.

Lemma run_loop_skip (pm : bool) (vm_name : string) (pre post : list (string * string))
    (item : string * string) (st : state) :
  (forall s, loop_body pm vm_name item s = Some s) ->
  run_loop pm vm_name (pre ++ item :: post)%list st = run_loop pm vm_name (pre ++ post)%list st.
Proof.
  intros H. rewrite !run_loop_app. destruct (run_loop pm vm_name pre st) as [s|]; [|reflexivity].
  cbn [bind run_loop]. now rewrite H.
Qed.

Lemma scalars_ext (c1 c2 : Dict.t string) :
  (forall k, In k read_keys -> Dict.get c1 k = Dict.get c2 k) ->
  scalars c1 = scalars c2.
Proof.
  intros H. unfold scalars, wants_efi, Dict.get_default, Dict.mem.
  rewrite (H "name"), (H "cores"), (H "memory"), (H "ostype"), (H "bios"),
    (H "efidisk0"), (H "smbios1") by (unfold read_keys; simpl; tauto).
  reflexivity.
Qed.

Lemma agree_skip_l (P : string -> Prop) (d1 d2 : Dict.t string) (k v : string) :
  ~ P k -> agree P d1 d2 -> agree P (Dict.set d1 k v) d2.
Proof.
  intros Hk H x Hx. rewrite get_set_other; [now apply H|]. intros <-. contradiction.
Qed.

Lemma agree_skip_r (P : string -> Prop) (d1 d2 : Dict.t string) (k v : string) :
  ~ P k -> agree P d1 d2 -> agree P d1 (Dict.set d2 k v).
Proof.
  intros Hk H x Hx. rewrite get_set_other; [now apply H|]. intros <-. contradiction.
Qed.

(** Two mappings that differ at most in the key [efidisk0], among those the
    mapper reads by name, start the loop with descriptors that differ at
    most in the two keys of the firmware rule. *)
Lemma scalars_firmware (c1 c2 : Dict.t string) :
  (forall k, In k ["name"; "cores"; "memory"; "ostype"; "bios"; "smbios1"] ->
             Dict.get c1 k = Dict.get c2 k) ->
  match scalars c1, scalars c2 with
  | Some v1, Some v2 => agree not_firmware v1 v2
  | None, None => True
  | _, _ => False
  end.
Proof.
  intros H. unfold scalars, Dict.get_default.
  rewrite (H "name"), (H "cores"), (H "memory"), (H "ostype"), (H "smbios1")
    by (simpl; tauto).
  cbv zeta.
  match goal with
  | |- context [if wants_efi c1 then Dict.set (Dict.set ?b _ _) _ _ else _] => set (base := b)
  end.
  assert (agree not_firmware
            (if wants_efi c1 then Dict.set (Dict.set base "firmware" "efi") "efi.present" "TRUE"
             else base)
            (if wants_efi c2 then Dict.set (Dict.set base "firmware" "efi") "efi.present" "TRUE"
             else base)) as Ha.
  { assert (~ not_firmware "firmware") as N1 by (intros [N _]; now apply N).
    assert (~ not_firmware "efi.present") as N2 by (intros [_ N]; now apply N).
    assert (agree not_firmware base base) as R by (intros x _; reflexivity).
    destruct (wants_efi c1), (wants_efi c2); auto using agree_skip_l, agree_skip_r. }
  destruct (Dict.get c2 "smbios1") as [s|]; [|exact Ha].
  destruct (contains "uuid=" s); [|exact Ha].
  destruct (nth_error (split "uuid=" s) 1) as [u|]; cbn [bind]; [|exact I].
  now apply agree_set.
Qed.

Lemma mem_middle (pre post : Dict.t string) (k v : string) :
  Dict.mem (pre ++ (k, v) :: post)%list k = true.
Proof.
  unfold Dict.mem. rewrite get_app. destruct (Dict.get pre k); [reflexivity|].
  simpl. now rewrite String.eqb_refl.
Qed.

(** C7, as stated, fails: under the key [efidisk0] an entry that begins
    with the marker of an empty CD-ROM drive does produce destination
    attributes, the two of the firmware rule, which the mapping without the
    entry does not have. *)
Lemma empty_cdrom_on_efidisk_sets_firmware :
  match_disk_key "efidisk0" = true /\
  startswith "none,media=cdrom" "none,media=cdrom" = true /\
  process_conf [("name", "vm"); ("efidisk0", "none,media=cdrom")] true
  = Some ([(".encoding", "UTF-8"); ("displayName", "vm"); ("numvcpus", "1");
           ("memsize", "4096"); ("guestOS", "other-64"); ("tools.syncTime", "TRUE");
           ("virtualHW.version", "19"); ("config.version", "8");
           ("firmware", "efi"); ("efi.present", "TRUE")], []) /\
  process_conf [("name", "vm")] true
  = Some ([(".encoding", "UTF-8"); ("displayName", "vm"); ("numvcpus", "1");
           ("memsize", "4096"); ("guestOS", "other-64"); ("tools.syncTime", "TRUE");
           ("virtualHW.version", "19"); ("config.version", "8")], []).
Proof. repeat split; vm_compute; reflexivity. Qed.

(** C7, amended. A disk entry whose value begins with the marker of an
    empty CD-ROM drive contributes nothing to the enumeration: its
    iteration leaves the descriptor, the task list and the slot counters as
    they are.  Under any key but [efidisk0] the mapper returns exactly what
    it returns for the mapping without the entry.  Under the key
    [efidisk0] it returns the same tasks and the same value at every key
    but the two of the firmware rule, which the presence of the key sets. *)
Theorem empty_cdrom_contributes_no_disk (pm : bool) (key entry : string) :
  match_disk_key key = true ->
  startswith entry "none,media=cdrom" = true ->
  (forall vm_name st, loop_body pm vm_name (key, entry) st = Some st) /\
  (forall pre post,
     (key <> "efidisk0" ->
      process_conf (pre ++ (key, entry) :: post)%list pm = process_conf (pre ++ post)%list pm) /\
     match process_conf (pre ++ (key, entry) :: post)%list pm,
           process_conf (pre ++ post)%list pm with
     | Some (vmx1, tasks1), Some (vmx2, tasks2) =>
         tasks1 = tasks2 /\
         (forall x, x <> "firmware" -> x <> "efi.present" ->
                    Dict.get vmx1 x = Dict.get vmx2 x) /\
         (key = "efidisk0" ->
          Dict.get vmx1 "firmware" = Some "efi" /\ Dict.get vmx1 "efi.present" = Some "TRUE")
     | None, None => True
     | _, _ => False
     end).
Proof.
  intros Hk He.
  assert (forall vm_name st, loop_body pm vm_name (key, entry) st = Some st) as Hbody
    by (intros; now apply loop_body_cdrom).
  split; [exact Hbody|]. intros pre post.
  assert (forall k, In k ["name"; "cores"; "memory"; "ostype"; "bios"; "smbios1"] ->
                    Dict.get (pre ++ (key, entry) :: post)%list k
                    = Dict.get (pre ++ post)%list k) as Hget.
  { intros k Hin. apply get_remove. intros <-.
    simpl in Hin. repeat (destruct Hin as [<-|Hin]; [discriminate Hk|]). destruct Hin. }
  assert (Dict.get_default (pre ++ (key, entry) :: post)%list "name" ""
          = Dict.get_default (pre ++ post)%list "name" "") as Hname.
  { unfold Dict.get_default. rewrite (Hget "name") by (simpl; tauto). reflexivity. }
  split.
  - intros Hne. unfold process_conf. rewrite Hname.
    assert (scalars (pre ++ (key, entry) :: post)%list = scalars (pre ++ post)%list) as ->.
    { apply scalars_ext. intros k Hin. apply get_remove. intros <-.
      unfold read_keys in Hin. simpl in Hin.
      repeat (destruct Hin as [<-|Hin]; [first [discriminate Hk | now elim Hne]|]).
      destruct Hin. }
    destruct (scalars (pre ++ post)%list) as [v|]; [|reflexivity]. cbn [bind].
    now rewrite run_loop_skip by (intros s; apply Hbody).
  - unfold process_conf. pose proof (scalars_firmware _ _ Hget) as Ha.
    destruct (scalars_eq (pre ++ (key, entry) :: post)%list)
      as (v0 & u & S1 & _ & _ & _ & Hfw & Hefi & _).
    rewrite S1 in Ha. rewrite S1.
    destruct (scalars (pre ++ post)%list) as [v2|]; [|contradiction]. cbn [bind].
    rewrite Hname, run_loop_skip by (intros s; apply Hbody).
    match goal with
    | |- context [run_loop pm ?n ?c {| vmx_cfg := ?v1; convert_tasks := ?t; disk_id := ?d |}] =>
        pose proof (run_loop_related not_firmware pm n c
                      {| vmx_cfg := v1; convert_tasks := t; disk_id := d |}
                      {| vmx_cfg := v2; convert_tasks := t; disk_id := d |}
                      (conj Ha (conj eq_refl eq_refl))) as R;
        destruct (run_loop pm n c {| vmx_cfg := v1; convert_tasks := t; disk_id := d |})
          as [a|] eqn:R1;
        destruct (run_loop pm n c {| vmx_cfg := v2; convert_tasks := t; disk_id := d |})
          as [b|] eqn:R2
    end; unfold related_opt in R; try contradiction; cbn [bind]; [|exact I].
    destruct R as (Ra & Rt & _). split; [exact Rt|]. split.
    + intros x H1 H2. apply Ra. split; assumption.
    + intros ->.
      rewrite (run_loop_frame _ _ _ _ _ "firmware" eq_refl R1).
      rewrite (run_loop_frame _ _ _ _ _ "efi.present" eq_refl R1). cbn [vmx_cfg].
      assert (wants_efi (pre ++ ("efidisk0", entry) :: post)%list = true) as W
        by (unfold wants_efi; rewrite mem_middle; apply orb_true_r).
      rewrite W in Hfw, Hefi.
      destruct u; rewrite ?get_set_other by discriminate; split; assumption.
Qed.

Lemma empty_cdrom_contributes_no_disk_witness :
  process_conf [("name", "vm"); ("sata0", "none,media=cdrom");
                ("sata1", "local:100/vm-100-disk-0.qcow2,size=32G")] true
  = process_conf [("name", "vm"); ("sata1", "local:100/vm-100-disk-0.qcow2,size=32G")] true /\
  process_conf [("name", "vm"); ("sata1", "local:100/vm-100-disk-0.qcow2,size=32G")] true
  = Some ([(".encoding", "UTF-8"); ("displayName", "vm"); ("numvcpus", "1");
           ("memsize", "4096"); ("guestOS", "other-64"); ("tools.syncTime", "TRUE");
           ("virtualHW.version", "19"); ("config.version", "8");
           ("sata0.present", "TRUE"); ("sata0:0.present", "TRUE");
           ("sata0:0.fileName", "vm-sata0-disk-0.vmdk")],
          [{| disk_file := "local:100/vm-100-disk-0.qcow2";
              vmdk_name := "vm-sata0-disk-0.vmdk" |}]).
Proof.
  split; [|vm_compute; reflexivity].
  apply (proj1 (proj2 (empty_cdrom_contributes_no_disk true "sata0" "none,media=cdrom"
                         eq_refl eq_refl)
                 [("name", "vm")] [("sata1", "local:100/vm-100-disk-0.qcow2,size=32G")])).
  discriminate.
Defined.

(** The empty drive under the key of the EFI disk, run. *)
Example empty_cdrom_on_efidisk_example :
  option_map (fun r => (Dict.get (fst r) "firmware", Dict.get (fst r) "sata0.present", snd r))
    (process_conf [("efidisk0", "none,media=cdrom")] false)
  = Some (Some "efi", None, []).
Proof. vm_compute. reflexivity. Qed.

(** *** Drives backed by an image that is not converted *)

(** A controller once marked present stays so. *)
Lemma loop_body_present (pm : bool) (vm_name : string) (item : string * string)
    (st st' : state) (d : dev) :
  loop_body pm vm_name item st = Some st' ->
  Dict.get (vmx_cfg st) (dev_name d ++ ".present") = Some "TRUE" ->
  Dict.get (vmx_cfg st') (dev_name d ++ ".present") = Some "TRUE".
Proof.
  destruct item as [key entry]. intros H Hp.
  apply loop_body_inv in H as [(_ & _ & ->)|[(_ & _ & ->)|(_ & _ & n & _ & ->)]].
  - exact Hp.
  - unfold disk_state. cbn [vmx_cfg].
    rewrite !get_set_other by (apply slot_key_not_dev; reflexivity).
    rewrite get_set. destruct (String.eqb _ _); [reflexivity|].
    destruct (match_scsi_key key); [|exact Hp].
    rewrite get_set_other; [exact Hp|]. destruct d; discriminate.
  - unfold net_state. cbn [vmx_cfg].
    destruct pm; now rewrite !get_set_other by apply eth_key_not_dev.
Qed.

Lemma run_loop_present (pm : bool) (vm_name : string) (items : list (string * string))
    (st st' : state) (d : dev) :
  run_loop pm vm_name items st = Some st' ->
  Dict.get (vmx_cfg st) (dev_name d ++ ".present") = Some "TRUE" ->
  Dict.get (vmx_cfg st') (dev_name d ++ ".present") = Some "TRUE".
Proof.
  revert st. induction items as [|item items IH]; intros st H Hp.
  - now injection H as <-.
  - apply run_loop_cons_inv in H as (st1 & H1 & H2).
    apply (IH st1 H2). now apply loop_body_present with pm vm_name item st.
Qed.

(** C10, as stated, fails: this drive is backed by an ISO image, its
    reference holds none of the three extensions, and yet a conversion task
    is appended for it, because the test is made on the whole entry value,
    where the serial holds [.raw]. *)
Lemma iso_cdrom_with_task :
  startswith "local:iso/x.iso,media=cdrom,serial=a.raw" cdrom_marker = false /\
  convertible (reference "local:iso/x.iso,media=cdrom,serial=a.raw") = false /\
  process_conf [("name", "vm"); ("sata0", "local:iso/x.iso,media=cdrom,serial=a.raw")] true
  = Some ([(".encoding", "UTF-8"); ("displayName", "vm"); ("numvcpus", "1");
           ("memsize", "4096"); ("guestOS", "other-64"); ("tools.syncTime", "TRUE");
           ("virtualHW.version", "19"); ("config.version", "8");
           ("sata0.present", "TRUE"); ("sata0:0.present", "TRUE");
           ("sata0:0.fileName", "vm-sata0-disk-0.vmdk")],
          [{| disk_file := "local:iso/x.iso"; vmdk_name := "vm-sata0-disk-0.vmdk" |}]).
Proof. repeat split; vm_compute; reflexivity. Qed.

(** C10, amended. A drive whose value does not begin with the empty CD-ROM
    marker, such as one backed by an ISO image, is enumerated as an ordinary
    disk: its iteration takes the next slot of its family and advances the
    counter, marks the controller and the slot present and names a vmdk
    file for the slot.  A task is appended for it exactly when its value as
    a whole holds one of [.qcow2], [.vmdk], [.raw]; when it holds none, as
    the value [local:iso/x.iso,media=cdrom] does, no task of the returned
    list produces the file the descriptor names. *)
Theorem iso_cdrom_takes_slot_without_task (cfg : Dict.t string) (pm : bool)
    (vmx : Dict.t string) (tasks : list task)
    (pre post : list (string * string)) (key entry : string) :
  process_conf cfg pm = Some (vmx, tasks) ->
  cfg = (pre ++ (key, entry) :: post)%list ->
  match_disk_key key = true ->
  startswith entry "none,media=cdrom" = false ->
  let d := family key in
  let n := slot d pre in
  let file := Dict.get_default cfg "name" "" ++ "-" ++ dev_name d ++ "-disk-"
              ++ str_of_nat n ++ ".vmdk" in
  let holds_extension :=
    contains ".qcow2" entry || contains ".vmdk" entry || contains ".raw" entry in
  (forall vm_name st, exists st',
     loop_body pm vm_name (key, entry) st = Some st' /\
     disk_id_get (disk_id st') d = S (disk_id_get (disk_id st) d) /\
     (holds_extension = false -> convert_tasks st' = convert_tasks st) /\
     (holds_extension = true -> exists t, convert_tasks st' = (convert_tasks st ++ [t])%list)) /\
  slot d (pre ++ [(key, entry)]) = S n /\
  Dict.get vmx (dev_name d ++ ".present") = Some "TRUE" /\
  Dict.get vmx (slot_key d n "present") = Some "TRUE" /\
  Dict.get vmx (slot_key d n "fileName") = Some file /\
  ((exists t, In t tasks /\ vmdk_name t = file) <-> holds_extension = true).
Proof.
  intros H Hcfg Hk He d n file holds_extension.
  fold (convertible entry) in holds_extension.
  assert (is_disk (key, entry) = true) as Hd
    by (unfold is_disk, cdrom_marker; cbn [fst snd]; now rewrite Hk, He).
  assert (counted d (key, entry) = true) as Hcount
    by (unfold counted; cbn [fst]; rewrite Hd; subst d; now destruct (family key)).
  split; [|split; [|split; [|split; [|split]]]].
  - intros vm_name st. exists (disk_state vm_name key entry st).
    split; [now apply loop_body_disk|]. unfold disk_state. cbn [disk_id convert_tasks].
    rewrite disk_id_get_incr. subst holds_extension. split; [|split].
    + subst d. destruct (family key); simpl; lia.
    + intros ->. now rewrite app_nil_r.
    + intros ->. eexists. reflexivity.
  - rewrite slot_app, slot_cons, Hcount. unfold slot at 2. simpl. subst n. lia.
  - apply process_conf_view in H as (v & st & Hr & -> & _).
    rewrite Hcfg in Hr. apply run_loop_split in Hr as (st1 & st2 & _ & H2 & H3).
    apply (run_loop_present _ _ _ _ _ d H3).
    rewrite loop_body_disk in H2 by assumption. injection H2 as <-.
    apply disk_state_keys.
  - exact (proj1 (process_conf_slot _ _ _ _ _ _ _ _ H Hcfg Hd)).
  - exact (proj2 (process_conf_slot _ _ _ _ _ _ _ _ H Hcfg Hd)).
  - pose proof (process_conf_tasks _ _ _ _ H) as Ht. subst holds_extension. split.
    + intros (t & Hin & Hname). rewrite Ht in Hin. subst file d n. subst cfg.
      now destruct (task_of_slot _ pre post key entry t Hd Hin Hname).
    + intros Hc.
      exists {| disk_file := reference entry; vmdk_name := file |}.
      split; [|reflexivity]. rewrite Ht. apply tasks_from_in.
      exists pre, key, entry, post. split; [exact Hcfg|]. split; [exact Hd|].
      split; [exact Hc | reflexivity].
Qed.

Lemma iso_cdrom_takes_slot_without_task_witness :
  exists vmx tasks,
    process_conf [("name", "vm"); ("sata0", "local:iso/x.iso,media=cdrom");
                  ("sata1", "local:100/vm-100-disk-0.qcow2,size=32G")] true
      = Some (vmx, tasks) /\
    Dict.get vmx "sata0:0.fileName" = Some "vm-sata0-disk-0.vmdk" /\
    ~ exists t, In t tasks /\ vmdk_name t = "vm-sata0-disk-0.vmdk".
Proof.
  destruct (process_conf [("name", "vm"); ("sata0", "local:iso/x.iso,media=cdrom");
                          ("sata1", "local:100/vm-100-disk-0.qcow2,size=32G")] true)
    as [[vmx tasks]|] eqn:H; [|vm_compute in H; discriminate H].
  exists vmx, tasks. split; [reflexivity|].
  destruct (iso_cdrom_takes_slot_without_task _ true vmx tasks
              [("name", "vm")] [("sata1", "local:100/vm-100-disk-0.qcow2,size=32G")]
              "sata0" "local:iso/x.iso,media=cdrom" H eq_refl eq_refl eq_refl)
    as (_ & _ & _ & _ & Hf & Ht).
  split; [exact Hf|]. intros Hex. apply Ht in Hex. discriminate Hex.
Defined.

(** The drive of the example, run. *)
Example iso_cdrom_example :
  process_conf [("name", "vm"); ("sata0", "local:iso/x.iso,media=cdrom")] true
  = Some ([(".encoding", "UTF-8"); ("displayName", "vm"); ("numvcpus", "1");
           ("memsize", "4096"); ("guestOS", "other-64"); ("tools.syncTime", "TRUE");
           ("virtualHW.version", "19"); ("config.version", "8");
           ("sata0.present", "TRUE"); ("sata0:0.present", "TRUE");
           ("sata0:0.fileName", "vm-sata0-disk-0.vmdk")], []).
Proof. vm_compute. reflexivity. Qed.

(** *** File names *)

Lemma loop_body_names (pm : bool) (vm_name : string) (item : string * string)
    (st st' : state) :
  loop_body pm vm_name item st = Some st' ->
  names_ok vm_name (vmx_cfg st) -> names_ok vm_name (vmx_cfg st').
Proof.
  destruct item as [key entry]. intros H Hok d n file.
  apply loop_body_inv in H as [(_ & _ & ->)|[(_ & _ & ->)|(_ & _ & m & _ & ->)]].
  - apply Hok.
  - unfold disk_state. cbn [vmx_cfg]. rewrite get_set.
    destruct (String.eqb_spec
                (slot_key (family key) (disk_id_get (disk_id st) (family key)) "fileName")
                (slot_key d n "fileName")) as [E|_].
    { apply slot_key_inj in E as (<- & <- & _). now intros [= <-]. }
    rewrite get_set_other
      by (intros E; apply slot_key_inj in E as (_ & _ & E); discriminate).
    rewrite get_set_other by (apply not_eq_sym, slot_key_not_dev; reflexivity).
    destruct (match_scsi_key key); [|apply Hok].
    rewrite get_set_other; [apply Hok|].
    apply not_eq_sym, (slot_key_not_dev d scsi0 n "fileName" ".virtualDev"). reflexivity.
  - unfold net_state. cbn [vmx_cfg].
    destruct pm; rewrite !get_set_other by apply not_eq_sym, slot_key_not_eth; apply Hok.
Qed.

Lemma run_loop_names (pm : bool) (vm_name : string) (items : list (string * string))
    (st st' : state) :
  run_loop pm vm_name items st = Some st' ->
  names_ok vm_name (vmx_cfg st) -> names_ok vm_name (vmx_cfg st').
Proof.
  revert st. induction items as [|item items IH]; intros st H Hok.
  - now injection H as <-.
  - apply run_loop_cons_inv in H as (st1 & H1 & H2).
    apply (IH st1 H2). now apply loop_body_names with pm item st.
Qed.

(** C9, as stated, fails: this mapping has no name, and the mapper raises
    on it, because its network key holds a superscript digit that [int]
    does not read. *)
Lemma nameless_mapping_can_fail :
  Dict.get [("cores", "2");
            ("net0" ++ String (ascii_of_nat 178) "", "virtio=AA:BB:CC:DD:EE:FF")] "name" = None /\
  process_conf [("cores", "2");
                ("net0" ++ String (ascii_of_nat 178) "", "virtio=AA:BB:CC:DD:EE:FF")] true = None.
Proof. split; vm_compute; reflexivity. Qed.

(** C9, amended. A mapping without the key [name], in which the digit
    characters of every network key are decimal digits and at most 4300,
    does not make the mapper fail: it returns; the display name it emits is
    the empty string; every enumerated disk gets, at its slot, the file name
    [-{family}-disk-{N}.vmdk], which a task carries too when the disk is
    converted; and no other file name occurs in the descriptor or in the
    tasks. *)
Theorem missing_name_is_empty_name (cfg : Dict.t string) (pm : bool) :
  Dict.get cfg "name" = None ->
  net_ids_ok cfg = true ->
  exists vmx tasks,
    process_conf cfg pm = Some (vmx, tasks) /\
    Dict.get vmx "displayName" = Some "" /\
    (forall pre key entry post,
       cfg = (pre ++ (key, entry) :: post)%list ->
       is_disk (key, entry) = true ->
       let d := family key in
       let file := "-" ++ dev_name d ++ "-disk-" ++ str_of_nat (slot d pre) ++ ".vmdk" in
       Dict.get vmx (slot_key d (slot d pre) "fileName") = Some file /\
       ((contains ".qcow2" entry || contains ".vmdk" entry || contains ".raw" entry) = true ->
        In {| disk_file := before "," entry; vmdk_name := file |} tasks)) /\
    (forall d n file,
       Dict.get vmx (slot_key d n "fileName") = Some file ->
       file = "-" ++ dev_name d ++ "-disk-" ++ str_of_nat n ++ ".vmdk") /\
    (forall t, In t tasks ->
       exists d n, vmdk_name t = "-" ++ dev_name d ++ "-disk-" ++ str_of_nat n ++ ".vmdk").
Proof.
  intros Hname Hok.
  destruct (proj2 (process_conf_defined cfg pm) Hok) as (vmx & tasks & H).
  exists vmx, tasks. split; [exact H|].
  pose proof (process_conf_tasks _ _ _ _ H) as Ht.
  assert (Dict.get_default cfg "name" "" = "") as Hdef
    by (unfold Dict.get_default; now rewrite Hname).
  split; [|split; [|split]].
  - apply process_conf_view in H as (v & st & Hr & -> & _ & _ & Hdn & _).
    rewrite Hdef in Hdn.
    now rewrite (run_loop_frame _ _ _ _ _ "displayName" eq_refl Hr).
  - intros pre key entry post Hcfg Hd d file.
    destruct (process_conf_slot _ _ _ _ _ _ _ _ H Hcfg Hd) as [_ Hf].
    rewrite Hdef in Hf. split; [exact Hf|].
    fold (convertible entry). intros Hc. rewrite Ht, Hdef. apply tasks_from_in.
    exists pre, key, entry, post. split; [exact Hcfg|]. split; [exact Hd|].
    split; [exact Hc | reflexivity].
  - apply process_conf_view in H as (v & st & Hr & -> & _ & _ & _ & _ & _ & Hloop).
    rewrite Hdef in Hr. intros d n file Hf.
    apply (run_loop_names _ _ _ _ _ Hr) in Hf; [exact Hf|].
    intros d' n' f'. cbn [vmx_cfg]. now rewrite Hloop by apply loop_key_slot.
  - intros t Hin. rewrite Ht, Hdef in Hin.
    apply tasks_from_in in Hin as (pre & key & entry & post & _ & _ & _ & ->).
    eexists _, _. reflexivity.
Qed.

Lemma missing_name_is_empty_name_witness :
  exists vmx tasks,
    process_conf [("cores", "2"); ("scsi0", "local:100/vm-100-disk-0.qcow2,size=32G");
                  ("net0", "virtio=AA:BB:CC:DD:EE:FF,bridge=vmbr0")] false
      = Some (vmx, tasks) /\
    Dict.get vmx "displayName" = Some "" /\
    Dict.get vmx "scsi0:0.fileName" = Some "-scsi0-disk-0.vmdk" /\
    In {| disk_file := "local:100/vm-100-disk-0.qcow2"; vmdk_name := "-scsi0-disk-0.vmdk" |}
       tasks.
Proof.
  destruct (missing_name_is_empty_name
              [("cores", "2"); ("scsi0", "local:100/vm-100-disk-0.qcow2,size=32G");
               ("net0", "virtio=AA:BB:CC:DD:EE:FF,bridge=vmbr0")] false eq_refl eq_refl)
    as (vmx & tasks & H & Hd & Hdisk & _).
  exists vmx, tasks. split; [exact H|]. split; [exact Hd|].
  destruct (Hdisk [("cores", "2")] "scsi0" "local:100/vm-100-disk-0.qcow2,size=32G"
              [("net0", "virtio=AA:BB:CC:DD:EE:FF,bridge=vmbr0")] eq_refl eq_refl)
    as [Hf Ht].
  split; [exact Hf | exact (Ht eq_refl)].
Defined.

(** A mapping without a name, run. *)
Example missing_name_example :
  process_conf [("scsi0", "local:100/vm-100-disk-0.qcow2,size=32G")] false
  = Some ([(".encoding", "UTF-8"); ("displayName", ""); ("numvcpus", "1");
           ("memsize", "4096"); ("guestOS", "other-64"); ("tools.syncTime", "TRUE");
           ("virtualHW.version", "19"); ("config.version", "8");
           ("scsi0.virtualDev", "lsilogic"); ("scsi0.present", "TRUE");
           ("scsi0:0.present", "TRUE"); ("scsi0:0.fileName", "-scsi0-disk-0.vmdk")],
          [{| disk_file := "local:100/vm-100-disk-0.qcow2";
              vmdk_name := "-scsi0-disk-0.vmdk" |}]).
Proof. vm_compute. reflexivity. Qed.

(** *** The parser *)

Lemma parse_line_eq (cfg : Dict.t string) (line : string) :
  parse_line cfg line = Some (store cfg (line_pair line)).
Proof.
  unfold parse_line, line_pair, split1. rewrite partition_char.
  destruct (String.eqb (strip line) ""); [reflexivity|].
  now destruct (contains ":" (strip line)).
Qed.

Lemma store_app (cfg : Dict.t string) (a b : list (string * string)) :
  store cfg (a ++ b) = store (store cfg a) b.
Proof. apply fold_left_app. Qed.

Lemma parse_lines_eq (cfg : Dict.t string) (lines : list string) :
  parse_lines cfg lines = Some (store cfg (line_pairs lines)).
Proof.
  revert cfg. induction lines as [|line lines IH]; intros cfg; [reflexivity|].
  cbn [parse_lines]. rewrite parse_line_eq. cbn [bind]. rewrite IH.
  unfold line_pairs. cbn [flat_map]. now rewrite store_app.
Qed.

(** A key reads the value of the last pair that carries it. *)
Lemma store_get (cfg : Dict.t string) (pairs : list (string * string)) (k : string) :
  Dict.get (store cfg pairs) k =
  match last_value pairs k with
  | Some v => Some v
  | None => Dict.get cfg k
  end.
Proof.
  unfold last_value. revert cfg.
  induction pairs as [|[k' v'] pairs IH]; intros cfg; [reflexivity|].
  cbn [store fold_left fst snd List.rev]. fold (store (Dict.set cfg k' v') pairs).
  rewrite IH, get_app, get_set. cbn [Dict.get].
  destruct (Dict.get (List.rev pairs) k); [reflexivity|].
  now destruct (String.eqb k' k).
Qed.

Lemma store_nodup (cfg : Dict.t string) (pairs : list (string * string)) :
  NoDup (map fst cfg) -> NoDup (map fst (store cfg pairs)).
Proof.
  revert cfg. induction pairs as [|p pairs IH]; intros cfg H; [exact H|].
  apply IH. now apply set_nodup.
Qed.

(** C8. The parser goes through every line of the text and never aborts:
    a line that, once trimmed, is empty or holds no colon is skipped; any
    other line is cut at its first colon only, both parts are trimmed, and
    the pair is stored, a later pair overwriting the value of an earlier
    one with the same key. *)
Theorem parse_conf_rule (fs : filesystem) (filepath text : string) :
  fs filepath = Some text ->
  let lines := readlines (translate_newlines text) in
  exists cfg,
    parse_conf fs filepath = Some cfg /\
    (forall k, Dict.get cfg k = last_value (flat_map line_pair lines) k) /\
    NoDup (map fst cfg) /\
    (forall line,
       (strip line = "" \/ contains ":" (strip line) = false -> line_pair line = []) /\
       (strip line <> "" -> contains ":" (strip line) = true ->
        exists a b,
          strip line = a ++ ":" ++ b /\ contains ":" a = false /\
          line_pair line = [(strip a, strip b)])).
Proof.
  intros Hfs lines. exists (store [] (line_pairs lines)).
  split; [|split; [|split]].
  - unfold parse_conf. rewrite Hfs. cbn [bind]. apply parse_lines_eq.
  - intros k. rewrite store_get. fold (line_pairs lines).
    now destruct (last_value (line_pairs lines) k).
  - apply store_nodup. constructor.
  - intros line. unfold line_pair. split.
    + intros [E|C].
      * now rewrite E.
      * rewrite C. now rewrite andb_false_r.
    + intros E C. apply String.eqb_neq in E. rewrite E, C. simpl.
      exists (before ":" (strip line)), (after ":" (strip line)).
      split; [now apply before_after|]. split; [apply before_free | reflexivity].
Qed.

Lemma parse_conf_rule_witness :
  exists cfg,
    parse_conf (fun _ => Some sample_conf) "/etc/pve/qemu-server/100.conf" = Some cfg /\
    Dict.get cfg "name" = Some "web:01" /\ Dict.get cfg "cores" = Some "2".
Proof.
  destruct (parse_conf_rule (fun _ => Some sample_conf) "/etc/pve/qemu-server/100.conf" _ eq_refl) as (cfg & H & Hget & _).
  exists cfg. split; [exact H|]. rewrite !Hget. split; vm_compute; reflexivity.
Defined.

(** The same text, parsed: the order of the keys is that of their first
    occurrence. *)
Example parse_conf_example :
  parse_conf (fun _ => Some sample_conf) "/etc/pve/qemu-server/100.conf" = Some [("name", "web:01"); ("cores", "2")].
Proof. vm_compute. reflexivity. Qed.

(** A missing file is the only way the parser fails. *)
Lemma parse_conf_ioerror (fs : filesystem) (filepath : string) :
  parse_conf fs filepath = None <-> fs filepath = None.
Proof.
  unfold parse_conf. destruct (fs filepath) as [text|]; cbn [bind].
  - rewrite parse_lines_eq. split; discriminate.
  - tauto.
Qed.
End Claims.

(** * Further properties of the program *)

Section MapperFacts.
Import PyStr Re Prox2vmx Spec.

(** ** The fixed part of the descriptor *)

Lemma set_app_keep {V : Type} (a b : Dict.t V) (k : string) (v : V) :
  Forall (fun p => fst p <> k) a ->
  Dict.set (a ++ b)%list k v = (a ++ Dict.set b k v)%list.
Proof.
  induction a as [|[k' v'] a IH]; intros H; [reflexivity|].
  inversion H as [|? ? Hk Ha]; subst. simpl in *.
  apply String.eqb_neq in Hk. rewrite Hk. now rewrite IH.
Qed.

Lemma fixed_not_loop_key (cfg : Dict.t string) (k : string) :
  loop_key k = true -> Forall (fun p => fst p <> k) (fixed_entries cfg).
Proof.
  intros Hk. unfold fixed_entries.
  repeat constructor; cbn [fst]; intros <-; discriminate.
Qed.

Lemma scalars_fixed (cfg : Dict.t string) :
  exists rest, scalars cfg = Some (fixed_entries cfg ++ rest)%list.
Proof.
  unfold scalars.
  change (Dict.set
            (Dict.set
               (Dict.set
                  (Dict.set
                     (Dict.set
                        (Dict.set
                           (Dict.set (Dict.set [] ".encoding" "UTF-8") "displayName"
                              (Dict.get_default cfg "name" "")) "numvcpus"
                           (Dict.get_default cfg "cores" "1")) "memsize"
                        (Dict.get_default cfg "memory" "4096")) "guestOS"
                     (Dict.get_default GUESTOS_MAP (Dict.get_default cfg "ostype" "")
                        "other-64")) "tools.syncTime" "TRUE") "virtualHW.version" "19")
            "config.version" "8")
    with (fixed_entries cfg ++ [])%list.
  assert (forall k, In k ["firmware"; "efi.present"; "uuid.bios"] ->
                    Forall (fun p => fst p <> k) (fixed_entries cfg)) as Hk.
  { intros k Hin. unfold fixed_entries.
    repeat constructor; cbn [fst]; intros <-;
      repeat (destruct Hin as [Hin|Hin]; [discriminate Hin|]); exact Hin. }
  assert (exists r, (if wants_efi cfg
                     then Dict.set (Dict.set (fixed_entries cfg ++ [])%list "firmware" "efi")
                            "efi.present" "TRUE"
                     else (fixed_entries cfg ++ [])%list)
                    = (fixed_entries cfg ++ r)%list) as (r & ->).
  { destruct (wants_efi cfg); [|eauto].
    rewrite !set_app_keep by (apply Hk; simpl; auto). eauto. }
  destruct (Dict.get cfg "smbios1") as [s|]; [|eauto].
  destruct (contains "uuid=" s) eqn:C; [|eauto].
  rewrite split_second by discriminate. unfold second_piece.
  destruct (partition "uuid=" s) as [[a b]|] eqn:P.
  2:{ apply partition_none in P. congruence. }
  destruct (partition "uuid=" b) as [[u ?]|]; cbn [bind];
    rewrite set_app_keep by (apply Hk; simpl; auto); eauto.
Qed.

Lemma loop_body_prefix (pm : bool) (vm_name : string) (item : string * string)
    (st st' : state) (a r : Dict.t string) :
  (forall k, loop_key k = true -> Forall (fun p => fst p <> k) a) ->
  loop_body pm vm_name item st = Some st' ->
  vmx_cfg st = (a ++ r)%list ->
  exists r', vmx_cfg st' = (a ++ r')%list.
Proof.
  destruct item as [key entry]. intros Ha H E.
  apply loop_body_inv in H as [(_ & _ & ->)|[(_ & _ & ->)|(_ & _ & n & _ & ->)]].
  - eauto.
  - unfold disk_state. cbn [vmx_cfg]. rewrite E.
    destruct (match_scsi_key key);
      rewrite !set_app_keep
        by (apply Ha; first [apply loop_key_slot | apply loop_key_dev | reflexivity]);
      eauto.
  - unfold net_state. cbn [vmx_cfg]. rewrite E.
    destruct pm; rewrite !set_app_keep by (apply Ha, loop_key_eth); eauto.
Qed.

Lemma run_loop_prefix (pm : bool) (vm_name : string) (items : list (string * string))
    (st st' : state) (a r : Dict.t string) :
  (forall k, loop_key k = true -> Forall (fun p => fst p <> k) a) ->
  run_loop pm vm_name items st = Some st' ->
  vmx_cfg st = (a ++ r)%list ->
  exists r', vmx_cfg st' = (a ++ r')%list.
Proof.
  intros Ha. revert st r. induction items as [|item items IH]; intros st r H E.
  - injection H as <-. eauto.
  - apply run_loop_cons_inv in H as (st1 & H1 & H2).
    destruct (loop_body_prefix _ _ _ _ _ a r Ha H1 E) as (r1 & E1). eauto.
Qed.

(** Every returned descriptor begins with the same eight keys, in the
    order of the source: the encoding marker, the display name, the CPU
    count (["1"] without [cores]), the memory size (["4096"] without
    [memory]), the guest OS of the table (["other-64"] without [ostype] or
    for a type the table does not hold) and the three fixed values. *)
Theorem descriptor_begins_with_fixed_entries (cfg : Dict.t string) (pm : bool)
    (vmx : Dict.t string) (tasks : list task) :
  process_conf cfg pm = Some (vmx, tasks) ->
  exists rest,
    vmx = ([ (".encoding", "UTF-8");
             ("displayName", match Dict.get cfg "name" with Some v => v | None => "" end);
             ("numvcpus", match Dict.get cfg "cores" with Some v => v | None => "1" end);
             ("memsize", match Dict.get cfg "memory" with Some v => v | None => "4096" end);
             ("guestOS",
              match Dict.get cfg "ostype" with
              | Some os => match Dict.get GUESTOS_MAP os with
                           | Some g => g
                           | None => "other-64"
                           end
              | None => "other-64"
              end);
             ("tools.syncTime", "TRUE");
             ("virtualHW.version", "19");
             ("config.version", "8") ] ++ rest)%list.
Proof.
  intros H. apply process_conf_inv in H as (v & st & Hs & Hr & -> & _).
  destruct (scalars_fixed cfg) as (r & Hf). rewrite Hf in Hs. injection Hs as <-.
  destruct (run_loop_prefix _ _ _ _ _ (fixed_entries cfg) r
              (fixed_not_loop_key cfg) Hr eq_refl) as (r' & ->).
  exists r'. unfold fixed_entries, Dict.get_default.
  now destruct (Dict.get cfg "ostype").
Qed.

Lemma descriptor_begins_with_fixed_entries_witness :
  exists vmx tasks rest,
    process_conf [("ostype", "win10"); ("scsi0", "local:100/vm-100-disk-0.qcow2")] false
      = Some (vmx, tasks) /\
    vmx = ([ (".encoding", "UTF-8"); ("displayName", ""); ("numvcpus", "1");
             ("memsize", "4096"); ("guestOS", "windows2019srv-64");
             ("tools.syncTime", "TRUE"); ("virtualHW.version", "19");
             ("config.version", "8") ] ++ rest)%list.
Proof.
  destruct (process_conf [("ostype", "win10"); ("scsi0", "local:100/vm-100-disk-0.qcow2")] false)
    as [[vmx tasks]|] eqn:H; [|vm_compute in H; discriminate H].
  destruct (descriptor_begins_with_fixed_entries _ _ _ _ H) as (rest & E).
  exists vmx, tasks, rest. split; [reflexivity | exact E].
Defined.

(** ** Slots, controllers and tasks *)

Lemma counted_iff (d : dev) (key entry : string) :
  counted d (key, entry) = true <-> is_disk (key, entry) = true /\ family key = d.
Proof.
  unfold counted. cbn [fst]. rewrite andb_true_iff, dev_eqb_eq. tauto.
Qed.

Lemma slot_nth (d : dev) (items : list (string * string)) (n : nat) :
  n < slot d items ->
  exists pre key entry post,
    items = (pre ++ (key, entry) :: post)%list /\
    counted d (key, entry) = true /\ slot d pre = n.
Proof.
  revert n. induction items as [|[k e] items IH]; intros n Hn.
  - unfold slot in Hn. simpl in Hn. lia.
  - rewrite slot_cons in Hn. destruct (counted d (k, e)) eqn:C.
    + destruct n as [|m].
      * exists [], k, e, items. repeat split. exact C.
      * destruct (IH m) as (pre & key & entry & post & -> & Hc & Hs); [lia|].
        exists ((k, e) :: pre), key, entry, post.
        split; [reflexivity|]. split; [exact Hc|]. rewrite slot_cons, C. lia.
    + destruct (IH n) as (pre & key & entry & post & -> & Hc & Hs); [lia|].
      exists ((k, e) :: pre), key, entry, post.
      split; [reflexivity|]. split; [exact Hc|]. rewrite slot_cons, C. lia.
Qed.

(** Slots not handed out yet hold nothing, before and after an iteration. *)
Lemma loop_body_unused (pm : bool) (vm_name : string) (item : string * string)
    (st st' : state) :
  loop_body pm vm_name item st = Some st' ->
  (forall d n a, disk_id_get (disk_id st) d <= n ->
                 Dict.get (vmx_cfg st) (slot_key d n a) = None) ->
  forall d n a, disk_id_get (disk_id st') d <= n ->
                Dict.get (vmx_cfg st') (slot_key d n a) = None.
Proof.
  destruct item as [key entry]. intros H Hun d n a Hn.
  pose proof (loop_body_counter _ _ _ _ _ d H) as Hc.
  apply loop_body_inv in H as [(_ & _ & ->)|[(Hd & _ & ->)|(_ & _ & m & _ & ->)]].
  - now apply Hun.
  - unfold disk_state. cbn [vmx_cfg].
    assert (forall b, slot_key (family key) (disk_id_get (disk_id st) (family key)) b
                      <> slot_key d n a) as Hs.
    { intros b E. apply slot_key_inj in E as (<- & E & _).
      unfold counted in Hc. cbn [fst] in Hc. rewrite Hd in Hc.
      replace (dev_eqb (family key) (family key)) with true in Hc
        by (now destruct (family key)).
      unfold disk_state in Hn, Hc. cbn [disk_id andb] in Hn, Hc. lia. }
    rewrite !get_set_other by apply Hs.
    rewrite get_set_other by (apply not_eq_sym, slot_key_not_dev; reflexivity).
    assert (Dict.get (vmx_cfg st) (slot_key d n a) = None) as Hnone by (apply Hun; lia).
    destruct (match_scsi_key key); [|exact Hnone].
    rewrite get_set_other; [exact Hnone|].
    apply not_eq_sym, (slot_key_not_dev d scsi0 n a ".virtualDev"). reflexivity.
  - unfold net_state. cbn [vmx_cfg].
    destruct pm; rewrite !get_set_other by apply not_eq_sym, slot_key_not_eth;
      apply Hun; cbn [disk_id] in Hn; exact Hn.
Qed.

Lemma run_loop_unused (pm : bool) (vm_name : string) (items : list (string * string))
    (st st' : state) :
  run_loop pm vm_name items st = Some st' ->
  (forall d n a, disk_id_get (disk_id st) d <= n ->
                 Dict.get (vmx_cfg st) (slot_key d n a) = None) ->
  forall d n a, disk_id_get (disk_id st') d <= n ->
                Dict.get (vmx_cfg st') (slot_key d n a) = None.
Proof.
  revert st. induction items as [|item items IH]; intros st H Hun.
  - now injection H as <-.
  - apply run_loop_cons_inv in H as (st1 & H1 & H2).
    apply (IH st1 H2). now apply loop_body_unused with pm vm_name item st.
Qed.

Lemma process_conf_counter (cfg : Dict.t string) (pm : bool) (v : Dict.t string)
    (st : state) (d : dev) :
  run_loop pm (Dict.get_default cfg "name" "") cfg
    {| vmx_cfg := v; convert_tasks := [];
       disk_id := {| sata0_id := 0; scsi0_id := 0 |} |} = Some st ->
  disk_id_get (disk_id st) d = slot d cfg.
Proof.
  intros Hr. rewrite (run_loop_counter _ _ _ _ _ d Hr). now destruct d.
Qed.

(** The slots of a family that the descriptor fills are exactly those
    numbered below the count of its enumerated disks: each of them is
    marked present and names its file, and no key exists for any slot from
    the count on. *)
Theorem slots_filled_below_count (cfg : Dict.t string) (pm : bool)
    (vmx : Dict.t string) (tasks : list task) (d : dev) (n : nat) :
  process_conf cfg pm = Some (vmx, tasks) ->
  (n < List.length (filter (counted d) cfg) ->
   Dict.get vmx (slot_key d n "present") = Some "TRUE" /\
   Dict.get vmx (slot_key d n "fileName")
     = Some (vmdk_file (Dict.get_default cfg "name" "") d n)) /\
  (List.length (filter (counted d) cfg) <= n ->
   forall attr, Dict.get vmx (slot_key d n attr) = None).
Proof.
  intros H. fold (slot d cfg). split.
  - intros Hn. apply slot_nth in Hn as (pre & key & entry & post & E & Hc & <-).
    apply counted_iff in Hc as [Hd <-].
    exact (process_conf_slot _ _ _ _ _ _ _ _ H E Hd).
  - intros Hn attr.
    apply process_conf_view in H as (v & st & Hr & -> & _ & _ & _ & _ & _ & Hloop).
    apply (run_loop_unused _ _ _ _ _ Hr).
    + intros d' n' a' _. cbn [vmx_cfg]. apply Hloop, loop_key_slot.
    + now rewrite (process_conf_counter _ _ _ _ d Hr).
Qed.

Lemma slots_filled_below_count_witness :
  exists vmx tasks,
    process_conf [("sata1", "none,media=cdrom"); ("sata5", "local:100/a.qcow2");
                  ("efidisk0", "local:100/b.raw,size=4M")] false = Some (vmx, tasks) /\
    Dict.get vmx (slot_key sata0 1 "fileName") = Some "-sata0-disk-1.vmdk" /\
    Dict.get vmx (slot_key sata0 2 "fileName") = None.
Proof.
  destruct (process_conf [("sata1", "none,media=cdrom"); ("sata5", "local:100/a.qcow2");
                          ("efidisk0", "local:100/b.raw,size=4M")] false)
    as [[vmx tasks]|] eqn:H; [|vm_compute in H; discriminate H].
  exists vmx, tasks. split; [reflexivity|]. split.
  - refine (proj2 (proj1 (slots_filled_below_count _ _ _ _ sata0 1 H) _)).
    vm_compute. lia.
  - refine (proj2 (slots_filled_below_count _ _ _ _ sata0 2 H) _ "fileName").
    vm_compute. lia.
Defined.

(** One iteration marks the controller of the disk it enumerates, and
    pins the adapter of the second family; it touches no other controller
    key. *)
Lemma loop_body_controller (pm : bool) (vm_name : string) (item : string * string)
    (st st' : state) (d : dev) :
  loop_body pm vm_name item st = Some st' ->
  Dict.get (vmx_cfg st') (dev_name d ++ ".present")
    = (if counted d item then Some "TRUE"
       else Dict.get (vmx_cfg st) (dev_name d ++ ".present")) /\
  Dict.get (vmx_cfg st') "scsi0.virtualDev"
    = (if counted scsi0 item then Some "lsilogic"
       else Dict.get (vmx_cfg st) "scsi0.virtualDev").
Proof.
  destruct item as [key entry]. intros H. unfold counted. cbn [fst].
  apply loop_body_inv in H as [(Hd & _ & ->)|[(Hd & _ & ->)|(Hd & _ & n & _ & ->)]];
    rewrite Hd; cbn [andb].
  - auto.
  - unfold disk_state, family. cbn [vmx_cfg]. split.
    + rewrite !get_set_other by (apply slot_key_not_dev; reflexivity).
      rewrite get_set.
      destruct (match_scsi_key key), d; cbn [dev_eqb dev_name];
        try reflexivity; now rewrite ?get_set_other by discriminate.
    + rewrite !get_set_other
        by (apply (slot_key_not_dev _ scsi0 _ _ ".virtualDev"); reflexivity).
      destruct (match_scsi_key key); cbn [dev_eqb dev_name].
      * rewrite get_set_other by discriminate. apply get_set_same.
      * now rewrite get_set_other by discriminate.
  - unfold net_state. cbn [vmx_cfg]. split.
    + destruct pm; now rewrite !get_set_other by apply eth_key_not_dev.
    + destruct pm;
        now rewrite !get_set_other by apply (eth_key_not_dev _ _ scsi0 ".virtualDev").
Qed.

Lemma run_loop_controller (pm : bool) (vm_name : string) (items : list (string * string))
    (st st' : state) (d : dev) :
  run_loop pm vm_name items st = Some st' ->
  Dict.get (vmx_cfg st') (dev_name d ++ ".present")
    = (if existsb (counted d) items then Some "TRUE"
       else Dict.get (vmx_cfg st) (dev_name d ++ ".present")) /\
  Dict.get (vmx_cfg st') "scsi0.virtualDev"
    = (if existsb (counted scsi0) items then Some "lsilogic"
       else Dict.get (vmx_cfg st) "scsi0.virtualDev").
Proof.
  revert st. induction items as [|item items IH]; intros st H.
  - injection H as <-. auto.
  - apply run_loop_cons_inv in H as (st1 & H1 & H2).
    destruct (IH st1 H2) as [Ip Iv]. destruct (loop_body_controller _ _ _ _ _ d H1) as [Bp Bv].
    rewrite Ip, Iv, Bp, Bv. cbn [existsb].
    destruct (counted d item), (counted scsi0 item), (existsb (counted d) items),
      (existsb (counted scsi0) items); auto.
Qed.

(** A controller is marked present exactly when a disk is enumerated in
    its family, and the adapter model is pinned exactly when the second
    family has a disk; a descriptor never names a controller without a
    disk.  Entries under [efidisk] keys count for the first family. *)
Theorem controllers_follow_disks (cfg : Dict.t string) (pm : bool)
    (vmx : Dict.t string) (tasks : list task) :
  process_conf cfg pm = Some (vmx, tasks) ->
  Dict.get vmx "sata0.present"
    = (if existsb (fun item => is_disk item && negb (match_scsi_key (fst item))) cfg
       then Some "TRUE" else None) /\
  Dict.get vmx "scsi0.present"
    = (if existsb (fun item => is_disk item && match_scsi_key (fst item)) cfg
       then Some "TRUE" else None) /\
  Dict.get vmx "scsi0.virtualDev"
    = (if existsb (fun item => is_disk item && match_scsi_key (fst item)) cfg
       then Some "lsilogic" else None).
Proof.
  intros H.
  apply process_conf_view in H as (v & st & Hr & -> & _ & _ & _ & _ & _ & Hloop).
  assert (forall (l : list (string * string)) d,
            existsb (counted d) l
            = existsb (fun item => is_disk item &&
                         match d with
                         | sata0 => negb (match_scsi_key (fst item))
                         | scsi0 => match_scsi_key (fst item)
                         end) l) as Hex.
  { intros l d. induction l as [|[k e] l IH]; [reflexivity|].
    cbn [existsb]. rewrite IH. f_equal. unfold counted, family. cbn [fst].
    now destruct d, (match_scsi_key k). }
  destruct (run_loop_controller _ _ _ _ _ sata0 Hr) as [Hs _].
  destruct (run_loop_controller _ _ _ _ _ scsi0 Hr) as [Hc Hv].
  cbn [vmx_cfg dev_name String.append] in Hs, Hc, Hv.
  rewrite (Hex cfg sata0) in Hs. rewrite (Hex cfg scsi0) in Hc, Hv.
  rewrite (Hloop "sata0.present" eq_refl) in Hs.
  rewrite (Hloop "scsi0.present" eq_refl) in Hc.
  rewrite (Hloop "scsi0.virtualDev" eq_refl) in Hv.
  auto.
Qed.

Lemma controllers_follow_disks_witness :
  exists vmx tasks,
    process_conf [("efidisk0", "local:100/vm-100-disk-1.raw,size=4M");
                  ("scsi0", "none,media=cdrom")] true = Some (vmx, tasks) /\
    Dict.get vmx "sata0.present" = Some "TRUE" /\
    Dict.get vmx "scsi0.present" = None /\
    Dict.get vmx "scsi0.virtualDev" = None.
Proof.
  destruct (process_conf [("efidisk0", "local:100/vm-100-disk-1.raw,size=4M");
                          ("scsi0", "none,media=cdrom")] true)
    as [[vmx tasks]|] eqn:H; [|vm_compute in H; discriminate H].
  exists vmx, tasks. split; [reflexivity|].
  exact (controllers_follow_disks _ _ _ _ H).
Defined.

(** *** The destinations of the tasks *)

Lemma tasks_from_bound (vm_name : string) (pre0 items : list (string * string)) (t : task) :
  In t (tasks_from vm_name pre0 items) ->
  exists d n, vmdk_name t = vmdk_file vm_name d n /\
              slot d pre0 <= n < slot d (pre0 ++ items).
Proof.
  intros H. apply tasks_from_in in H as (pre & key & entry & post & -> & Hd & _ & ->).
  exists (family key), (slot (family key) (pre0 ++ pre)). split; [reflexivity|].
  assert (counted (family key) (key, entry) = true) as C by (apply counted_iff; auto).
  rewrite !slot_app, slot_cons, C. lia.
Qed.

Lemma tasks_from_nodup (vm_name : string) (pre0 items : list (string * string)) :
  NoDup (map vmdk_name (tasks_from vm_name pre0 items)).
Proof.
  revert pre0. induction items as [|[k e] items IH]; intros pre0; [constructor|].
  cbn [tasks_from]. destruct (is_disk (k, e) && convertible e) eqn:B.
  - cbn [app map vmdk_name]. constructor; [|apply IH].
    intros Hin. apply in_map_iff in Hin as (t & Hname & Hin).
    apply tasks_from_bound in Hin as (d & n & Hn & Hlo & _).
    rewrite Hn in Hname. apply vmdk_file_inj in Hname as [-> ->].
    apply andb_prop in B as [Hd _].
    assert (counted (family k) (k, e) = true) as C by (apply counted_iff; auto).
    rewrite slot_app, slot_cons, C in Hlo. lia.
  - apply IH.
Qed.

(** No two conversion tasks write the same file, and the file of every
    task is the file some slot of the descriptor names. *)
Theorem tasks_write_distinct_named_files (cfg : Dict.t string) (pm : bool)
    (vmx : Dict.t string) (tasks : list task) :
  process_conf cfg pm = Some (vmx, tasks) ->
  NoDup (map vmdk_name tasks) /\
  forall t, In t tasks ->
    exists d n, Dict.get vmx (slot_key d n "fileName") = Some (vmdk_name t).
Proof.
  intros H. pose proof (process_conf_tasks _ _ _ _ H) as Ht. split.
  - rewrite Ht. apply tasks_from_nodup.
  - intros t Hin. rewrite Ht in Hin.
    apply tasks_from_bound in Hin as (d & n & -> & _ & Hn). exists d, n.
    rewrite app_nil_l in Hn.
    apply slot_nth in Hn as (pre & key & entry & post & E & Hc & <-).
    apply counted_iff in Hc as [Hd <-].
    exact (proj2 (process_conf_slot _ _ _ _ _ _ _ _ H E Hd)).
Qed.

Lemma tasks_write_distinct_named_files_witness :
  exists vmx tasks,
    process_conf [("name", "vm"); ("scsi0", "local:100/a.qcow2"); ("sata0", "local:100/b.raw");
                  ("scsi1", "local:100/c.vmdk")] true = Some (vmx, tasks) /\
    NoDup (map vmdk_name tasks).
Proof.
  destruct (process_conf [("name", "vm"); ("scsi0", "local:100/a.qcow2");
                          ("sata0", "local:100/b.raw"); ("scsi1", "local:100/c.vmdk")] true)
    as [[vmx tasks]|] eqn:H; [|vm_compute in H; discriminate H].
  exists vmx, tasks. split; [reflexivity|].
  exact (proj1 (tasks_write_distinct_named_files _ _ _ _ H)).
Defined.

(** ** Keys the mapper does not read *)

(** An entry whose key matches neither pattern and is not one of the seven
    keys read by name leaves no trace: the mapper returns what it returns
    for the mapping without it.  Disks under [ide], [virtio] and other
    buses are such entries. *)
Theorem unmatched_entries_are_ignored (pm : bool) (pre post : list (string * string))
    (key entry : string) :
  match_disk_key key = false ->
  match_net_key key = false ->
  ~ In key ["name"; "cores"; "memory"; "ostype"; "bios"; "efidisk0"; "smbios1"] ->
  process_conf (pre ++ (key, entry) :: post)%list pm = process_conf (pre ++ post)%list pm.
Proof.
  intros Hd Hn Hk. unfold process_conf.
  assert (forall k, In k read_keys ->
                    Dict.get (pre ++ (key, entry) :: post)%list k
                    = Dict.get (pre ++ post)%list k) as Hget.
  { intros k Hin. apply get_remove. intros <-. contradiction. }
  rewrite (scalars_ext _ _ Hget). unfold Dict.get_default.
  rewrite (Hget "name") by (unfold read_keys; simpl; tauto).
  destruct (scalars (pre ++ post)%list) as [v|]; [|reflexivity]. cbn [bind].
  rewrite run_loop_skip; [reflexivity|].
  intros s. now apply loop_body_other.
Qed.

Lemma unmatched_entries_are_ignored_witness :
  process_conf [("name", "vm"); ("virtio0", "local:100/vm-100-disk-0.qcow2,size=32G");
                ("ide2", "local:iso/debian.iso,media=cdrom")] false
  = process_conf [("name", "vm"); ("ide2", "local:iso/debian.iso,media=cdrom")] false.
Proof.
  apply (unmatched_entries_are_ignored false [("name", "vm")]
           [("ide2", "local:iso/debian.iso,media=cdrom")] "virtio0"
           "local:100/vm-100-disk-0.qcow2,size=32G"); try reflexivity.
  simpl. intros [H|[H|[H|[H|[H|[H|[H|[]]]]]]]]; discriminate H.
Defined.

(** ** The keys of an interface *)






(** ** When the mapper raises *)

Lemma net_ids_ok_false (cfg : list (string * string)) :
  net_ids_ok cfg = false <->
  exists key entry,
    In (key, entry) cfg /\ match_net_key key = true /\ readable_id key = false.
Proof.
  unfold net_ids_ok. induction cfg as [|[k e] l IH].
  - split; [discriminate|]. now intros (key & entry & [] & _).
  - cbn [forallb fst]. rewrite andb_false_iff, IH. split.
    + intros [F|(key & entry & Hin & Hk & Hs)].
      * exists k, e. destruct (match_net_key k) eqn:Hk; [|discriminate].
        split; [now left|]. split; [reflexivity | exact F].
      * exists key, entry. split; [now right|]. split; [exact Hk | exact Hs].
    + intros (key & entry & [E|Hin] & Hk & Hs).
      * injection E as -> ->. left. now rewrite Hk.
      * right. exists key, entry. split; [exact Hin|]. split; [exact Hk | exact Hs].
Qed.

Lemma readable_id_false (key : string) :
  readable_id key = false <-> has_superscript key = true \/ 4300 < count_digits key.
Proof.
  unfold readable_id. rewrite andb_false_iff, negb_false_iff, Nat.leb_gt. tauto.
Qed.

Lemma readable_id_true (key : string) :
  readable_id key = true <-> has_superscript key = false /\ count_digits key <= 4300.
Proof.
  unfold readable_id. rewrite andb_true_iff, negb_true_iff, Nat.leb_le. tauto.
Qed.

(** The mapper raises when some key that matches the network pattern holds
    a superscript digit, which [isdigit] keeps and [int] rejects, or more
    than 4300 digit characters, which [int] refuses to convert; it returns
    when the digit characters of every such key are decimal digits and at
    most 4300. *)
Theorem mapper_raises_on_unreadable_number (cfg : Dict.t string) (pm : bool) :
  ((exists key entry,
      In (key, entry) cfg /\ match_net_key key = true /\
      (has_superscript key = true \/ 4300 < count_digits key)) ->
   process_conf cfg pm = None) /\
  ((forall key entry,
      In (key, entry) cfg -> match_net_key key = true ->
      has_superscript key = false /\ count_digits key <= 4300) ->
   exists vmx tasks, process_conf cfg pm = Some (vmx, tasks)).
Proof.
  pose proof (process_conf_defined cfg pm) as Hdef. split.
  - intros (key & entry & Hin & Hk & Hbad).
    destruct (process_conf cfg pm) as [[vmx tasks]|] eqn:E; [|reflexivity].
    assert (net_ids_ok cfg = true) as Hok by (apply Hdef; eauto).
    assert (net_ids_ok cfg = false) as Hno.
    { apply net_ids_ok_false. exists key, entry.
      split; [exact Hin|]. split; [exact Hk|]. now apply readable_id_false. }
    congruence.
  - intros Hall. apply Hdef. destruct (net_ids_ok cfg) eqn:E; [reflexivity|].
    apply net_ids_ok_false in E as (key & entry & Hin & Hk & Hs).
    apply readable_id_false in Hs. destruct (Hall key entry Hin Hk) as [H1 H2].
    destruct Hs as [Hs|Hs]; [congruence | lia].
Qed.

Lemma mapper_raises_on_unreadable_number_witness :
  process_conf [("net" ++ replicate 4301 "1", "virtio=AA:BB:CC:DD:EE:FF")] true = None /\
  process_conf [("net0" ++ String (ascii_of_nat 178) "", "bridge=vmbr0")] false = None /\
  exists vmx tasks,
    process_conf [("net" ++ replicate 4300 "0", "virtio=AA:BB:CC:DD:EE:FF")] true
    = Some (vmx, tasks).
Proof.
  split; [|split].
  - apply (proj1 (mapper_raises_on_unreadable_number _ true)).
    exists ("net" ++ replicate 4301 "1"), "virtio=AA:BB:CC:DD:EE:FF".
    split; [now left|]. split; [reflexivity|]. right.
    apply Nat.ltb_lt. vm_compute. reflexivity.
  - apply (proj1 (mapper_raises_on_unreadable_number _ false)).
    exists ("net0" ++ String (ascii_of_nat 178) ""), "bridge=vmbr0".
    split; [now left|]. split; [reflexivity|]. left. reflexivity.
  - apply (proj2 (mapper_raises_on_unreadable_number _ true)).
    intros key entry [E|[]] _. injection E as <- _.
    split; [vm_compute; reflexivity|]. apply Nat.leb_le. vm_compute. reflexivity.
Defined.

(** Keys the mapper raises on, and keys it reads. *)
Example mapper_raises_example :
  process_conf [("net0" ++ String (ascii_of_nat 178) "", "virtio=AA:BB:CC:DD:EE:FF")] true = None /\
  nic_id_of ("net" ++ replicate 4301 "7") = None /\
  nic_id_of ("net" ++ replicate 4299 "0" ++ "7") = Some 7%N /\
  nic_id_of "net0a12" = Some 12%N.
Proof. repeat split; vm_compute; reflexivity. Qed.

(** ** The fields taken from a network entry *)

(** What the two searches of a network entry take: a match is a non-empty
    text without comma that follows some [name=] of the pattern and runs
    to the next comma or to the end; there is none exactly when every
    [name=] in the entry is followed at once by a comma or by the end.
    The pattern is not tied to the start of a field. *)
Theorem field_search_rule (names : list string) (s : string) :
  match search_kv names s with
  | Some v =>
      v <> "" /\ contains "," v = false /\
      exists name front tail,
        In name names /\ s = front ++ name ++ "=" ++ v ++ tail /\
        (tail = "" \/ String.prefix "," tail = true)
  | None =>
      forall name front rest,
        In name names -> s = front ++ name ++ "=" ++ rest ->
        rest = "" \/ String.prefix "," rest = true
  end.
Proof.
  induction s as [|c s IH]; rewrite search_kv_eq.
  - destruct (first_alt names "") as [v|] eqn:F.
    + apply first_alt_some in F as (name & Hin & Hm).
      apply match_here_some in Hm as (Hv & Hf & tail & E & Ht).
      split; [exact Hv|]. split; [exact Hf|]. exists name, "", tail. auto.
    + intros name front rest Hin E. destruct rest as [|x rest]; [now left|].
      destruct front; [|discriminate]. simpl in E.
      pose proof (first_alt_none _ _ name F Hin) as Hm. rewrite E in Hm.
      apply match_here_none in Hm; [|exact ""]. subst x. right.
      now rewrite prefix_cons, prefix_nil_l.
  - destruct (first_alt names (String c s)) as [v|] eqn:F.
    + apply first_alt_some in F as (name & Hin & Hm).
      apply match_here_some in Hm as (Hv & Hf & tail & E & Ht).
      split; [exact Hv|]. split; [exact Hf|]. exists name, "", tail. auto.
    + destruct (search_kv names s) as [v|].
      * destruct IH as (Hv & Hf & name & front & tail & Hin & E & Ht).
        split; [exact Hv|]. split; [exact Hf|].
        exists name, (String c front), tail. split; [exact Hin|].
        split; [simpl; f_equal; exact E | exact Ht].
      * intros name front rest Hin E. destruct front as [|y front].
        -- destruct rest as [|x rest]; [now left|]. simpl in E.
           pose proof (first_alt_none _ _ name F Hin) as Hm. rewrite E in Hm.
           apply match_here_none in Hm; [|exact ""]. subst x. right.
           now rewrite prefix_cons, prefix_nil_l.
        -- simpl in E. injection E as _ E. exact (IH name front rest Hin E).
Qed.

(** A model name inside a longer word is found all the same. *)
Example field_search_example :
  mac_of "bridge=vmbr0,xvirtio=AA:BB:CC:DD:EE:FF,e1000=" = "AA:BB:CC:DD:EE:FF" /\
  bridge_of "virtio=AA:BB:CC:DD:EE:FF,bridge=,tag=5" = "unknown".
Proof. split; vm_compute; reflexivity. Qed.

End MapperFacts.

Section WriterFacts.
Import PyStr Re Prox2vmx Spec.

(** ** The writer *)

Lemma free_app (c : ascii) (a b : string) :
  free_of c (a ++ b) <-> free_of c a /\ free_of c b.
Proof.
  induction a as [|x a IH]; simpl.
  - split; [intros H; split; [reflexivity | exact H] | tauto].
  - rewrite !free_cons, IH. tauto.
Qed.

Lemma append_inv_tail (a b c : string) : a ++ c = b ++ c -> a = b.
Proof.
  revert b. induction a as [|x a IH]; intros [|y b] H; simpl in H.
  - reflexivity.
  - apply (f_equal String.length) in H. simpl in H. rewrite string_length_app in H. lia.
  - apply (f_equal String.length) in H. simpl in H. rewrite string_length_app in H. lia.
  - injection H as -> H. f_equal. now apply IH.
Qed.

Lemma vmx_text_cons (k v : string) (rest : Dict.t string) :
  vmx_text ((k, v) :: rest)
  = ((k ++ " = ") ++ String DQUOTE (v ++ String DQUOTE "")) ++ String LF (vmx_text rest).
Proof.
  cbn [vmx_text]. unfold vmx_line.
  repeat first [rewrite append_assoc | progress cbn [String.append]]. reflexivity.
Qed.

(** The descriptor text tells the mapping it was written from, entry by
    entry and in order, as long as no key or value holds a line break and
    no key holds a double quote; values may hold double quotes, which are
    written as they are. *)
Theorem descriptor_text_determines_mapping (d1 d2 : Dict.t string) :
  Forall writable_entry d1 -> Forall writable_entry d2 ->
  vmx_text d1 = vmx_text d2 -> d1 = d2.
Proof.
  revert d2. induction d1 as [|[k1 v1] d1 IH]; intros [|[k2 v2] d2] H1 H2 E.
  - reflexivity.
  - rewrite vmx_text_cons in E. apply (f_equal String.length) in E.
    rewrite string_length_app in E. simpl in E. lia.
  - rewrite vmx_text_cons in E. apply (f_equal String.length) in E.
    rewrite string_length_app in E. simpl in E. lia.
  - inversion H1 as [|? ? (L1 & Q1 & V1) F1]; subst.
    inversion H2 as [|? ? (L2 & Q2 & V2) F2]; subst.
    cbn [fst snd] in *. rewrite !vmx_text_cons in E.
    assert (forall k v, free_of LF k -> free_of LF v ->
              free_of LF ((k ++ " = ") ++ String DQUOTE (v ++ String DQUOTE ""))) as Hl.
    { intros k v Hk Hv. apply free_app. split.
      - apply free_app. split; [exact Hk | reflexivity].
      - apply free_cons. split; [reflexivity|]. apply free_app. split; [exact Hv | reflexivity]. }
    apply cut_unique in E as [E Er]; [| now apply Hl | now apply Hl].
    apply cut_unique in E as [Ek Ev];
      [| apply free_app; split; [assumption | reflexivity]
       | apply free_app; split; [assumption | reflexivity]].
    apply append_inv_tail in Ek. apply append_inv_tail in Ev. subst.
    f_equal. now apply IH.
Qed.

Lemma descriptor_text_determines_mapping_witness :
  Forall writable_entry [("displayName", "web"); ("numvcpus", "2")] /\
  vmx_text [("displayName", "web"); ("numvcpus", "2")]
  = vmx_text (Dict.set [("displayName", "web")] "numvcpus" "2") /\
  [("displayName", "web"); ("numvcpus", "2")]
  = Dict.set [("displayName", "web")] "numvcpus" "2".
Proof.
  assert (Forall writable_entry [("displayName", "web"); ("numvcpus", "2")]) as H
    by (repeat constructor).
  split; [exact H|]. split; [reflexivity|].
  apply descriptor_text_determines_mapping; [exact H | exact H | reflexivity].
Defined.

(** With a double quote and a line break in a value, two mappings are
    written alike. *)
Example descriptor_text_ambiguous :
  vmx_text [("a", "x" ++ String DQUOTE (String LF ("b = " ++ String DQUOTE "y")))]
  = vmx_text [("a", "x"); ("b", "y")].
Proof. vm_compute. reflexivity. Qed.

End WriterFacts.

Section ConverterFacts.
Import PyStr Re Prox2vmx Spec.

(** ** The progress of a conversion *)

Lemma append_nil_r_string (a : string) : a ++ "" = a.
Proof. induction a as [|x a IH]; simpl; [reflexivity | now rewrite IH]. Qed.

Lemma partition_at_first (c : ascii) (x y : string) :
  free_of c x ->
  partition (String c "") (x ++ String c y) = Some (x, y).
Proof.
  intros Hx. induction x as [|a x IH].
  - simpl String.append. rewrite partition_eq, prefix_cons, Ascii.eqb_refl, prefix_nil_l.
    reflexivity.
  - apply free_cons in Hx as [Ha Hx]. simpl String.append.
    rewrite partition_eq, prefix_cons, Ha. simpl. now rewrite (IH Hx).
Qed.

Lemma split_fuel_free (fuel : nat) (c : ascii) (x : string) :
  free_of c x -> split_fuel fuel (String c "") x = [x].
Proof.
  intros Hx. destruct fuel; [reflexivity|]. simpl.
  now rewrite (proj2 (partition_none (String c "") x) Hx).
Qed.

Lemma removelast_cons {A : Type} (x : A) (l : list A) :
  l <> [] -> removelast (x :: l) = x :: removelast l.
Proof. now destruct l. Qed.

Lemma split_fuel_nonempty (fuel : nat) (sep s : string) : split_fuel fuel sep s <> [].
Proof.
  destruct fuel; simpl; [discriminate|].
  destruct (partition sep s) as [[a b]|]; discriminate.
Qed.

(** The polling loop, whatever it starts from: it fails on the first byte
    above 0x7F among those it reads, and otherwise prints one line for
    each piece that a carriage return ends. *)
Lemma progress_loop_rule (n : nat) (out cur : string) (printed : list string) (fuel : nat) :
  free_of CR cur ->
  String.length (take n out) <= fuel ->
  progress_loop n out cur printed =
  if all_ascii (take n out)
  then inr (printed ++
            map progress_line
              (removelast (split_fuel fuel (String CR "") (cur ++ take n out))))%list
  else inl UnicodeDecodeError.
Proof.
  revert out cur printed fuel.
  induction n as [|n IH]; intros out cur printed fuel Hcur Hfuel.
  - simpl. rewrite append_nil_r_string, split_fuel_free by exact Hcur.
    simpl. now rewrite app_nil_r.
  - destruct out as [|v out].
    + cbn [progress_loop]. rewrite (IH "" cur printed fuel Hcur).
      * now destruct n.
      * destruct n; simpl; lia.
    + cbn [progress_loop take all_ascii]. simpl String.length in Hfuel.
      destruct (Ascii.eqb v CR) eqn:V.
      * apply Ascii.eqb_eq in V. subst v.
        destruct fuel as [|fuel]; [lia|].
        change ("Progress: " ++ strip cur) with (progress_line cur).
        rewrite (IH out "" (printed ++ [progress_line cur])%list fuel eq_refl) by lia.
        change (N_of_ascii CR <? 128)%N with true. cbn [andb].
        destruct (all_ascii (take n out)); [|reflexivity].
        cbn [split_fuel]. rewrite partition_at_first by exact Hcur.
        rewrite removelast_cons by apply split_fuel_nonempty.
        cbn [map String.append]. now rewrite <- app_assoc.
      * destruct (N_of_ascii v <? 128)%N eqn:A; [|reflexivity]. cbn [andb].
        rewrite (IH out (cur ++ String v "") printed fuel).
        -- now rewrite append_assoc.
        -- apply free_app. split; [exact Hcur|]. apply free_cons.
           split; [now rewrite Ascii.eqb_sym | reflexivity].
        -- lia.
Qed.

(** When the source image resolves and exists, the converter reads the
    output of the child for as long as it sees it running.  A byte above
    0x7F among the bytes read makes it raise; otherwise it returns the
    name of the destination file, whatever the child did, after printing
    one progress line for each piece of the output read that a carriage
    return ends, the text after the last carriage return being dropped. *)
Theorem converter_reports_progress (w : world) (pve_path vmdk_path : string) :
  returncode (pvesm_path w pve_path) = 0%Z ->
  path_exists w (strip (stdout (pvesm_path w pve_path))) = true ->
  let child := qemu_img w (strip (stdout (pvesm_path w pve_path))) vmdk_path in
  let read := take (polls child) (child_output child) in
  convert_disk_file w pve_path vmdk_path =
  if all_ascii read
  then inr (Some (basename vmdk_path),
            ("Converting " ++ pve_path ++ " -> " ++ basename vmdk_path)
            :: map (fun update => "Progress: " ++ strip update)
                 (removelast (split (String CR "") read)))
  else inl UnicodeDecodeError.
Proof.
  intros Hrc Hex child read. unfold convert_disk_file.
  rewrite Hrc, Hex. cbn [Z.eqb negb]. fold child.
  rewrite (progress_loop_rule _ _ "" [] (String.length read) eq_refl (le_n _)).
  fold read. cbn [String.append app]. unfold split.
  now destruct (all_ascii read).
Qed.

Lemma converter_reports_progress_witness :
  convert_disk_file failing_world "local:100/vm-100-disk-0.qcow2"
    "vm_2026-11-04_0207/vm-sata0-disk-0.vmdk"
  = inr (Some "vm-sata0-disk-0.vmdk",
         ["Converting local:100/vm-100-disk-0.qcow2 -> vm-sata0-disk-0.vmdk";
          "Progress: (12"]).
Proof.
  rewrite (converter_reports_progress failing_world "local:100/vm-100-disk-0.qcow2"
             "vm_2026-11-04_0207/vm-sata0-disk-0.vmdk" eq_refl eq_refl).
  vm_compute. reflexivity.
Defined.

End ConverterFacts.

Section OrchestratorFacts.
Import PyStr Re Prox2vmx Spec.

(** ** The fallback name *)

Lemma char_at_some (i : nat) (s : string) :
  i < String.length s ->
  exists c, char_at i s = Some c /\ In c (list_ascii_of_string s).
Proof.
  revert i. induction s as [|x s IH]; intros i Hi; simpl in Hi; [lia|].
  destruct i as [|i]; simpl.
  - exists x. auto.
  - destruct (IH i) as (c & Hc & Hin); [lia|]. exists c. auto.
Qed.

(** Rounding up stays below the bound when the bound is far enough. *)
Lemma round_step_bound (c half m bound : N) :
  (c = 2 * half)%N -> (0 < half)%N -> (m + half < bound)%N ->
  ((if (half <? m mod c) || ((m mod c =? half) && N.odd (m / c)) then m / c + 1 else m / c) * c
   < bound)%N.
Proof.
  intros Hc Hh Hm.
  pose proof (N.div_mod m c ltac:(lia)) as Hdiv.
  pose proof (N.mod_lt m c ltac:(lia)) as Hr.
  remember (m / c)%N as q eqn:Hq. remember (m mod c)%N as r eqn:Hrem. clear Hq Hrem.
  assert (q * c + r = m)%N as Hdiv' by (rewrite N.mul_comm; now symmetry).
  destruct ((half <? r) || ((r =? half) && N.odd q))%N eqn:C.
  - assert (half <= r)%N as Hge.
    { apply orb_prop in C as [C|C].
      - apply N.ltb_lt in C. lia.
      - apply andb_prop in C as [C _]. apply N.eqb_eq in C. lia. }
    rewrite N.mul_add_distr_r, N.mul_1_l. lia.
  - lia.
Qed.

Lemma round_bits_bound (e m : N) :
  (1 <= e <= 6)%N -> (m + 62 <= 62 * 2 ^ 53)%N -> (round_bits e m < 62 * 2 ^ 53)%N.
Proof.
  intros He Hm. unfold round_bits.
  assert (e = 1 \/ e = 2 \/ e = 3 \/ e = 4 \/ e = 5 \/ e = 6)%N as Hcase by lia.
  destruct Hcase as [-> | [-> | [-> | [-> | [-> | ->]]]]];
    (apply round_step_bound; [reflexivity | reflexivity |]).
  - change (2 ^ 1 / 2)%N with 1%N. lia.
  - change (2 ^ 2 / 2)%N with 2%N. lia.
  - change (2 ^ 3 / 2)%N with 4%N. lia.
  - change (2 ^ 4 / 2)%N with 8%N. lia.
  - change (2 ^ 5 / 2)%N with 16%N. lia.
  - change (2 ^ 6 / 2)%N with 32%N. lia.
Qed.

(** The index drawn in a population of 62 is below 62, rounding included. *)
Lemma float_index_62 (r : N) : float_index r 62 < 62.
Proof.
  unfold float_index. change (N.of_nat 62) with 62%N.
  pose proof (N.mod_lt r (2 ^ 53) ltac:(discriminate)) as Hk.
  remember (r mod 2 ^ 53)%N as k eqn:E. clear E.
  assert (round53 (k * 62) / 2 ^ 53 < 62)%N as H; [|lia].
  apply N.Div0.div_lt_upper_bound. unfold round53.
  remember (k * 62)%N as m eqn:Hm.
  assert (m + 62 <= 62 * 2 ^ 53)%N as Hb
    by (change (2 ^ 53)%N with 9007199254740992%N in *; lia).
  destruct (N.eqb_spec (N.log2 m + 1 - 53) 0) as [E|E].
  - change (2 ^ 53)%N with 9007199254740992%N in *. lia.
  - rewrite (N.mul_comm (2 ^ 53) 62). apply round_bits_bound; [|exact Hb].
    split; [lia|].
    assert (0 < m)%N as Hpos.
    { destruct (N.eq_dec m 0) as [Z|Z]; [|lia]. rewrite Z in E. now elim E. }
    assert (N.log2 m < 59)%N; [|lia].
    apply N.log2_lt_pow2; [exact Hpos|].
    change (2 ^ 53)%N with 9007199254740992%N in *.
    change (2 ^ 59)%N with 576460752303423488%N. lia.
Qed.

Lemma choices_shape (chars : string) (draws : nat -> N) (k : nat) :
  (forall r, float_index r (String.length chars) < String.length chars) ->
  exists s, choices chars draws k = Some s /\ String.length s = k /\
            forall c, In c (list_ascii_of_string s) -> In c (list_ascii_of_string chars).
Proof.
  intros Hlen. revert draws. induction k as [|k IH]; intros draws.
  - exists "". repeat split. intros c [].
  - destruct (IH (fun i => draws (S i))) as (rest & Hr & Hl & Hin).
    destruct (char_at_some _ chars (Hlen (draws 0))) as (c & Hc & Hcin).
    exists (String c rest). cbn [choices]. rewrite Hr. cbn [bind]. rewrite Hc. cbn [bind].
    split; [reflexivity|]. split; [simpl; now rewrite Hl|].
    intros x [<-|Hx]; auto.
Qed.

Lemma alphanumeric_index (r : N) :
  float_index r (String.length alphanumeric) < String.length alphanumeric.
Proof. apply float_index_62. Qed.

Lemma all_alnum_forall (s : string) :
  (forall c, In c (list_ascii_of_string s) -> alnum c = true) -> all_alnum s = true.
Proof.
  induction s as [|x s IH]; intros H; [reflexivity|]. simpl.
  rewrite (H x) by (simpl; auto). apply IH. intros c Hc. apply H. simpl. auto.
Qed.


(** The random name never fails to be drawn, whatever the generator gives:
    it is made of eight characters, each a letter or a digit of ASCII. *)
Theorem random_name_shape (draws : nat -> N) :
  exists s, random_name draws = Some s /\ String.length s = 8 /\ all_alnum s = true.
Proof.
  destruct (choices_shape alphanumeric draws 8 alphanumeric_index) as (s & Hs & Hl & Hin).
  exists s. split; [exact Hs|]. split; [exact Hl|].
  apply all_alnum_forall. intros c Hc. apply Hin in Hc.
  simpl in Hc. repeat (destruct Hc as [<-|Hc]; [reflexivity|]). destruct Hc.
Qed.

(** The index is the floor of the rounded product, not of the exact one:
    at this draw the exact product is below 8 and the float is 8. *)
Example float_index_example :
  float_index 1162219258676257 62 = 8 /\
  N.to_nat (1162219258676257 * 62 / 2 ^ 53) = 7 /\
  float_index (2 ^ 53 - 1) 62 = 61 /\
  random_name (fun i => (N.of_nat i * 1162219258676257)%N) = Some "aiqyGOW4".
Proof. repeat split; vm_compute; reflexivity. Qed.

(** ** The run as a whole *)

Lemma uint_free_slash (d : uint) : free_of "/" (NilEmpty.string_of_uint d).
Proof.
  induction d; simpl; try reflexivity; apply free_cons; split; auto.
Qed.

(** The path of the source descriptor. *)
Lemma conf_path_eq (vm_id : Z) :
  path_join CONF_DIR (str_of_Z vm_id ++ ".conf")
  = "/etc/pve/qemu-server/" ++ str_of_Z vm_id ++ ".conf".
Proof.
  unfold path_join, startswith.
  assert (String.prefix "/" (str_of_Z vm_id ++ ".conf") = false) as ->; [|reflexivity].
  unfold str_of_Z, NilEmpty.string_of_int. destruct (Z.to_int vm_id) as [d|d].
  - pose proof (uint_free_slash d) as F.
    destruct (NilEmpty.string_of_uint d) as [|c s]; [reflexivity|].
    apply free_cons in F as [F _]. simpl String.append.
    now rewrite prefix_cons, F.
  - reflexivity.
Qed.

Lemma filter_prints (lines : list string) : filter is_effect (map Print lines) = [].
Proof. induction lines; simpl; auto. Qed.

Lemma existsb_prints (f : event -> bool) (lines : list string) :
  (forall l, f (Print l) = false) -> existsb f (map Print lines) = false.
Proof. intros H. induction lines; simpl; [reflexivity|]. now rewrite H. Qed.

(** The converter is called for the tasks in their order, each with its
    source and with its file inside the output directory; the calls stop at
    the first that raises; nothing is written meanwhile. *)
Lemma convert_all_rule (w : world) (out_dir : string) (tasks : list task) :
  existsb is_write (fst (convert_all w out_dir tasks)) = false /\
  exists done,
    filter is_effect (fst (convert_all w out_dir tasks))
    = map (fun t => Convert (disk_file t) (path_join out_dir (vmdk_name t))) done /\
    (exists rest, tasks = done ++ rest)%list /\
    (snd (convert_all w out_dir tasks) = None -> done = tasks).
Proof.
  induction tasks as [|t tasks (IHw & done & IHe & (rest & IHt) & IHn)].
  - split; [reflexivity|]. exists []. repeat split. now exists [].
  - cbn [convert_all].
    destruct (convert_disk_file w (disk_file t) (path_join out_dir (vmdk_name t)))
      as [e|[ret printed]].
    + split; [reflexivity|]. exists [t]. split; [reflexivity|].
      split; [now exists tasks | discriminate].
    + destruct (convert_all w out_dir tasks) as [events r]. cbn [fst snd] in *. split.
      * cbn [app existsb is_write]. rewrite existsb_app, IHw, orb_false_r.
        now apply existsb_prints.
      * exists (t :: done). rewrite filter_app. cbn [filter is_effect].
        rewrite filter_prints, IHe. split; [reflexivity|].
        split; [exists rest; now rewrite IHt | intros Hr; now rewrite IHn].
Qed.

(** Nothing is done to the host, no directory made, no conversion started
    and no file written, unless the source descriptor exists and the
    status command has succeeded with an answer that holds [stopped]. *)
Theorem run_acts_only_on_stopped_vm (h : host) (now : string) (vm_id : Z) (pm : bool) :
  existsb is_effect (fst (main h now vm_id pm)) = true ->
  path_exists (conv h) ("/etc/pve/qemu-server/" ++ str_of_Z vm_id ++ ".conf") = true /\
  returncode (qm_status h vm_id) = 0%Z /\
  contains "stopped" (strip (stdout (qm_status h vm_id))) = true.
Proof.
  unfold main. rewrite conf_path_eq.
  destruct (path_exists (conv h) _) eqn:Pe; cbn [negb]; [|discriminate].
  destruct (parse_conf (files h) _) as [cfg|]; [|discriminate].
  destruct (random_name (draws h)) as [rnd|]; [|discriminate].
  destruct (Dict.get _ "name") as [vm_name|]; [|discriminate].
  unfold check_vm_is_running.
  destruct (returncode (qm_status h vm_id) =? 0)%Z eqn:Rc; cbn [negb]; [|discriminate].
  destruct (contains "stopped" (strip (stdout (qm_status h vm_id)))) eqn:St;
    cbn [negb]; [|discriminate].
  intros _. apply Z.eqb_eq in Rc. auto.
Qed.

Lemma run_acts_only_on_stopped_vm_witness :
  existsb is_effect (fst (main stopped_host "2026-11-04_0207" 100 true)) = true /\
  contains "stopped" (strip (stdout (qm_status stopped_host 100))) = true.
Proof.
  assert (existsb is_effect (fst (main stopped_host "2026-11-04_0207" 100 true)) = true) as H
    by (vm_compute; reflexivity).
  split; [exact H|].
  exact (proj2 (proj2 (run_acts_only_on_stopped_vm _ _ _ _ H))).
Defined.

(** The descriptor is written by a run that returns and by no other: a
    run that exits or raises writes no file. *)
Theorem descriptor_written_only_on_return (h : host) (now : string) (vm_id : Z) (pm : bool) :
  snd (main h now vm_id pm) <> None ->
  existsb is_write (fst (main h now vm_id pm)) = false.
Proof.
  unfold main.
  destruct (path_exists (conv h) _); cbn [negb]; [|reflexivity].
  destruct (parse_conf (files h) _) as [cfg|]; [|reflexivity].
  destruct (random_name (draws h)) as [rnd|]; [|reflexivity].
  destruct (Dict.get _ "name") as [vm_name|]; [|reflexivity].
  destruct (check_vm_is_running h vm_id) as [e|[|]]; try reflexivity.
  destruct (makedirs_ok h _); cbn [negb]; [|reflexivity].
  destruct (process_conf _ pm) as [[vmx tasks]|]; [|reflexivity].
  pose proof (convert_all_rule (conv h) (vm_name ++ "_" ++ now) tasks) as [Hw _].
  destruct (convert_all (conv h) (vm_name ++ "_" ++ now) tasks) as [events r].
  cbn [fst] in Hw. destruct r as [a|].
  - intros _. cbn [fst app existsb is_write]. exact Hw.
  - destruct (writable h _); cbn [negb snd fst].
    + intros H. now elim H.
    + intros _. cbn [app existsb is_write]. exact Hw.
Qed.

Lemma descriptor_written_only_on_return_witness :
  snd (main stopped_host "2026-11-04_0207" 100 true) = None /\
  snd (main (Build_host failing_world (fun _ => Some sample_conf)
               (fun _ => {| returncode := 0; stdout := "status: running" |})
               (fun i => N.of_nat i) (fun _ => true) (fun _ => true))
         "2026-11-04_0207" 100 true) = Some (Exit 1) /\
  existsb is_write
    (fst (main (Build_host failing_world (fun _ => Some sample_conf)
                  (fun _ => {| returncode := 0; stdout := "status: running" |})
                  (fun i => N.of_nat i) (fun _ => true) (fun _ => true))
            "2026-11-04_0207" 100 true)) = false.
Proof.
  split; [vm_compute; reflexivity|]. split; [vm_compute; reflexivity|].
  apply descriptor_written_only_on_return. vm_compute. discriminate.
Defined.

Lemma process_conf_display_name (cfg : Dict.t string) (pm : bool)
    (vmx : Dict.t string) (tasks : list task) :
  process_conf cfg pm = Some (vmx, tasks) ->
  Dict.get vmx "displayName" = Some (Dict.get_default cfg "name" "").
Proof.
  intros H. apply process_conf_view in H as (v & st & Hr & -> & _ & _ & Hdn & _).
  now rewrite (run_loop_frame _ _ _ _ _ "displayName" eq_refl Hr).
Qed.

Lemma prefix_slash_app (a r : string) (c : ascii) :
  Ascii.eqb "/" c = false -> String.prefix "/" (a ++ String c r) = String.prefix "/" a.
Proof.
  intros Hc. destruct a as [|x a]; simpl String.append.
  - now rewrite prefix_cons, Hc.
  - now rewrite !prefix_cons, !prefix_nil_l.
Qed.

Lemma ends_with_slash_contains (s : string) :
  ends_with_slash s = true -> contains "/" s = true.
Proof.
  induction s as [|c s IH]; [discriminate|]. intros H. rewrite contains_eq.
  destruct s as [|d s].
  - simpl in H. rewrite prefix_cons, Ascii.eqb_sym, H. reflexivity.
  - rewrite IH by exact H. apply orb_true_r.
Qed.

Lemma ends_with_slash_app (a b : string) :
  b <> "" -> ends_with_slash (a ++ b) = ends_with_slash b.
Proof.
  intros Hb. induction a as [|c a IH]; [reflexivity|].
  simpl String.append. cbn [ends_with_slash].
  destruct (a ++ b) as [|d r] eqn:E; [|exact IH].
  destruct a; simpl in E; [contradiction | discriminate].
Qed.

(** [os.path.join] under the output directory: a file whose name begins
    with a slash stays where its name says, any other goes below the
    directory. *)
Lemma path_join_out_dir (vm_name now file : string) :
  contains "/" now = false ->
  path_join (vm_name ++ "_" ++ now) file
  = if String.prefix "/" file then file else (vm_name ++ "_" ++ now) ++ "/" ++ file.
Proof.
  intros Hnow. unfold path_join, startswith.
  destruct (String.prefix "/" file); [reflexivity|].
  assert (String.eqb (vm_name ++ "_" ++ now) "" = false) as ->
    by (destruct vm_name; reflexivity).
  rewrite ends_with_slash_app by discriminate.
  assert (ends_with_slash ("_" ++ now) = false) as ->; [|reflexivity].
  simpl String.append. cbn [ends_with_slash]. destruct now as [|c r]; [reflexivity|].
  destruct (ends_with_slash (String c r)) eqn:E; [|reflexivity].
  apply ends_with_slash_contains in E. congruence.
Qed.

(** What a run that returns has done to the host, in order: it has made
    the output directory, named after the machine and the date; called the
    converter once for each task of the mapper, in their order; and written
    the descriptor of the mapping.  When the name of the machine does not
    begin with a slash, the converted files and the descriptor, [{name}.vmx],
    are placed in that directory.  When it does, [os.path.join] drops the
    directory: they are placed where the name says, outside it.  The name
    of the machine is the one of the source descriptor, even empty, or,
    without one, [vm-], the identifier, a dash and the random name; the
    descriptor displays it.  The date is formatted and holds no slash. *)
Theorem returned_run_effects (h : host) (now : string) (vm_id : Z) (pm : bool)
    (trace : list event) :
  contains "/" now = false ->
  main h now vm_id pm = (trace, None) ->
  exists cfg rnd vmx tasks,
    parse_conf (files h) ("/etc/pve/qemu-server/" ++ str_of_Z vm_id ++ ".conf") = Some cfg /\
    random_name (draws h) = Some rnd /\
    let vm_name := match Dict.get cfg "name" with
                   | Some v => v
                   | None => "vm-" ++ str_of_Z vm_id ++ "-" ++ rnd
                   end in
    let out_dir := vm_name ++ "_" ++ now in
    process_conf (Dict.set cfg "name" vm_name) pm = Some (vmx, tasks) /\
    Dict.get vmx "displayName" = Some vm_name /\
    (String.prefix "/" vm_name = false ->
     filter is_effect trace
     = (Makedirs out_dir
        :: map (fun t => Convert (disk_file t) (out_dir ++ "/" ++ vmdk_name t)) tasks
        ++ [Write (out_dir ++ "/" ++ vm_name ++ ".vmx") (vmx_text vmx)])%list) /\
    (String.prefix "/" vm_name = true ->
     filter is_effect trace
     = (Makedirs out_dir
        :: map (fun t => Convert (disk_file t) (vmdk_name t)) tasks
        ++ [Write (vm_name ++ ".vmx") (vmx_text vmx)])%list).
Proof.
  intros Hnow. unfold main. rewrite conf_path_eq.
  destruct (path_exists (conv h) _); cbn [negb]; [|discriminate].
  destruct (parse_conf (files h) _) as [cfg|]; [|discriminate].
  destruct (random_name (draws h)) as [rnd|]; [|discriminate].
  rewrite get_set_same. unfold Dict.get_default.
  set (vm_name := match Dict.get cfg "name" with
                  | Some v => v
                  | None => "vm-" ++ str_of_Z vm_id ++ "-" ++ rnd
                  end).
  destruct (check_vm_is_running h vm_id) as [e|[|]]; try discriminate.
  destruct (makedirs_ok h _); cbn [negb]; [|discriminate].
  destruct (process_conf _ pm) as [[vmx tasks]|] eqn:P; [|discriminate].
  pose proof (convert_all_rule (conv h) (vm_name ++ "_" ++ now) tasks)
    as (_ & done & He & _ & Hd).
  destruct (convert_all (conv h) (vm_name ++ "_" ++ now) tasks) as [events r].
  cbn [fst snd] in He, Hd. destruct r as [a|]; [discriminate|].
  destruct (writable h _); cbn [negb]; [|discriminate].
  intros [= <-]. exists cfg, rnd, vmx, tasks.
  split; [reflexivity|]. split; [reflexivity|]. split; [exact P|].
  assert (filter is_effect
            ([Makedirs (vm_name ++ "_" ++ now); Print ("Starting conversion " ++ vm_name)] ++
             events ++
             [Write (path_join (vm_name ++ "_" ++ now) (vm_name ++ ".vmx")) (vmx_text vmx);
              Print (String (ascii_of_nat 27) "[92mConversion successful: "
                     ++ vm_name ++ String (ascii_of_nat 27) "[0m")])%list
          = (Makedirs (vm_name ++ "_" ++ now)
             :: map (fun t => Convert (disk_file t)
                                (path_join (vm_name ++ "_" ++ now) (vmdk_name t))) tasks
             ++ [Write (path_join (vm_name ++ "_" ++ now) (vm_name ++ ".vmx"))
                   (vmx_text vmx)])%list) as Htrace.
  { rewrite !filter_app, He, (Hd eq_refl). reflexivity. }
  assert (Dict.get_default (Dict.set cfg "name" vm_name) "name" "" = vm_name) as Hname
    by (unfold Dict.get_default; now rewrite get_set_same).
  assert (forall t, In t tasks -> String.prefix "/" (vmdk_name t) = String.prefix "/" vm_name)
    as Htask.
  { intros t Hin. rewrite (process_conf_tasks _ _ _ _ P), Hname in Hin.
    apply tasks_from_in in Hin as (pre & key & entry & post & _ & _ & _ & ->).
    cbn [vmdk_name]. unfold vmdk_file. now apply prefix_slash_app. }
  assert (String.prefix "/" (vm_name ++ ".vmx") = String.prefix "/" vm_name) as Hvmx
    by now apply prefix_slash_app.
  split; [|split].
  - rewrite (process_conf_display_name _ _ _ _ P). now rewrite Hname.
  - intros Hrel. change (String.prefix "/" vm_name = false) in Hrel.
    etransitivity; [exact Htrace|].
    rewrite (path_join_out_dir _ _ _ Hnow), Hvmx, Hrel.
    do 2 f_equal. apply map_ext_in. intros t Hin.
    now rewrite (path_join_out_dir _ _ _ Hnow), (Htask t Hin), Hrel.
  - intros Habs. change (String.prefix "/" vm_name = true) in Habs.
    etransitivity; [exact Htrace|].
    rewrite (path_join_out_dir _ _ _ Hnow), Hvmx, Habs.
    do 2 f_equal. apply map_ext_in. intros t Hin.
    now rewrite (path_join_out_dir _ _ _ Hnow), (Htask t Hin), Habs.
Qed.

Lemma returned_run_effects_witness :
  exists trace,
    main nameless_host "2026-11-04_0207" 100 true = (trace, None) /\
    filter is_effect trace
    = [Makedirs "vm-100-aaaaaaaa_2026-11-04_0207";
       Convert "local:100/vm-100-disk-0.qcow2"
         "vm-100-aaaaaaaa_2026-11-04_0207/vm-100-aaaaaaaa-sata0-disk-0.vmdk";
       Write "vm-100-aaaaaaaa_2026-11-04_0207/vm-100-aaaaaaaa.vmx"
         (vmx_line ".encoding" "UTF-8" ++ vmx_line "displayName" "vm-100-aaaaaaaa" ++
          vmx_line "numvcpus" "2" ++ vmx_line "memsize" "4096" ++
          vmx_line "guestOS" "other-64" ++ vmx_line "tools.syncTime" "TRUE" ++
          vmx_line "virtualHW.version" "19" ++ vmx_line "config.version" "8" ++
          vmx_line "sata0.present" "TRUE" ++ vmx_line "sata0:0.present" "TRUE" ++
          vmx_line "sata0:0.fileName" "vm-100-aaaaaaaa-sata0-disk-0.vmdk")].
Proof.
  destruct (main nameless_host "2026-11-04_0207" 100 true) as [trace r] eqn:M.
  assert (r = None) as -> by (vm_compute in M; now injection M as _ <-).
  exists trace. split; [reflexivity|].
  destruct (returned_run_effects nameless_host "2026-11-04_0207" 100 true trace eq_refl M)
    as (cfg & rnd & vmx & tasks & Hp & Hr & Hrest).
  vm_compute in Hp. injection Hp as <-. vm_compute in Hr. injection Hr as <-.
  cbv zeta in Hrest. destruct Hrest as (Hpc & _ & Hrel & _).
  vm_compute in Hpc. injection Hpc as <- <-.
  rewrite (Hrel eq_refl). vm_compute. reflexivity.
Defined.

(** A name that begins with a slash: the descriptor is written outside the
    directory made for it. *)
Example absolute_name_leaves_directory :
  filter is_write
    (fst (main (Build_host failing_world (fun _ => Some "name: /tmp/x")
                  (fun _ => {| returncode := 0; stdout := "status: stopped" |})
                  (fun i => N.of_nat i) (fun _ => true) (fun _ => true))
            "2026-11-04_0207" 100 true))
  = [Write "/tmp/x.vmx"
       (vmx_line ".encoding" "UTF-8" ++ vmx_line "displayName" "/tmp/x" ++
        vmx_line "numvcpus" "1" ++ vmx_line "memsize" "4096" ++
        vmx_line "guestOS" "other-64" ++ vmx_line "tools.syncTime" "TRUE" ++
        vmx_line "virtualHW.version" "19" ++ vmx_line "config.version" "8")].
Proof. vm_compute. reflexivity. Qed.






(** A network key with too many digits stops the run after the directory
    is made. *)
Example run_raises_on_long_key :
  main (Build_host failing_world
          (fun _ => Some ("net" ++ replicate 4301 "0" ++ ": virtio=AA:BB:CC:DD:EE:FF"))
          (fun _ => {| returncode := 0; stdout := "status: stopped" |})
          (fun i => N.of_nat i) (fun _ => true) (fun _ => true))
       "2026-11-04_0207" 100 true
  = ([Makedirs "vm-100-aaaaaaaa_2026-11-04_0207";
      Print "Starting conversion vm-100-aaaaaaaa"], Some RaiseValueError).
Proof. vm_compute. reflexivity. Qed.

End OrchestratorFacts.

Section ParserFacts.
Import PyStr Re Prox2vmx Spec.

(** ** What the parser stores *)

Lemma set_in {V : Type} (d : Dict.t V) (k : string) (v : V) (p : string * V) :
  In p (Dict.set d k v) -> In p d \/ p = (k, v).
Proof.
  induction d as [|[k' v'] d IH]; simpl.
  - intros [<-|[]]. now right.
  - destruct (String.eqb k' k) eqn:E.
    + apply String.eqb_eq in E. subst k'. intros [<-|H]; auto.
    + intros [<-|H]; auto. destruct (IH H); auto.
Qed.

Lemma store_in (cfg : Dict.t string) (pairs : list (string * string)) (p : string * string) :
  In p (store cfg pairs) -> In p cfg \/ In p pairs.
Proof.
  revert cfg. induction pairs as [|[k v] pairs IH]; intros cfg H; [now left|].
  cbn [store fold_left fst snd] in H. fold (store (Dict.set cfg k v) pairs) in H.
  destruct (IH _ H) as [H1|H1]; [|right; now right].
  destruct (set_in _ _ _ _ H1) as [H2| ->]; [now left | right; now left].
Qed.

Lemma free_strip (c : ascii) (s : string) : free_of c s -> free_of c (strip s).
Proof.
  intros H. destruct (strip_spec s) as (l & r & E & _). rewrite E in H.
  apply free_app in H as [_ H]. now apply free_app in H as [H _].
Qed.

Lemma free_before (c x : ascii) (s : string) : free_of c s -> free_of c (before x s).
Proof.
  induction s as [|y s IH]; intros H; [reflexivity|]. simpl.
  apply free_cons in H as [Hy Hs]. destruct (Ascii.eqb y x); [reflexivity|].
  apply free_cons. auto.
Qed.

Lemma free_after (c x : ascii) (s : string) : free_of c s -> free_of c (after x s).
Proof.
  induction s as [|y s IH]; intros H; [reflexivity|]. simpl.
  apply free_cons in H as [Hy Hs]. destruct (Ascii.eqb y x); auto.
Qed.

Lemma rstrip_app_space (s : string) (c : ascii) :
  isspace c = true -> rstrip (s ++ String c "") = rstrip s.
Proof.
  intros Hc. induction s as [|x s IH]; simpl.
  - now rewrite Hc.
  - now rewrite IH.
Qed.

Lemma lstrip_all_space (s t : string) :
  all_space s = true -> lstrip (s ++ t) = lstrip t.
Proof.
  induction s as [|x s IH]; simpl; [reflexivity|].
  intros H. apply andb_prop in H as [Hx Hs]. rewrite Hx. auto.
Qed.

Lemma lstrip_app (s t : string) :
  all_space s = false -> lstrip (s ++ t) = lstrip s ++ t.
Proof.
  induction s as [|x s IH]; simpl; [discriminate|].
  destruct (isspace x); simpl; auto.
Qed.

(** A final whitespace character does not change what [strip] returns. *)
Lemma strip_app_space (s : string) (c : ascii) :
  isspace c = true -> strip (s ++ String c "") = strip s.
Proof.
  intros Hc. unfold strip. destruct (all_space s) eqn:A.
  - rewrite lstrip_all_space by exact A.
    replace (lstrip s) with (lstrip (s ++ EmptyString))
      by now rewrite append_nil_r_string.
    rewrite lstrip_all_space by exact A.
    simpl. now rewrite Hc.
  - rewrite lstrip_app by exact A. now apply rstrip_app_space.
Qed.

Lemma translate_newlines_free (s : string) :
  free_of CR (translate_newlines s) /\
  forall c, free_of CR (translate_newlines (String c s)).
Proof.
  induction s as [|x s [IH1 IH2]].
  - split; [reflexivity|]. intros c. cbn [translate_newlines].
    destruct (Ascii.eqb c CR) eqn:E; [reflexivity|].
    apply free_cons. split; [now rewrite Ascii.eqb_sym | reflexivity].
  - split; [apply IH2|]. intros c. cbn [translate_newlines].
    destruct (Ascii.eqb c CR) eqn:E.
    + apply free_cons. split; [reflexivity|].
      destruct (Ascii.eqb x LF); [exact IH1 | apply IH2].
    + apply free_cons. split; [now rewrite Ascii.eqb_sym | apply IH2].
Qed.

(** A line ends at the first line feed and holds no other. *)
Lemma readlines_lines (u : string) (line : string) :
  In line (readlines u) ->
  (exists body, free_of LF body /\ (line = body \/ line = body ++ String LF "")) /\
  (free_of CR u -> free_of CR line).
Proof.
  revert line. induction u as [|c u IH]; intros line; [intros []|].
  cbn [readlines]. destruct (Ascii.eqb c LF) eqn:E.
  - apply Ascii.eqb_eq in E. subst c. intros [<-|H].
    + split; [exists ""; split; [reflexivity | now right] | reflexivity].
    + destruct (IH line H) as [Hb Hc]. split; [exact Hb|].
      intros F. apply free_cons in F as [_ F]. exact (Hc F).
  - destruct (readlines u) as [|l ls] eqn:R.
    + intros [<-|[]]. split.
      * exists (String c ""). split; [|now left].
        apply free_cons. split; [now rewrite Ascii.eqb_sym | reflexivity].
      * intros F. apply free_cons in F as [F _]. apply free_cons.
        split; [exact F | reflexivity].
    + intros [<-|H].
      * destruct (IH l (or_introl eq_refl)) as [(body & Hb & Hl) Hc]. split.
        -- exists (String c body). split.
           ++ apply free_cons. split; [now rewrite Ascii.eqb_sym | exact Hb].
           ++ destruct Hl as [->| ->]; [now left | now right].
        -- intros F. apply free_cons in F as [Fc F]. apply free_cons.
           split; [exact Fc | exact (Hc F)].
      * destruct (IH line (or_intror H)) as [Hb Hc]. split; [exact Hb|].
        intros F. apply free_cons in F as [_ F]. exact (Hc F).
Qed.

(** Every key and every value of a parsed mapping is trimmed and holds no
    line feed and no carriage return, and no key holds a colon. *)
Theorem parsed_entries_are_clean (fs : filesystem) (filepath : string)
    (cfg : Dict.t string) (key value : string) :
  parse_conf fs filepath = Some cfg ->
  In (key, value) cfg ->
  (starts_with_space key = false /\ ends_with_space key = false /\
   starts_with_space value = false /\ ends_with_space value = false) /\
  contains ":" key = false /\
  (contains (String LF "") key = false /\ contains (String CR "") key = false) /\
  (contains (String LF "") value = false /\ contains (String CR "") value = false).
Proof.
  unfold parse_conf. destruct (fs filepath) as [text|]; [|discriminate]. cbn [bind].
  rewrite parse_lines_eq. intros [= <-] Hin.
  apply store_in in Hin as [[]|Hin].
  unfold line_pairs in Hin. apply in_flat_map in Hin as (line & Hline & Hp).
  apply readlines_lines in Hline as [(body & Hbody & Hl) Hcr].
  specialize (Hcr (proj1 (translate_newlines_free text))).
  unfold line_pair in Hp.
  destruct (negb (String.eqb (strip line) "") && contains ":" (strip line)); [|destruct Hp].
  destruct Hp as [E|[]]. injection E as <- <-.
  assert (free_of LF (strip line)) as Hlf.
  { destruct Hl as [->| ->]; [now apply free_strip|].
    rewrite strip_app_space by reflexivity. now apply free_strip. }
  assert (free_of CR (strip line)) as Hcr' by now apply free_strip.
  destruct (strip_spec (before ":" (strip line))) as (? & ? & _ & _ & _ & Ks & Ke).
  destruct (strip_spec (after ":" (strip line))) as (? & ? & _ & _ & _ & Vs & Ve).
  split; [auto|]. split; [apply free_strip, before_free|].
  split; split; apply free_strip; first [now apply free_before | now apply free_after].
Qed.

Lemma parsed_entries_are_clean_witness :
  parse_conf (fun _ => Some sample_conf) "/etc/pve/qemu-server/100.conf"
  = Some [("name", "web:01"); ("cores", "2")] /\
  ends_with_space "cores" = false /\ contains ":" "cores" = false.
Proof.
  assert (parse_conf (fun _ => Some sample_conf) "/etc/pve/qemu-server/100.conf"
          = Some [("name", "web:01"); ("cores", "2")]) as H by (vm_compute; reflexivity).
  split; [exact H|].
  destruct (parsed_entries_are_clean _ _ _ "cores" "2" H (or_intror (or_introl eq_refl)))
    as ((_ & He & _) & Hc & _).
  split; [exact He | exact Hc].
Defined.

End ParserFacts.
